(** * PolicyLens: the response normalizer, the gateway error handlers,
      the response envelope and the demographic summarizer

    A shallow embedding of [backend/agent.py], [backend/main.py] and
    [backend/tools.py].  Python values are the values [json.loads] produces,
    a raised exception is the left injection of a sum, and every function is
    written statement by statement after its source.

    Text is ASCII: [str.strip], [str.lower], [str.title], [str.split] and the
    regular expression classes [\s] and [\d] are modelled on the code points
    below 128, and a code point from 128 on is a caseless, non-blank
    character. Python's own methods follow the Unicode tables there, so every
    statement on what these methods make of a text takes the text to be ASCII
    ([Str.isascii], [Py.isascii]), where the model and the methods agree.
    The objects [json.loads] builds are fresh and share nothing, so an update
    in place is the new value put where the old one was. *)

From Stdlib Require Import String Ascii List ZArith QArith Lia Bool DecimalString.
Import ListNotations.
Open Scope string_scope.
Open Scope Z_scope.

Set Implicit Arguments.
Set Warnings "-register-all".

(** ** Characters and strings, as Python's [str] methods see them *)

Module Str.

Definition code (c : ascii) : N := N_of_ascii c.

Definition between (lo hi : N) (c : ascii) : bool :=
  (lo <=? code c)%N && (code c <=? hi)%N.

(** [str.isspace] and the class [\s]: TAB..CR, FS..US and the blank. *)
Definition is_space (c : ascii) : bool := between 9 13 c || between 28 32 c.
Definition is_upper (c : ascii) : bool := between 65 90 c.
Definition is_lower (c : ascii) : bool := between 97 122 c.
Definition is_cased (c : ascii) : bool := is_upper c || is_lower c.
Definition is_digit (c : ascii) : bool := between 48 57 c.
Definition is_newline (c : ascii) : bool := (code c =? 10)%N.

Definition lower_char (c : ascii) : ascii :=
  if is_upper c then ascii_of_N (code c + 32) else c.
Definition upper_char (c : ascii) : ascii :=
  if is_lower c then ascii_of_N (code c - 32) else c.

Fixpoint lower (s : string) : string :=
  match s with
  | EmptyString => EmptyString
  | String c s' => String (lower_char c) (lower s')
  end.

(** [str.title]: a character that follows a cased one is lowered, any other
    is raised. *)
Fixpoint title_from (previous_is_cased : bool) (s : string) : string :=
  match s with
  | EmptyString => EmptyString
  | String c s' =>
      String (if previous_is_cased then lower_char c else upper_char c)
             (title_from (is_cased c) s')
  end.
Definition title (s : string) : string := title_from false s.

Fixpoint lstrip (s : string) : string :=
  match s with
  | EmptyString => EmptyString
  | String c s' => if is_space c then lstrip s' else s
  end.

Fixpoint rstrip (s : string) : string :=
  match s with
  | EmptyString => EmptyString
  | String c s' =>
      match rstrip s' with
      | EmptyString => if is_space c then EmptyString else String c EmptyString
      | r => String c r
      end
  end.

Definition strip (s : string) : string := rstrip (lstrip s).

(** [p in s] for two strings. *)
Fixpoint contains (p s : string) : bool :=
  prefix p s ||
  match s with
  | EmptyString => false
  | String _ s' => contains p s'
  end.

Fixpoint endswith (suffix s : string) : bool :=
  String.eqb s suffix ||
  match s with
  | EmptyString => false
  | String _ s' => endswith suffix s'
  end.

(** The slices [s[:n]] and [s[n:]]. *)
Fixpoint take (n : nat) (s : string) : string :=
  match n, s with
  | S n', String c s' => String c (take n' s')
  | _, _ => EmptyString
  end.

Fixpoint drop (n : nat) (s : string) : string :=
  match n, s with
  | S n', String _ s' => drop n' s'
  | _, _ => s
  end.

(** [s.split()]: the maximal runs of non-blank characters. *)
Fixpoint split (s : string) : list string :=
  match s with
  | EmptyString => []
  | String c s' =>
      if is_space c then split s'
      else
        match s' with
        | EmptyString => [String c EmptyString]
        | String c' _ =>
            if is_space c' then String c EmptyString :: split s'
            else
              match split s' with
              | w :: ws => String c w :: ws
              | [] => [String c EmptyString]
              end
        end
  end.

Definition join (sep : string) (l : list string) : string := String.concat sep l.

(** [re.sub(cls+, ' ', s)]: every maximal run of characters of the class
    becomes one blank. *)
Fixpoint sub_runs (cls : ascii -> bool) (s : string) : string :=
  match s with
  | EmptyString => EmptyString
  | String c s' =>
      if cls c then
        match s' with
        | EmptyString => " "
        | String c' _ => if cls c' then sub_runs cls s' else String " " (sub_runs cls s')
        end
      else String c (sub_runs cls s')
  end.

(** The longest prefix of characters of a class, and what follows it. *)
Fixpoint span (cls : ascii -> bool) (s : string) : string * string :=
  match s with
  | EmptyString => (EmptyString, EmptyString)
  | String c s' =>
      if cls c then let (a, b) := span cls s' in (String c a, b)
      else (EmptyString, s)
  end.

Fixpoint chars (s : string) : list string :=
  match s with
  | EmptyString => []
  | String c s' => String c EmptyString :: chars s'
  end.

Definition of_Z (z : Z) : string := NilZero.string_of_int (Z.to_int z).
Definition of_nat (n : nat) : string := of_Z (Z.of_nat n).

Definition hex_digit (n : N) : ascii :=
  if (n <? 10)%N then ascii_of_N (48 + n) else ascii_of_N (87 + n).

Definition apostrophe : ascii := ascii_of_N 39.
Definition double_quote : ascii := ascii_of_N 34.

(** [repr] of a [str]: quoted with apostrophes, or with double quotes when
    the text has an apostrophe and no double quote, with the backslash
    escapes of CPython. *)
Definition repr_char (quote c : ascii) : string :=
  if Ascii.eqb c "\" then "\\"
  else if Ascii.eqb c quote then String "\" (String c "")
  else if (code c =? 9)%N then "\t"
  else if (code c =? 10)%N then "\n"
  else if (code c =? 13)%N then "\r"
  else if (code c <? 32)%N || (code c =? 127)%N then
    String "\" (String "x" (String (hex_digit (code c / 16)) (String (hex_digit (code c mod 16)) "")))
  else String c "".

Fixpoint repr_body (quote : ascii) (s : string) : string :=
  match s with
  | EmptyString => EmptyString
  | String c s' => repr_char quote c ++ repr_body quote s'
  end.

Definition repr (s : string) : string :=
  let quote : ascii :=
    if contains (String apostrophe "") s && negb (contains (String double_quote "") s)
    then double_quote else apostrophe in
  String quote (repr_body quote s) ++ String quote "".

(** [s.isascii()]: every code point is below 128. On such a text the methods
    above are Python's. *)
Definition is_ascii_char (c : ascii) : bool := (code c <? 128)%N.

Fixpoint isascii (s : string) : bool :=
  match s with
  | EmptyString => true
  | String c s' => is_ascii_char c && isascii s'
  end.

End Str.

(** ** [int(float(text))] for the text of a decimal numeral

    [float] rounds the numeral to the nearest binary64 value, ties to even,
    and gives infinity from [2^1024 - 2^970] on; [int] then raises
    [OverflowError] on infinity and drops the fraction otherwise. *)

Module Float.

Definition round_half_even (a b : Z) : Z :=
  let q := a / b in
  let r := a mod b in
  if 2 * r <? b then q
  else if b <? 2 * r then q + 1
  else if Z.even q then q else q + 1.

(** The exponent [e] with [2^e <= n/d < 2^(e+1)], for positive [n] and [d]. *)
Definition exponent (n d : Z) : Z :=
  let e0 := Z.log2 n - Z.log2 d in
  if 0 <=? e0 then (if d * 2 ^ e0 <=? n then e0 else e0 - 1)
  else (if d <=? n * 2 ^ (- e0) then e0 else e0 - 1).

(** The binary64 value nearest to [n/d], as a 53-bit significand [m] and
    the exponent [p] of its last bit: [m * 2^p]. [None] is infinity. *)
Definition of_ratio (n d : Z) : option (Z * Z) :=
  if n =? 0 then Some (0, 0)
  else
    let e := exponent n d in
    let p := Z.max (e - 52) (-1074) in
    let m := if 0 <=? p then round_half_even n (d * 2 ^ p)
             else round_half_even (n * 2 ^ (- p)) d in
    if (0 <=? p) && (2 ^ 1024 <=? m * 2 ^ p) then None else Some (m, p).

Definition to_int (f : Z * Z) : Z :=
  let (m, p) := f in
  if 0 <=? p then m * 2 ^ p else m / 2 ^ (- p).

Definition digit_value (c : ascii) : Z := Z.of_N (Str.code c) - 48.

Fixpoint digits_value_from (acc : Z) (s : string) : Z :=
  match s with
  | EmptyString => acc
  | String c s' => digits_value_from (10 * acc + digit_value c) s'
  end.
Definition digits_value (s : string) : Z := digits_value_from 0 s.

(** [int(float(ip.fp))] for digit strings [ip] and [fp]; [None] stands for
    the [OverflowError]. *)
Definition int_of_numeral (ip fp : string) : option Z :=
  option_map to_int
    (of_ratio (digits_value (ip ++ fp)) (10 ^ Z.of_nat (String.length fp))).

End Float.

(** ** Python values and exceptions *)

(** A [float] is only ever tested for truth and printed by this code: it is
    kept as its printed form and whether it is nonzero. *)
Record pyfloat : Set := { float_repr : string; float_nonzero : bool }.

(** What [json.loads] yields. A [dict] keeps its keys in insertion order. *)
Inductive value : Set :=
| VNone
| VBool (b : bool)
| VInt (n : Z)
| VFloat (f : pyfloat)
| VStr (s : string)
| VList (items : list value)
| VDict (entries : list (string * value)).

(** An exception object: its class, [str(e)] and [repr(e)]. *)
Record exception : Set := { exc_class : string; exc_str : string; exc_repr : string }.

Definition raised (cls msg : string) : exception :=
  {| exc_class := cls; exc_str := msg; exc_repr := cls ++ "(" ++ Str.repr msg ++ ")" |}.

(** A computation that returns a value or raises. *)
Definition fallible (A : Type) : Type := (exception + A)%type.
Definition ret {A : Type} (a : A) : fallible A := inr a.
Definition raise {A : Type} (e : exception) : fallible A := inl e.
Definition bind {A B : Type} (m : fallible A) (k : A -> fallible B) : fallible B :=
  match m with
  | inl e => inl e
  | inr a => k a
  end.

Notation "x <- m ;; k" := (bind m (fun x => k))
  (at level 61, m at next level, right associativity).

Fixpoint mapM {A B : Type} (f : A -> fallible B) (l : list A) : fallible (list B) :=
  match l with
  | [] => ret []
  | a :: l' => b <- f a ;; bs <- mapM f l' ;; ret (b :: bs)
  end.

Module Py.

Definition type_name (v : value) : string :=
  match v with
  | VNone => "NoneType"
  | VBool _ => "bool"
  | VInt _ => "int"
  | VFloat _ => "float"
  | VStr _ => "str"
  | VList _ => "list"
  | VDict _ => "dict"
  end.

(** The messages are CPython 3.11's. *)
Definition TypeError (msg : string) : exception := raised "TypeError" msg.
Definition AttributeError (v : value) (attr : string) : exception :=
  raised "AttributeError" ("'" ++ type_name v ++ "' object has no attribute '" ++ attr ++ "'").
Definition KeyError (k : string) : exception :=
  {| exc_class := "KeyError"; exc_str := Str.repr k;
     exc_repr := "KeyError(" ++ Str.repr k ++ ")" |}.
Definition ValueError (msg : string) : exception := raised "ValueError" msg.

Definition truthy (v : value) : bool :=
  match v with
  | VNone => false
  | VBool b => b
  | VInt n => negb (n =? 0)
  | VFloat f => float_nonzero f
  | VStr s => negb (String.eqb s "")
  | VList l => match l with [] => false | _ => true end
  | VDict d => match d with [] => false | _ => true end
  end.

Fixpoint lookup (k : string) (d : list (string * value)) : option value :=
  match d with
  | [] => None
  | (k', v) :: d' => if String.eqb k k' then Some v else lookup k d'
  end.

(** [d[k] = v]: an existing key keeps its place, a new one goes last. *)
Fixpoint store (k : string) (v : value) (d : list (string * value)) : list (string * value) :=
  match d with
  | [] => [(k, v)]
  | (k', v') :: d' => if String.eqb k k' then (k', v) :: d' else (k', v') :: store k v d'
  end.

Definition is_str (k : string) (v : value) : bool :=
  match v with
  | VStr s => String.eqb s k
  | _ => false
  end.

(** [k in c] for a string [k]. *)
Definition contains (k : string) (c : value) : fallible bool :=
  match c with
  | VDict d => ret (match lookup k d with Some _ => true | None => false end)
  | VList l => ret (existsb (is_str k) l)
  | VStr s => ret (Str.contains k s)
  | _ => raise (TypeError ("argument of type '" ++ type_name c ++ "' is not iterable"))
  end.

(** [c[k]] for a string [k]. *)
Definition getitem (c : value) (k : string) : fallible value :=
  match c with
  | VDict d => match lookup k d with Some v => ret v | None => raise (KeyError k) end
  | VList _ => raise (TypeError "list indices must be integers or slices, not str")
  | VStr _ => raise (TypeError "string indices must be integers, not 'str'")
  | _ => raise (TypeError ("'" ++ type_name c ++ "' object is not subscriptable"))
  end.

(** [c[k] = v] for a string [k]; the container after the assignment. *)
Definition setitem (c : value) (k : string) (v : value) : fallible value :=
  match c with
  | VDict d => ret (VDict (store k v d))
  | VList _ => raise (TypeError "list indices must be integers or slices, not str")
  | _ => raise (TypeError ("'" ++ type_name c ++ "' object does not support item assignment"))
  end.

Definition len (c : value) : fallible nat :=
  match c with
  | VList l => ret (List.length l)
  | VStr s => ret (String.length s)
  | VDict d => ret (List.length d)
  | _ => raise (TypeError ("object of type '" ++ type_name c ++ "' has no len()"))
  end.

(** [c[:n]]. *)
Definition slice_to (n : nat) (c : value) : fallible value :=
  match c with
  | VList l => ret (VList (firstn n l))
  | VStr s => ret (VStr (Str.take n s))
  | VDict _ => raise (TypeError "unhashable type: 'slice'")
  | _ => raise (TypeError ("'" ++ type_name c ++ "' object is not subscriptable"))
  end.

(** The items a [for] loop visits. *)
Definition iter (c : value) : fallible (list value) :=
  match c with
  | VList l => ret l
  | VStr s => ret (map VStr (Str.chars s))
  | VDict d => ret (map (fun kv => VStr (fst kv)) d)
  | _ => raise (TypeError ("'" ++ type_name c ++ "' object is not iterable"))
  end.

(** [for item in c: body(item)] where the body may update the item in place:
    the items of a list are the objects the body sees, so the list holds the
    updated items afterwards; the items of a [str] or the keys of a [dict] are
    strings, which no body can update. *)
Definition for_each (body : value -> fallible value) (c : value) : fallible value :=
  match c with
  | VList l => l' <- mapM body l ;; ret (VList l')
  | _ => items <- iter c ;; _ <- mapM body items ;; ret c
  end.

(** [v.strip()]. *)
Definition strip (v : value) : fallible string :=
  match v with
  | VStr s => ret (Str.strip s)
  | _ => raise (AttributeError v "strip")
  end.

(** [v.lower()]. *)
Definition lower (v : value) : fallible string :=
  match v with
  | VStr s => ret (Str.lower s)
  | _ => raise (AttributeError v "lower")
  end.

Definition isinstance_list (v : value) : bool :=
  match v with VList _ => true | _ => false end.
Definition isinstance_dict (v : value) : bool :=
  match v with VDict _ => true | _ => false end.

(** [repr(v)], and [str(v)], which differs on a [str] only. *)
Fixpoint repr (v : value) : string :=
  match v with
  | VNone => "None"
  | VBool b => if b then "True" else "False"
  | VInt n => Str.of_Z n
  | VFloat f => float_repr f
  | VStr s => Str.repr s
  | VList l => "[" ++ Str.join ", " (map repr l) ++ "]"
  | VDict d =>
      "{" ++ Str.join ", " (map (fun kv => Str.repr (fst kv) ++ ": " ++ repr (snd kv)) d) ++ "}"
  end.

Definition str (v : value) : string :=
  match v with
  | VStr s => s
  | _ => repr v
  end.

(** Every text of the value is ASCII: its strings, the keys of its dicts and
    the printed forms of its floats. *)
Fixpoint isascii (v : value) : bool :=
  match v with
  | VNone | VBool _ | VInt _ => true
  | VFloat f => Str.isascii (float_repr f)
  | VStr s => Str.isascii s
  | VList l => forallb isascii l
  | VDict d => forallb (fun kv => Str.isascii (fst kv) && isascii (snd kv)) d
  end.

End Py.

(** ** [backend/config.py] *)

Module Config.
Definition RISK_LEVELS : list string := ["Low"; "Medium"; "High"].
Definition MAX_AFFECTED_GROUPS : nat := 3.
Definition MAX_MITIGATIONS : nat := 5.
Definition REASONING_SUMMARY_MAX_WORDS : nat := 35.
End Config.

(** ** [backend/agent.py]: the normalization pipeline *)

Module Agent.

(** [self.deterministic_rules["region_mapping"]["cities_to_states"]]. *)
Definition cities_to_states : list (string * string) :=
  [ ("Mumbai", "Maharashtra");
    ("Delhi", "Delhi");
    ("Bangalore", "Karnataka");
    ("Chennai", "Tamil Nadu");
    ("Kolkata", "West Bengal");
    ("Hyderabad", "Telangana");
    ("Pune", "Maharashtra");
    ("Ahmedabad", "Gujarat") ].

Fixpoint table_get (k : string) (t : list (string * string)) : option string :=
  match t with
  | [] => None
  | (k', v) :: t' => if String.eqb k k' then Some v else table_get k t'
  end.

Definition mem (x : string) (l : list string) : bool := existsb (String.eqb x) l.

(** The object stored under [k] was updated in place: the container holds
    the updated object. *)
Definition updated_in_place (c : value) (k : string) (v : value) : value :=
  match c with
  | VDict d => VDict (Py.store k v d)
  | _ => c
  end.

(** The chain of [if]/[elif] on [risk_lower]. *)
Definition risk_of (risk_lower : string) : string :=
  if mem risk_lower ["low"; "l"] then "Low"
  else if mem risk_lower ["medium"; "med"; "m"] then "Medium"
  else if mem risk_lower ["high"; "h"] then "High"
  else "Medium".

(** The body of the loop of [_apply_deterministic_rules]. *)
Definition rules_group (group : value) : fallible value :=
  has_risk <- Py.contains "risk_level" group ;;
  if has_risk then
    level <- Py.getitem group "risk_level" ;;
    risk <- Py.strip level ;;
    let risk_lower := Str.lower risk in
    Py.setitem group "risk_level" (VStr (risk_of risk_lower))
  else ret group.

Definition _apply_deterministic_rules (result : value) : fallible value :=
  has_groups <- Py.contains "affected_groups" result ;;
  if has_groups then
    groups <- Py.getitem result "affected_groups" ;;
    groups <- Py.for_each rules_group groups ;;
    ret (updated_in_place result "affected_groups" groups)
  else ret result.

(** The body of the loop of [_apply_anchoring_logic]. *)
Definition anchor_group (group : value) : fallible value :=
  has_group <- Py.contains "group" group ;;
  unnamed <- (if negb has_group then ret true
              else name <- Py.getitem group "group" ;; ret (negb (Py.truthy name))) ;;
  group <- (if unnamed then Py.setitem group "group" (VStr "Unspecified group")
            else ret group) ;;
  has_risk <- Py.contains "risk_level" group ;;
  group <- (if negb has_risk then Py.setitem group "risk_level" (VStr "Medium")
            else ret group) ;;
  has_regions <- Py.contains "regions" group ;;
  group <- (if negb has_regions then Py.setitem group "regions" (VList [])
            else ret group) ;;
  regions <- Py.getitem group "regions" ;;
  if negb (Py.isinstance_list regions) then
    Py.setitem group "regions" (if Py.truthy regions then VList [regions] else VList [])
  else ret group.

(** What becomes of [summary] after [summary = result["reasoning_summary"].strip()]. *)
Definition anchor_summary (summary : string) : string :=
  let summary := Str.sub_runs Str.is_space summary in
  let summary := Str.sub_runs Str.is_newline summary in
  let words := Str.split summary in
  if (Config.REASONING_SUMMARY_MAX_WORDS <? List.length words)%nat then
    let summary := Str.join " " (firstn Config.REASONING_SUMMARY_MAX_WORDS words) in
    if negb (Str.endswith "." summary) then summary ++ "." else summary
  else summary.

(** [if len(result[k]) > cap: result[k] = result[k][:cap]]. *)
Definition limit (k : string) (cap : nat) (result : value) : fallible value :=
  held <- Py.getitem result k ;;
  n <- Py.len held ;;
  if (cap <? n)%nat then
    held <- Py.getitem result k ;;
    kept <- Py.slice_to cap held ;;
    Py.setitem result k kept
  else ret result.

Definition _apply_anchoring_logic (result : value) : fallible value :=
  has_groups <- Py.contains "affected_groups" result ;;
  result <- (if negb has_groups then Py.setitem result "affected_groups" (VList [])
             else ret result) ;;
  result <- limit "affected_groups" Config.MAX_AFFECTED_GROUPS result ;;
  groups <- Py.getitem result "affected_groups" ;;
  groups <- Py.for_each anchor_group groups ;;
  let result := updated_in_place result "affected_groups" groups in
  has_mitigations <- Py.contains "mitigations" result ;;
  result <- (if negb has_mitigations then Py.setitem result "mitigations" (VList [])
             else ret result) ;;
  result <- limit "mitigations" Config.MAX_MITIGATIONS result ;;
  has_summary <- Py.contains "reasoning_summary" result ;;
  if negb has_summary then
    Py.setitem result "reasoning_summary" (VStr "Analysis completed.")
  else
    held <- Py.getitem result "reasoning_summary" ;;
    summary <- Py.strip held ;;
    Py.setitem result "reasoning_summary" (VStr (anchor_summary summary)).

(** What the inner loop of [_normalize_regions] appends for one region. *)
Definition canonical_region (region : value) : string :=
  let region_str := Str.strip (Py.str region) in
  match table_get region_str cities_to_states with
  | Some state => state
  | None => Str.title region_str
  end.

(** [[r for r in l if r not in seen and not seen.add(r)]]. *)
Fixpoint dedupe_seen (seen : list string) (l : list string) : list string :=
  match l with
  | [] => []
  | r :: l' =>
      if negb (mem r seen) then r :: dedupe_seen (r :: seen) l'
      else dedupe_seen seen l'
  end.
Definition dedupe (l : list string) : list string := dedupe_seen [] l.

(** The body of the loop of [_normalize_regions]. *)
Definition regions_group (group : value) : fallible value :=
  has_regions <- Py.contains "regions" group ;;
  is_list <- (if has_regions then
                regions <- Py.getitem group "regions" ;; ret (Py.isinstance_list regions)
              else ret false) ;;
  if is_list then
    regions <- Py.getitem group "regions" ;;
    items <- Py.iter regions ;;
    let normalized_regions := map canonical_region items in
    Py.setitem group "regions" (VList (map VStr (dedupe normalized_regions)))
  else ret group.

Definition _normalize_regions (result : value) : fallible value :=
  has_groups <- Py.contains "affected_groups" result ;;
  if has_groups then
    groups <- Py.getitem result "affected_groups" ;;
    groups <- Py.for_each regions_group groups ;;
    ret (updated_in_place result "affected_groups" groups)
  else ret result.

(** The final loop over [required_keys]. *)
Definition require_key (result : value) (key : string) : fallible value :=
  has_key <- Py.contains key result ;;
  if negb has_key then
    if String.eqb key "affected_groups" then Py.setitem result key (VList [])
    else if String.eqb key "mitigations" then Py.setitem result key (VList [])
    else Py.setitem result key (VStr "Analysis completed.")
  else ret result.

Fixpoint foldM {A B : Type} (f : A -> B -> fallible A) (a : A) (l : list B) : fallible A :=
  match l with
  | [] => ret a
  | b :: l' => a' <- f a b ;; foldM f a' l'
  end.

Definition _post_process_normalize (result : value) : fallible value :=
  result <- _apply_deterministic_rules result ;;
  result <- _apply_anchoring_logic result ;;
  result <- _normalize_regions result ;;
  if negb (Py.isinstance_dict result) then
    raise (Py.ValueError "Result must be a dictionary")
  else
    let required_keys := ["affected_groups"; "mitigations"; "reasoning_summary"] in
    foldM require_key result required_keys.

(** *** [analyze]: the model call, the parse and the error handlers *)

Definition newline : string := String (ascii_of_N 10) "".
Definition fence : string := "```".

(** What [self.client.models.generate_content] does: it raises an
    [Exception], or it returns a response whose [text] is a string or
    [None]. *)
Inductive reply : Set :=
| Raises (e : exception)
| Responds (text : option string).

(** The search for the retry delay, at one position: the words [retry in ],
    one or more digits, an optional point, digits, blanks and the letter [s];
    group 1 is the numeral, returned as the digits before and after its
    point. Every quantifier of the pattern is followed by a character
    outside its class, so the greedy match is the only candidate and no
    backtracking is modelled. *)
Definition match_retry_here (text : string) : option (string * string) :=
  if prefix "retry in " text then
    let (int_part, rest) := Str.span Str.is_digit (Str.drop 9 text) in
    if String.eqb int_part "" then None
    else
      let rest := match rest with
                  | String "." rest' => rest'
                  | _ => rest
                  end in
      let (frac_part, rest) := Str.span Str.is_digit rest in
      match Str.lstrip rest with
      | String "s" _ => Some (int_part, frac_part)
      | _ => None
      end
  else None.

Fixpoint search_retry (text : string) : option (string * string) :=
  match match_retry_here text with
  | Some g => Some g
  | None =>
      match text with
      | EmptyString => None
      | String _ text' => search_retry text'
      end
  end.

Definition OverflowError : exception :=
  raised "OverflowError" "cannot convert float infinity to integer".

(** The retry delay both quota handlers compute from the lowered text. *)
Definition retry_delay_of (error_lower : string) : fallible string :=
  if Str.contains "retry" error_lower && Str.contains "in" error_lower then
    match search_retry error_lower with
    | Some (int_part, frac_part) =>
        match Float.int_of_numeral int_part frac_part with
        | Some seconds => ret (Str.of_Z seconds)
        | None => raise OverflowError
        end
    | None => ret "60"
    end
  else ret "60".

Definition degraded_group (name : string) : value :=
  VDict [("group", VStr name); ("risk_level", VStr "Unknown"); ("regions", VList [])].

Definition quota_result (retry_delay : string) : value :=
  VDict
    [ ("affected_groups", VList [degraded_group "API Quota Exceeded"]);
      ("mitigations",
       VList
         [ VStr "API quota limit reached. Please wait before retrying.";
           VStr ("Retry after " ++ retry_delay ++ " seconds.");
           VStr "Check your Gemini API quota and billing details at https://ai.dev/usage";
           VStr "Consider upgrading your API plan for higher limits" ]);
      ("reasoning_summary",
       VStr ("API quota exceeded. Free tier limit of 20 requests/day reached. Please retry after "
             ++ retry_delay ++ " seconds or upgrade your API plan."));
      ("is_error", VBool true);
      ("error_type", VStr "quota_exceeded") ].

Definition authentication_result : value :=
  VDict
    [ ("affected_groups", VList [degraded_group "API Authentication Error"]);
      ("mitigations",
       VList
         [ VStr "Invalid or expired API key.";
           VStr "Please check your Gemini API key configuration.";
           VStr "Update the API key in environment variables or config." ]);
      ("reasoning_summary", VStr "API authentication failed. Please verify your API key.");
      ("is_error", VBool true);
      ("error_type", VStr "authentication_error") ].

Definition generic_result (clean_error : string) : value :=
  VDict
    [ ("affected_groups", VList [degraded_group "Error analyzing data"]);
      ("mitigations",
       VList [VStr "Please try again. If the error persists, check your API configuration."]);
      ("reasoning_summary", VStr clean_error);
      ("is_error", VBool true);
      ("error_type", VStr "generic_error") ].

Definition parse_error_result : value :=
  VDict
    [ ("affected_groups", VList [degraded_group "Error parsing response"]);
      ("mitigations", VList [VStr "Please try again. The AI response was invalid."]);
      ("reasoning_summary", VStr "Error occurred while parsing AI response.") ].

Definition empty_result : value :=
  VDict
    [ ("affected_groups", VList []);
      ("mitigations", VList []);
      ("reasoning_summary", VStr "Model returned no text.") ].

(** The first [re.sub] of the fence recovery removes, at the start of the
    text, the opening fence, an optional [json] tag and the blanks up to the
    last newline of the run that follows. *)
Fixpoint after_last_newline (blanks : string) : option string :=
  match blanks with
  | EmptyString => None
  | String c blanks' =>
      match after_last_newline blanks' with
      | Some rest => Some rest
      | None => if Str.is_newline c then Some blanks' else None
      end
  end.

Definition strip_opening_fence (text : string) : string :=
  if prefix fence text then
    let body := Str.drop 3 text in
    let body := if prefix "json" body then Str.drop 4 body else body in
    let (blanks, rest) := Str.span Str.is_space body in
    match after_last_newline blanks with
    | Some kept => kept ++ rest
    | None => text
    end
  else text.

Fixpoint all_space (s : string) : bool :=
  match s with
  | EmptyString => true
  | String c s' => Str.is_space c && all_space s'
  end.

(** The second [re.sub] removes the first newline that is followed by a
    fence and nothing but blanks, and all after it. *)
Fixpoint strip_closing_fence (text : string) : string :=
  if prefix (newline ++ fence) text && all_space (Str.drop 4 text) then EmptyString
  else
    match text with
    | EmptyString => EmptyString
    | String c text' => String c (strip_closing_fence text')
    end.

Definition policy_and_demographics_prompt (policy_text demographics_text : string) : string :=
  "POLICY DOCUMENT (PRIMARY INPUT):
" ++ policy_text ++ "

DEMOGRAPHIC CONTEXT (SUPPORTING EVIDENCE):
" ++ demographics_text ++ "

INSTRUCTIONS:
- The policy document is your PRIMARY source for analysis
- The demographic context provides SUPPORTING evidence to identify affected groups and regions
- Use demographic data to:
  * Identify which population segments are most affected
  * Determine regional impact based on demographic distribution
  * Assess vulnerability levels using demographic indicators
- If demographic data shows high rural population, prioritize rural groups
- If demographic data shows low internet penetration in certain regions, consider digital policies' impact there
- Integrate demographic insights into your risk assessment and mitigation recommendations

Analyze the policy using BOTH the policy document and demographic context.".

Definition policy_only_prompt (policy_text : string) : string :=
  "POLICY DOCUMENT (PRIMARY INPUT):
" ++ policy_text ++ "

INSTRUCTIONS:
- Analyze the policy document to identify affected groups and regions
- Use general knowledge about Indian demographics to inform your analysis
- Focus on the policy content to determine impact

Analyze the policy document.".

Definition longer_than (n : Z) (s : string) : bool := n <? Z.of_nat (String.length s).

Definition is_quota (error_str error_repr error_lower : string) : bool :=
  Str.contains "429" error_str || Str.contains "429" error_repr ||
  Str.contains "resource_exhausted" error_lower ||
  Str.contains "quota" error_lower.

Section Analyze.

(** The model call, as a function of the prompt it is sent. *)
Variable generate_content : string -> reply.

(** [json.loads]: the parsed value, or the text [str(e)] of the
    [JSONDecodeError] it raises. *)
Variable json_loads : string -> string + value.

(** The two [json.loads] attempts, the second on the text without its
    markdown fence. *)
Definition parse_response (response_text : string) : fallible value :=
  match json_loads response_text with
  | inr parsed => ret parsed
  | inl e =>
      let text := Str.strip response_text in
      let text := if prefix fence text
                  then strip_closing_fence (strip_opening_fence text)
                  else text in
      match json_loads text with
      | inr parsed => ret parsed
      | inl _ => raise (Py.ValueError ("Invalid JSON response from model: " ++ e))
      end
  end.

(** The body of the outer [try]: [ret] is a [return] of [analyze], [raise]
    an exception that reaches the outer handlers. *)
Definition attempt (prompt : string) : fallible value :=
  match generate_content prompt with
  | Raises api_error =>
      let error_str := exc_str api_error in
      let error_repr := exc_repr api_error in
      let error_lower := Str.lower error_str ++ " " ++ Str.lower error_repr in
      if is_quota error_str error_repr error_lower then
        retry_delay <- retry_delay_of error_lower ;;
        ret (quota_result retry_delay)
      else raise api_error
  | Responds text =>
      match text with
      | Some response_text =>
          if negb (String.eqb response_text "") then
            result <- parse_response response_text ;;
            result <- _post_process_normalize result ;;
            ret result
          else ret empty_result
      | None => ret empty_result
      end
  end.

Definition is_authentication (error_str error_combined : string) : bool :=
  Str.contains "401" error_str || Str.contains "403" error_str ||
  Str.contains "authentication" error_combined ||
  Str.contains "invalid api key" error_combined.

Definition looks_like_error_dump (clean_error : string) : bool :=
  Str.contains "{'error':" clean_error ||
  Str.contains ("{" ++ String Str.double_quote "error" ++ String Str.double_quote ":") clean_error.

(** The two outer handlers. *)
Definition handle (e : exception) : fallible value :=
  if String.eqb (exc_class e) "JSONDecodeError" then ret parse_error_result
  else
    let error_str := exc_str e in
    let error_repr := exc_repr e in
    let error_combined := Str.lower (error_str ++ " " ++ error_repr) in
    if is_quota error_str error_repr error_combined then
      retry_delay <- retry_delay_of error_combined ;;
      ret (quota_result retry_delay)
    else if is_authentication error_str error_combined then ret authentication_result
    else
      let clean_error := if longer_than 150 error_str
                         then Str.take (Z.to_nat 150) error_str else error_str in
      let clean_error := if looks_like_error_dump clean_error
                         then "An unexpected error occurred during analysis."
                         else clean_error in
      ret (generic_result clean_error).

Definition has_demographics (demographics_text : string) : bool :=
  negb (String.eqb demographics_text "") &&
  (0 <? String.length (Str.strip demographics_text))%nat &&
  negb (Str.contains "Error loading" demographics_text) &&
  negb (Str.contains "No demographic" demographics_text).

Definition compose_prompt (policy_text demographics_text : string) : string :=
  let policy_text := if longer_than 20000 policy_text
                     then Str.take (Z.to_nat 20000) policy_text else policy_text in
  if has_demographics demographics_text then
    let demographics_text := if longer_than 5000 demographics_text
                             then Str.take (Z.to_nat 5000) demographics_text
                             else demographics_text in
    policy_and_demographics_prompt policy_text demographics_text
  else policy_only_prompt policy_text.

(** [analyze]: a value it returns, or an exception that escapes it. *)
Definition analyze (policy_text demographics_text : string) : fallible value :=
  match attempt (compose_prompt policy_text demographics_text) with
  | inr result => ret result
  | inl e => handle e
  end.

End Analyze.

End Agent.

(** ** [backend/tools.py]: the demographic summarizer *)

Module Tools.

Section Pdf.

(** [PdfReader(pdf_path)]: it raises, or it gives the pages of the document,
    each with what [extract_text()] does on it: the text it returns or the
    exception it raises. *)
Variable PdfReader : string -> fallible (list (fallible string)).

Definition Exception (msg : string) : exception := raised "Exception" msg.

(** The loop [for page in reader.pages: text += page.extract_text() + newline]. *)
Fixpoint extract_pages (text : string) (pages : list (fallible string)) : fallible string :=
  match pages with
  | [] => ret text
  | page :: pages' =>
      extracted <- page ;;
      extract_pages (text ++ extracted ++ Agent.newline) pages'
  end.

Definition extract_policy_text (pdf_path : string) : fallible string :=
  match (pages <- PdfReader pdf_path ;; extract_pages "" pages) with
  | inr text => ret text
  | inl e => raise (Exception ("Failed to extract text from PDF: " ++ exc_str e))
  end.

End Pdf.

Section Pandas.

(** The data of one column, and what pandas computes from it: the sum, the
    mean and the median of a numeric column, and the labels and counts of
    [value_counts()], most frequent first. *)
Variable series : Type.
Variable series_sum series_mean series_median : series -> Q.
Variable value_counts : series -> list (string * Z).

(** The format specifications [:.1f], [:,.0f] and [:,] of the f-strings. *)
Variable format_1f format_comma_0f : Q -> string.
Variable format_comma : Z -> string.

(** A column: its label, the name of its dtype and its data. The labels of a
    frame are strings, and distinct: on a frame with another kind of label
    [df.columns.str.lower()] raises, and the function with it. The statistics
    of a column are finite numbers. *)
Record column : Type := { label : string; dtype : string; data : series }.

Record DataFrame : Type := { columns : list column; rows : nat }.

Definition is_numeric (c : column) : bool :=
  Agent.mem (dtype c) ["int64"; "float64"].

(** [any(k in text for k in keywords)]. *)
Definition any_in (keywords : list string) (text : string) : bool :=
  existsb (fun k => Str.contains k text) keywords.

(** [next((col for col in df.columns if any keyword in col.lower()), None)]. *)
Definition first_column (keywords : list string) (df : DataFrame) : option column :=
  find (fun c => any_in keywords (Str.lower (label c))) (columns df).

(** [', '.join(counts.head(n).index.astype(str).tolist())]. *)
Definition top_labels (n : nat) (c : column) : string :=
  Str.join ", " (map fst (firstn n (value_counts (data c)))).

Definition population_lines (df : DataFrame) : list string :=
  if existsb (fun col => any_in ["population"; "pop"] col) (map (fun c => Str.lower (label c)) (columns df)) then
    match first_column ["population"; "pop"] df with
    | Some pop_col =>
        if negb (String.eqb (label pop_col) "") then
          let total_pop := if is_numeric pop_col then Some (series_sum (data pop_col)) else None in
          match total_pop with
          | Some total =>
              if negb (Qeq_bool total 0)
              then ["Total population: " ++ format_comma (Z.quot (Qnum total) (Zpos (Qden total)))]
              else []
          | None => []
          end
        else []
    | None => []
    end
  else [].

Definition numeric_sum_or_zero (c : column) : Q :=
  if is_numeric c then series_sum (data c) else 0%Q.

Definition rural_urban_lines (df : DataFrame) : list string :=
  if existsb (fun col => any_in ["rural"; "urban"] col) (map (fun c => Str.lower (label c)) (columns df)) then
    match first_column ["rural"] df, first_column ["urban"] df with
    | Some rural_col, Some urban_col =>
        let rural := numeric_sum_or_zero rural_col in
        let urban := numeric_sum_or_zero urban_col in
        let total := (rural + urban)%Q in
        if negb (Qle_bool total 0) then
          let rural_pct := ((rural / total) * 100)%Q in
          let urban_pct := ((urban / total) * 100)%Q in
          [ "Rural population: " ++ format_1f rural_pct ++ "%";
            "Urban population: " ++ format_1f urban_pct ++ "%" ]
        else []
    | _, _ => []
    end
  else [].

Definition income_lines (df : DataFrame) : list string :=
  if existsb (fun col => any_in ["income"; "wage"; "salary"] col) (map (fun c => Str.lower (label c)) (columns df)) then
    match first_column ["income"; "wage"; "salary"] df with
    | Some income_col =>
        if is_numeric income_col then
          [ "Average income: ₹" ++ format_comma_0f (series_mean (data income_col));
            "Median income: ₹" ++ format_comma_0f (series_median (data income_col)) ]
        else []
    | None => []
    end
  else [].

Definition education_lines (df : DataFrame) : list string :=
  if existsb (fun col => any_in ["education"; "literacy"; "literate"] col) (map (fun c => Str.lower (label c)) (columns df)) then
    match first_column ["education"; "literacy"; "literate"] df with
    | Some edu_col =>
        if is_numeric edu_col then
          ["Average literacy/education level: " ++ format_1f (series_mean (data edu_col)) ++ "%"]
        else ["Top education levels: " ++ top_labels 3 edu_col]
    | None => []
    end
  else [].

Definition region_lines (df : DataFrame) : list string :=
  match filter (fun c => any_in ["region"; "state"; "district"; "area"; "location"] (Str.lower (label c)))
               (columns df) with
  | region_col :: _ => ["Top regions by data points: " ++ top_labels 5 region_col]
  | [] => []
  end.

Definition vulnerability_keywords : list string :=
  ["unemployment"; "poverty"; "vulnerable"; "disability"; "elderly"; "children"].

Definition vulnerability_line (df : DataFrame) (keyword : string) : list string :=
  match filter (fun c => Str.contains keyword (Str.lower (label c))) (columns df) with
  | col :: _ =>
      if is_numeric col then
        ["Average " ++ keyword ++ " rate: " ++ format_1f (series_mean (data col)) ++ "%"]
      else ["Top " ++ keyword ++ " categories: " ++ top_labels 3 col]
  | [] => []
  end.

Definition tech_keywords : list string :=
  ["internet"; "digital"; "technology"; "mobile"; "smartphone"].

Definition tech_line (df : DataFrame) (keyword : string) : list string :=
  match filter (fun c => Str.contains keyword (Str.lower (label c))) (columns df) with
  | col :: _ =>
      if is_numeric col then
        ["Average " ++ keyword ++ " penetration: " ++ format_1f (series_mean (data col)) ++ "%"]
      else []
  | [] => []
  end.

Definition employment_lines (df : DataFrame) : list string :=
  if existsb (fun col => any_in ["employment"; "employed"; "job"] col) (map (fun c => Str.lower (label c)) (columns df)) then
    match first_column ["employment"; "employed"; "job"] df with
    | Some emp_col =>
        if is_numeric emp_col then
          ["Average employment rate: " ++ format_1f (series_mean (data emp_col)) ++ "%"]
        else
          [ "Employment distribution: " ++
            Str.join ", " (map (fun kv => fst kv ++ ": " ++ Str.of_Z (snd kv) ++ "%")
                               (firstn 3 (value_counts (data emp_col)))) ]
    | None => []
    end
  else [].

(** [summary_parts], after each block of the function has appended its
    lines. *)
Definition summary_parts (df : DataFrame) : list string :=
  let total_rows := rows df in
  ["Total records: " ++ Str.of_nat total_rows]
    ++ population_lines df
    ++ rural_urban_lines df
    ++ income_lines df
    ++ education_lines df
    ++ region_lines df
    ++ flat_map (vulnerability_line df) vulnerability_keywords
    ++ flat_map (tech_line df) tech_keywords
    ++ employment_lines df.

Definition fallback : string := "Demographic data loaded but no key indicators identified.".

Definition generate_demographic_summary (df : DataFrame) : string :=
  match summary_parts df with
  | [] => fallback
  | parts => Str.join Agent.newline parts
  end.

(** [pd.read_csv] and [pd.read_excel] on the file at a path. *)
Variable read_csv read_excel : string -> fallible DataFrame.

Definition digest_of (loaded : fallible DataFrame) : string :=
  match loaded with
  | inr df =>
      let summary := generate_demographic_summary df in
      "Demographic Context:" ++ Agent.newline ++ summary ++ Agent.newline ++ Agent.newline
        ++ "Available data columns: " ++ Str.join ", " (map label (columns df))
  | inl e => "Error loading file: " ++ exc_str e
  end.

Definition load_demographics (csv_path : string) : string :=
  if Str.endswith ".csv" csv_path then digest_of (read_csv csv_path)
  else if Str.endswith ".xlsx" csv_path || Str.endswith ".xls" csv_path
  then digest_of (read_excel csv_path)
  else "Error loading file: Unsupported file format".

End Pandas.

(** The keywords of every block of [generate_demographic_summary]. *)
Definition all_keywords : list string :=
  ["population"; "pop"; "rural"; "urban"; "income"; "wage"; "salary";
   "education"; "literacy"; "literate";
   "region"; "state"; "district"; "area"; "location"]
    ++ vulnerability_keywords ++ tech_keywords ++ ["employment"; "employed"; "job"].

(** No label of the frame has a keyword. *)
Definition no_indicator {series : Type} (df : DataFrame series) : bool :=
  forallb (fun c => negb (any_in all_keywords (Str.lower (label c)))) (columns df).

End Tools.

(** ** [backend/main.py]: the demographic stage and the response envelope *)

Module Main.

Definition MAX_FILE_SIZE : Z := 10 * 1024 * 1024.
Definition ALLOWED_DEMOGRAPHIC_EXTENSIONS : list string := [".csv"; ".xlsx"; ".xls"].

(** An uploaded file: its name, [None] when the part has none, and its
    content. *)
Record UploadFile : Set := { filename : option string; content : string }.

Record HTTPException : Set := { status_code : Z; detail : string }.

Definition validate_file_extension (name : string) (allowed_extensions : list string) : bool :=
  if String.eqb name "" then false
  else existsb (fun ext => Str.endswith (Str.lower ext) (Str.lower name)) allowed_extensions.

Definition validate_file_size (size max_size : Z) : bool := size <=? max_size.

(** [a and b] on values. *)
Definition and_ (a b : value) : value := if Py.truthy a then b else a.

Definition option_str (o : option string) : value :=
  match o with
  | Some s => VStr s
  | None => VNone
  end.

Section AnalyzePolicy.

(** [load_demographics] on the temporary copy of the upload, named by its
    suffix: the digest, or the exception that escapes it. *)
Variable load_demographics : string -> string -> fallible string.

(** The block under [# Process demographic file if provided], and the
    default that follows it: [demographics_text], or the error the block
    raises. *)
Definition demographics_text_of (demographic_file : option UploadFile)
  : HTTPException + string :=
  let processed : HTTPException + string :=
    match demographic_file with
    | Some file =>
        match filename file with
        | Some name =>
            if negb (String.eqb name "") then
              if negb (validate_file_extension name ALLOWED_DEMOGRAPHIC_EXTENSIONS) then
                inl {| status_code := 400;
                       detail := "Demographic file must be one of: "
                                 ++ Str.join ", " ALLOWED_DEMOGRAPHIC_EXTENSIONS |}
              else if negb (validate_file_size (Z.of_nat (String.length (content file))) MAX_FILE_SIZE) then
                inl {| status_code := 400;
                       detail := "Demographic file size exceeds maximum allowed size of 10.0MB" |}
              else
                let ext := if Str.endswith ".csv" (Str.lower name) then ".csv" else ".xlsx" in
                match load_demographics ext (content file) with
                | inr demographics_text =>
                    if String.eqb demographics_text "" ||
                       Str.contains "Error loading file" demographics_text
                    then inr "No demographic data could be extracted"
                    else inr demographics_text
                | inl e => inr ("Error loading demographic data: " ++ exc_str e)
                end
            else inr ""
        | None => inr ""
        end
    | None => inr ""
    end in
  match processed with
  | inl e => inl e
  | inr demographics_text =>
      if String.eqb demographics_text "" then inr "No demographic data provided"
      else inr demographics_text
  end.

(** The chain of [and] under [# Check if demographic data was used]: an
    [UploadFile] object is true, so the chain goes on to its [filename]. *)
Definition used_demographics (demographic_file : option UploadFile)
                             (demographics_text : string) : value :=
  match demographic_file with
  | None => VNone
  | Some file =>
      and_ (option_str (filename file))
        (and_ (VStr demographics_text)
           (and_ (VBool (negb (Str.contains "Error loading" demographics_text)))
                 (VBool (negb (Str.contains "No demographic" demographics_text)))))
  end.

(** [d.get(k, default)]. *)
Definition get (d : list (string * value)) (k : string) (default : value) : value :=
  match Py.lookup k d with
  | Some v => v
  | None => default
  end.

Definition envelope_group (group : value) : list value :=
  match group with
  | VDict g =>
      [VDict [ ("group", get g "group" (VStr "Unknown Group"));
               ("risk_level", get g "risk_level" (VStr "Unknown"));
               ("regions", if Py.isinstance_list (get g "regions" VNone)
                           then get g "regions" (VList []) else VList []) ]]
  | _ => []
  end.

(** The response envelope built from the dict [agent.analyze] returned. *)
Definition envelope (response : list (string * value)) (demographic_file : option UploadFile)
                    (demographics_text : string) : value :=
  let affected_groups := match get response "affected_groups" (VList []) with
                         | VList l => l
                         | _ => []
                         end in
  let normalized_groups := flat_map envelope_group affected_groups in
  let mitigations := match get response "mitigations" (VList []) with
                     | VList l => VList l
                     | _ => VList []
                     end in
  VDict
    [ ("affected_groups", VList normalized_groups);
      ("mitigations", mitigations);
      ("reasoning_summary", VStr (Py.str (get response "reasoning_summary" (VStr "Analysis completed"))));
      ("error", get response "error" VNone);
      ("demographics_used", used_demographics demographic_file demographics_text) ].

End AnalyzePolicy.

Definition ALLOWED_POLICY_EXTENSIONS : list string := [".pdf"].
Definition DEFAULT_TIMEOUT : Z := 300.

(** The test under [# Check if response indicates quota error]. *)
Definition quota_in_summary (response : value) : fallible bool :=
  match response with
  | VDict d =>
      match Py.lookup "reasoning_summary" d with
      | Some summary =>
          lowered <- Py.lower summary ;;
          if Str.contains "quota" lowered then ret true
          else Py.contains "429" summary
      | None => ret false
      end
  | _ => ret false
  end.

Definition quota_in_summary_error : HTTPException :=
  {| status_code := 429;
     detail := "API quota exceeded. Please wait a moment and try again, or check your API plan and billing details." |}.

Definition quota_in_exception_error : HTTPException :=
  {| status_code := 429;
     detail := "API quota exceeded. Please wait before retrying or check your Gemini API quota and billing details." |}.

Definition timeout_error : HTTPException :=
  {| status_code := 504;
     detail := "Analysis request timed out after " ++ Str.of_Z DEFAULT_TIMEOUT
               ++ " seconds. Please try again with a smaller document." |}.

(** The [try] around the agent call and its handlers. [awaited] is what
    [await asyncio.wait_for(asyncio.to_thread(agent.analyze, ...))] does: the
    value [analyze] returns, the exception that escapes it, or the
    [TimeoutError] of [wait_for]. *)
Definition analysis_outcome (awaited : fallible value) : HTTPException + value :=
  match (response <- awaited ;;
         flagged <- quota_in_summary response ;;
         ret (flagged, response)) with
  | inr (true, _) => inl quota_in_summary_error
  | inr (false, response) => inr response
  | inl e =>
      if String.eqb (exc_class e) "TimeoutError" then inl timeout_error
      else
        let error_str := exc_str e in
        if Str.contains "429" error_str || Str.contains "RESOURCE_EXHAUSTED" error_str ||
           Str.contains "quota" (Str.lower error_str)
        then inl quota_in_exception_error
        else inl {| status_code := 500; detail := "Analysis failed: " ++ exc_str e |}
  end.

Section Endpoint.

(** [extract_policy_text] on the temporary copy of the upload. *)
Variable extract_policy_text : string -> fallible string.

(** [str(e)] for an [HTTPException], as Starlette defines it. *)
Variable http_exception_str : HTTPException -> string.

Variable load_demographics : string -> string -> fallible string.

(** The awaited call of [agent.analyze] on the two texts. *)
Variable agent_analyze : string -> string -> fallible value.

Definition unreadable_error : HTTPException :=
  {| status_code := 400;
     detail := "Could not extract meaningful text from PDF. Please ensure the PDF contains readable text." |}.

(** The validation of the policy upload and the extraction of its text:
    [policy_text], or the error raised. An [HTTPException] raised inside the
    [try] is caught by its [except Exception] and raised again, wrapped. *)
Definition policy_text_of (policy_file : UploadFile) : HTTPException + string :=
  match filename policy_file with
  | None => inl {| status_code := 400; detail := "Policy file is required" |}
  | Some name =>
      if String.eqb name "" then
        inl {| status_code := 400; detail := "Policy file is required" |}
      else if negb (validate_file_extension name ALLOWED_POLICY_EXTENSIONS) then
        inl {| status_code := 400;
               detail := "Policy file must be one of: " ++ Str.join ", " ALLOWED_POLICY_EXTENSIONS |}
      else if negb (validate_file_size (Z.of_nat (String.length (content policy_file))) MAX_FILE_SIZE) then
        inl {| status_code := 400;
               detail := "Policy file size exceeds maximum allowed size of 10.0MB" |}
      else
        match extract_policy_text (content policy_file) with
        | inr policy_text =>
            if String.eqb policy_text "" ||
               (String.length (Str.strip policy_text) <? 10)%nat
            then inl {| status_code := 400;
                        detail := "Failed to extract text from PDF: "
                                  ++ http_exception_str unreadable_error |}
            else inr policy_text
        | inl e =>
            inl {| status_code := 400;
                   detail := "Failed to extract text from PDF: " ++ exc_str e |}
        end
  end.

(** [analyze_policy]: the envelope it returns or the [HTTPException] it
    raises. The temporary files are written and removed without failure, and
    the agent is the one created at startup. *)
Definition analyze_policy (policy_file : UploadFile) (demographic_file : option UploadFile)
  : HTTPException + value :=
  match policy_text_of policy_file with
  | inl e => inl e
  | inr policy_text =>
      match demographics_text_of load_demographics demographic_file with
      | inl e => inl e
      | inr demographics_text =>
          match analysis_outcome (agent_analyze policy_text demographics_text) with
          | inl e => inl e
          | inr response =>
              match response with
              | VDict d => inr (envelope d demographic_file demographics_text)
              | _ => inl {| status_code := 500; detail := "Invalid response format from agent" |}
              end
          end
      end
  end.

End Endpoint.

End Main.

(** ** The vocabulary of the properties *)

Module Spec.

(** The value a dict holds under a key. *)
Definition field (k : string) (r : value) : option value :=
  match r with
  | VDict d => Py.lookup k d
  | _ => None
  end.

(** The entries of [affected_groups]: what a loop over it visits. *)
Definition groups_of (r : value) : list value :=
  match field "affected_groups" r with
  | Some held =>
      match Py.iter held with
      | inr items => items
      | inl _ => []
      end
  | None => []
  end.

(** The risk level of a group is one of [RISK_LEVELS]. *)
Definition enum_risk (group : value) : Prop :=
  exists level, field "risk_level" group = Some (VStr level) /\ In level Config.RISK_LEVELS.

(** One of the results [analyze] synthesizes on a failure: a single group
    whose risk level is the text [Unknown]. *)
Definition degraded (r : value) : Prop :=
  exists name, field "affected_groups" r = Some (VList [Agent.degraded_group name]).

Definition has_required_keys (r : value) : Prop :=
  exists d, r = VDict d /\
    Py.lookup "affected_groups" d <> None /\
    Py.lookup "mitigations" d <> None /\
    Py.lookup "reasoning_summary" d <> None.

Definition same_required_fields (a b : value) : Prop :=
  field "affected_groups" a = field "affected_groups" b /\
  field "mitigations" a = field "mitigations" b /\
  field "reasoning_summary" a = field "reasoning_summary" b.

(** A region that the alias table leaves alone: it is no city of the table,
    or the table maps it to itself. *)
Definition settled_region (region : value) : bool :=
  match region with
  | VStr s =>
      match Agent.table_get s Agent.cities_to_states with
      | Some state => String.eqb state s
      | None => true
      end
  | _ => true
  end.

Definition settled_group (group : value) : bool :=
  match field "regions" group with
  | Some (VList regions) => forallb settled_region regions
  | _ => true
  end.

Definition settled (r : value) : bool := forallb settled_group (groups_of r).

(** The fields of the schema have the types of the schema where they are
    present: a list of dict groups whose risk level is a string, a list of
    mitigations, a string summary. *)
Definition typed_group (group : value) : bool :=
  match group with
  | VDict g =>
      match Py.lookup "risk_level" g with
      | Some (VStr _) | None => true
      | Some _ => false
      end
  | _ => false
  end.

Definition schema_typed (r : value) : bool :=
  match r with
  | VDict d =>
      match Py.lookup "affected_groups" d with
      | None => true
      | Some (VList groups) => forallb typed_group groups
      | Some _ => false
      end &&
      match Py.lookup "mitigations" d with
      | None | Some (VList _) => true
      | Some _ => false
      end &&
      match Py.lookup "reasoning_summary" d with
      | None | Some (VStr _) => true
      | Some _ => false
      end
  | _ => false
  end.

(** The summary the specification describes: the words of the text joined by
    single blanks, cut to the first 35 words when there are more, and the cut
    text closed by a period. *)
Definition summary_of (text : string) : string :=
  let words := Str.split text in
  if (List.length words <=? Config.REASONING_SUMMARY_MAX_WORDS)%nat then Str.join " " words
  else
    let cut := Str.join " " (firstn Config.REASONING_SUMMARY_MAX_WORDS words) in
    if Str.endswith "." cut then cut else cut ++ ".".


(** The message or the representation of the error has a quota marker. *)
Definition quota_marked (e : exception) : Prop :=
  Str.contains "429" (exc_str e) = true \/ Str.contains "429" (exc_repr e) = true \/
  Str.contains "resource_exhausted" (Str.lower (exc_str e)) = true \/
  Str.contains "resource_exhausted" (Str.lower (exc_repr e)) = true \/
  Str.contains "quota" (Str.lower (exc_str e)) = true \/
  Str.contains "quota" (Str.lower (exc_repr e)) = true.

(** The error text holds no match of the retry pattern. *)
Definition no_retry_delay (e : exception) : Prop :=
  Agent.search_retry (Str.lower (exc_str e ++ " " ++ exc_repr e)) = None.

(** What is known of [json.loads]: the message of a decode error, as
    [analyze] wraps it, holds no match of the retry pattern. *)
Definition plain_decode_errors (json_loads : string -> string + value) : Prop :=
  forall text message,
    json_loads text = inl message ->
    no_retry_delay (Py.ValueError ("Invalid JSON response from model: " ++ message)).

(** The text both quota handlers search for the retry delay. *)
Definition error_text (e : exception) : string :=
  Str.lower (exc_str e) ++ " " ++ Str.lower (exc_repr e).

End Spec.

(** ** The passes, step by step

    Each pass of the pipeline on a dict, cut into the steps the proofs
    follow. *)

Module Steps.

(** What [limit] leaves under the key: the held object, or its slice. *)
Definition capped (cap : nat) (held : value) : fallible value :=
  n <- Py.len held ;;
  if (cap <? n)%nat then Py.slice_to cap held else ret held.

Definition held_or_empty (k : string) (d : list (string * value)) : value :=
  match Py.lookup k d with
  | Some held => held
  | None => VList []
  end.

(** What [_apply_anchoring_logic] stores under [reasoning_summary]. *)
Definition summary_field (held : option value) : fallible value :=
  match held with
  | None => ret (VStr "Analysis completed.")
  | Some v => summary <- Py.strip v ;; ret (VStr (Agent.anchor_summary summary))
  end.

(** The entries of a group after the loop body of [_apply_anchoring_logic]. *)
Definition anchored (g : list (string * value)) : list (string * value) :=
  let unnamed := match Py.lookup "group" g with
                 | Some name => negb (Py.truthy name)
                 | None => true
                 end in
  let g := if unnamed then Py.store "group" (VStr "Unspecified group") g else g in
  let g := match Py.lookup "risk_level" g with
           | Some _ => g
           | None => Py.store "risk_level" (VStr "Medium") g
           end in
  let g := match Py.lookup "regions" g with
           | Some _ => g
           | None => Py.store "regions" (VList []) g
           end in
  match Py.lookup "regions" g with
  | Some (VList _) | None => g
  | Some regions =>
      Py.store "regions" (if Py.truthy regions then VList [regions] else VList []) g
  end.

(** The entries of a group after the loop body of [_normalize_regions]. *)
Definition regioned (g : list (string * value)) : list (string * value) :=
  match Py.lookup "regions" g with
  | Some (VList l) =>
      Py.store "regions" (VList (map VStr (Agent.dedupe (map Agent.canonical_region l)))) g
  | _ => g
  end.

(** The three loop bodies on one group, in the order of the pipeline. *)
Definition normalize_group (group : value) : fallible value :=
  group <- Agent.rules_group group ;;
  group <- Agent.anchor_group group ;;
  Agent.regions_group group.

(** The whole pipeline on a dict, as the steps it goes through. *)
Definition pipeline_steps (d : list (string * value)) : fallible value :=
  held0 <- match Py.lookup "affected_groups" d with
           | Some held => Py.for_each Agent.rules_group held
           | None => ret (VList [])
           end ;;
  held1 <- capped Config.MAX_AFFECTED_GROUPS held0 ;;
  held2 <- Py.for_each Agent.anchor_group held1 ;;
  mitigations <- capped Config.MAX_MITIGATIONS (held_or_empty "mitigations" d) ;;
  summary <- summary_field (Py.lookup "reasoning_summary" d) ;;
  held3 <- Py.for_each Agent.regions_group held2 ;;
  ret (VDict (Py.store "affected_groups" held3
                (Py.store "reasoning_summary" summary
                   (Py.store "mitigations" mitigations
                      (Py.store "affected_groups" held2 d))))).

End Steps.

Module Order.

(** The first occurrences of the items of a list, in their order: the
    de-duplication the specification describes. *)
Fixpoint first_occurrences (l : list string) : list string :=
  match l with
  | [] => []
  | x :: l' => x :: filter (fun y => negb (String.eqb y x)) (first_occurrences l')
  end.

End Order.

(** ** The shapes of the results *)

Module Shape.

Definition required_keys : list string := ["affected_groups"; "mitigations"; "reasoning_summary"].
Definition group_keys : list string := ["group"; "risk_level"; "regions"].

(** A group as the pipeline leaves it: a dict with a true name, one of the
    three risk levels and a list of distinct region names. *)
Definition normalized_group (group : value) : Prop :=
  exists g name level regions,
    group = VDict g /\
    Py.lookup "group" g = Some name /\ Py.truthy name = true /\
    Py.lookup "risk_level" g = Some (VStr level) /\ In level Config.RISK_LEVELS /\
    Py.lookup "regions" g = Some (VList (map VStr regions)) /\ NoDup regions.

(** A group of the response envelope: the three keys and no other, with a
    list under [regions]. *)
Definition envelope_group (group : value) : Prop :=
  exists name level regions,
    group = VDict [("group", name); ("risk_level", level); ("regions", VList regions)].

(** Two groups hold the same name, risk level and regions. *)
Definition same_group_fields (g g' : value) : Prop :=
  Spec.field "group" g' = Spec.field "group" g /\
  Spec.field "risk_level" g' = Spec.field "risk_level" g /\
  Spec.field "regions" g' = Spec.field "regions" g.

End Shape.

(** ** Sample inputs *)

Module Samples.

Definition summary_input : list (string * value) :=
  [("reasoning_summary", VStr (" Fuel  prices" ++ Agent.newline ++ "rise "))].

Definition summary_output : value :=
  Eval vm_compute in
    match Agent._post_process_normalize (VDict summary_input) with
    | inr r => r
    | inl _ => VNone
    end.

Definition group_input : list value :=
  [VDict [("group", VStr "Commuters"); ("risk_level", VStr "Low ");
          ("regions", VList [VStr "Bihar"; VStr "bihar"; VStr " Mumbai"; VStr "Bihar"])]].

Definition groups_input : list (string * value) :=
  [("affected_groups", VList group_input)].

Definition groups_output : value :=
  Eval vm_compute in
    match Agent._post_process_normalize (VDict groups_input) with
    | inr r => r
    | inl _ => VNone
    end.

Definition groups_output_entries : list (string * value) :=
  Eval vm_compute in
    match groups_output with
    | VDict d => d
    | _ => []
    end.

(** A city of the alias table in another case. *)
Definition miscased_input : list (string * value) :=
  [("affected_groups", VList [VDict [("regions", VList [VStr "mumbai"])]])].

Definition miscased_once : value :=
  Eval vm_compute in
    match Agent._post_process_normalize (VDict miscased_input) with
    | inr r => r
    | inl _ => VNone
    end.

Definition miscased_twice : value :=
  Eval vm_compute in
    match Agent._post_process_normalize miscased_once with
    | inr r => r
    | inl _ => VNone
    end.

(** Four groups and six mitigations, and a key of its own. *)
Definition crowded_input : list (string * value) :=
  [("affected_groups",
    VList [VDict [("group", VStr "A"); ("weight", VInt 1)]; VDict [("group", VStr "B")];
           VDict [("group", VStr "C")]; VDict [("group", VStr "D")]]);
   ("mitigations", VList [VStr "1"; VStr "2"; VStr "3"; VStr "4"; VStr "5"; VStr "6"]);
   ("model", VStr "gemini")].

Definition crowded_output : value :=
  Eval vm_compute in
    match Agent._post_process_normalize (VDict crowded_input) with
    | inr r => r
    | inl _ => VNone
    end.

(** A quota error of the gateway that names its retry delay. *)
Definition quota_error : exception :=
  {| exc_class := "ClientError";
     exc_str := "429 RESOURCE_EXHAUSTED. Please retry in 12.5s.";
     exc_repr := "ClientError('429 RESOURCE_EXHAUSTED. Please retry in 12.5s.')" |}.

(** A quota error whose delay is just below one second. *)
Definition rounding_error : exception :=
  {| exc_class := "ClientError";
     exc_str := "quota exceeded, retry in 0.99999999999999999999s";
     exc_repr := "ClientError('quota exceeded, retry in 0.99999999999999999999s')" |}.

(** A quota error whose delay, a one and 400 zeros, is too large for a float. *)
Definition overflow_error : exception :=
  raised "ClientError"
    ("quota exceeded, retry in 1" ++ String.concat "" (repeat "0000000000" 40) ++ "s").

(** An error of the gateway with a quota marker and no delay. *)
Definition bare_quota_error : exception :=
  {| exc_class := "ClientError"; exc_str := "quota"; exc_repr := "ClientError('quota')" |}.

(** The result of [analyze] when the model answers with an empty object. *)
Definition empty_object_result : value :=
  VDict [("affected_groups", VList []); ("mitigations", VList []);
         ("reasoning_summary", VStr "Analysis completed.")].

(** A table with an identifier and a name, and no indicator. *)
Definition plain_frame : Tools.DataFrame unit :=
  {| Tools.columns := [ {| Tools.label := "id"; Tools.dtype := "int64"; Tools.data := tt |};
                        {| Tools.label := "name"; Tools.dtype := "object"; Tools.data := tt |} ];
     Tools.rows := 2 |}.

Definition plain_summary : string :=
  Tools.generate_demographic_summary
    (fun _ => 0%Q) (fun _ => 0%Q) (fun _ => 0%Q) (fun _ => [])
    (fun _ => "") (fun _ => "") (fun _ => "") plain_frame.

(** A table whose one column is a numeric unemployment rate. *)
Definition unemployment_frame : Tools.DataFrame unit :=
  {| Tools.columns := [ {| Tools.label := "Unemployment_Rate"; Tools.dtype := "float64";
                           Tools.data := tt |} ];
     Tools.rows := 3 |}.

(** An uploaded policy document. *)
Definition policy_upload : Main.UploadFile :=
  {| Main.filename := Some "Policy.PDF"; Main.content := "%PDF-1.4" |}.

(** A loader that knows one document and rejects every other text. *)
Definition sample_loads (text : string) : string + value :=
  if String.eqb text "{}" then inr (VDict [])
  else inl "Expecting value: line 1 column 1 (char 0)".

End Samples.

(** ** Notions of the proofs *)

(** The string is empty or begins with a character that is not white space. *)
Definition starts_clean (s : string) : bool :=
  match s with
  | EmptyString => true
  | String c _ => negb (Str.is_space c)
  end.

(** One blank when the string begins with white space, nothing otherwise: what a run of white space at the head of a string collapses to. *)
Definition blank_prefix (s : string) : string :=
  match s with
  | String d _ => if Str.is_space d then " " else ""
  | EmptyString => ""
  end.

(** Every character of the string satisfies the test. *)
Fixpoint every (P : ascii -> bool) (s : string) : bool :=
  match s with
  | EmptyString => true
  | String c s' => P c && every P s'
  end.

(** The value [_apply_anchoring_logic] leaves under the key group, from the value held on entry. *)
Definition anchored_name (held : option value) : value :=
  match held with
  | Some name => if Py.truthy name then name else VStr "Unspecified group"
  | None => VStr "Unspecified group"
  end.

(** The value [_apply_anchoring_logic] leaves under the key risk_level, from the value held on entry. *)
Definition anchored_risk (held : option value) : value :=
  match held with
  | Some level => level
  | None => VStr "Medium"
  end.

(** The value [_apply_anchoring_logic] leaves under the key regions, from the value held on entry. *)
Definition anchored_regions (held : option value) : value :=
  match held with
  | None => VList []
  | Some (VList l) => VList l
  | Some regions => if Py.truthy regions then VList [regions] else VList []
  end.

(** The value [_normalize_regions] leaves under the key regions, from the value held on entry. *)
Definition regioned_regions (held : option value) : option value :=
  match held with
  | Some (VList l) => Some (VList (map VStr (Agent.dedupe (map Agent.canonical_region l))))
  | other => other
  end.

(** The value is a dict. *)
Definition is_dict (v : value) : Prop := exists g, v = VDict g.

(** A non-empty string without white space, as [str.split] produces them. *)
Definition word (w : string) : Prop :=
  w <> "" /\ every (fun c => negb (Str.is_space c)) w = true.

(** The keys the four passes read or write. *)
Definition pipeline_keys : list string :=
  ["affected_groups"; "mitigations"; "reasoning_summary"; "group"; "risk_level"; "regions"].

Unset Implicit Arguments.

(** * Facts about strings *)

Ltac each_char c := destruct c as [[] [] [] [] [] [] [] []]; try reflexivity; try discriminate.

Lemma string_app_assoc (a b c : string) : (a ++ b) ++ c = a ++ (b ++ c).
Proof. induction a as [|x a IH]; simpl; [reflexivity | now rewrite IH]. Qed.

Lemma string_app_nil_r (a : string) : a ++ "" = a.
Proof. induction a as [|x a IH]; simpl; [reflexivity | now rewrite IH]. Qed.

Lemma string_length_app (a b : string) :
  String.length (a ++ b) = (String.length a + String.length b)%nat.
Proof. induction a as [|x a IH]; simpl; [reflexivity | now rewrite IH]. Qed.

Lemma lower_app (a b : string) : Str.lower (a ++ b) = Str.lower a ++ Str.lower b.
Proof. induction a as [|x a IH]; simpl; [reflexivity | now rewrite IH]. Qed.

Lemma prefix_nil (s : string) : prefix "" s = true.
Proof. now destruct s. Qed.

Lemma prefix_app (p a b : string) : prefix p a = true -> prefix p (a ++ b) = true.
Proof.
  revert a; induction p as [|x p IH]; intros a H; [apply prefix_nil|].
  destruct a as [|y a]; simpl in *; [discriminate|].
  destruct (ascii_dec x y); [auto | discriminate].
Qed.

Lemma contains_app_l (p a b : string) :
  Str.contains p a = true -> Str.contains p (a ++ b) = true.
Proof.
  induction a as [|x a IH]; simpl; intros H.
  - rewrite orb_false_r in H. destruct p; [|discriminate].
    destruct b; reflexivity.
  - apply orb_true_iff in H. apply orb_true_iff. destruct H as [H|H].
    + left. apply (prefix_app p (String x a) b H).
    + right. auto.
Qed.

Lemma contains_app_r (p a b : string) :
  Str.contains p b = true -> Str.contains p (a ++ b) = true.
Proof.
  induction a as [|x a IH]; simpl; intros H; [exact H|].
  apply orb_true_iff. right. auto.
Qed.

(** ** Case changes keep blanks and casing *)

Lemma is_space_upper c : Str.is_space (Str.upper_char c) = Str.is_space c.
Proof. each_char c. Qed.
Lemma is_space_lower c : Str.is_space (Str.lower_char c) = Str.is_space c.
Proof. each_char c. Qed.
Lemma is_cased_upper c : Str.is_cased (Str.upper_char c) = Str.is_cased c.
Proof. each_char c. Qed.
Lemma is_cased_lower c : Str.is_cased (Str.lower_char c) = Str.is_cased c.
Proof. each_char c. Qed.
Lemma upper_upper c : Str.upper_char (Str.upper_char c) = Str.upper_char c.
Proof. each_char c. Qed.
Lemma lower_lower c : Str.lower_char (Str.lower_char c) = Str.lower_char c.
Proof. each_char c. Qed.

Lemma title_from_idempotent (s : string) :
  forall b, Str.title_from b (Str.title_from b s) = Str.title_from b s.
Proof.
  induction s as [|c s IH]; intros b; simpl; [reflexivity|].
  destruct b.
  - rewrite lower_lower, is_cased_lower, IH. reflexivity.
  - rewrite upper_upper, is_cased_upper, IH. reflexivity.
Qed.

Lemma title_idempotent (s : string) : Str.title (Str.title s) = Str.title s.
Proof. apply title_from_idempotent. Qed.

(** ** Stripping *)

Lemma lstrip_clean (s : string) : starts_clean s = true -> Str.lstrip s = s.
Proof. destruct s as [|c s]; simpl; [reflexivity|]. now destruct (Str.is_space c). Qed.

Lemma starts_clean_lstrip (s : string) : starts_clean (Str.lstrip s) = true.
Proof.
  induction s as [|c s IH]; simpl; [reflexivity|].
  destruct (Str.is_space c) eqn:E; [exact IH|]. simpl. now rewrite E.
Qed.

Lemma starts_clean_rstrip (s : string) :
  starts_clean s = true -> starts_clean (Str.rstrip s) = true.
Proof.
  destruct s as [|c s]; simpl; [reflexivity|]. intros H.
  destruct (Str.rstrip s); simpl.
  - destruct (Str.is_space c) eqn:E; [reflexivity|]. simpl. now rewrite E.
  - exact H.
Qed.

Lemma rstrip_idempotent (s : string) : Str.rstrip (Str.rstrip s) = Str.rstrip s.
Proof.
  induction s as [|c s IH]; simpl; [reflexivity|].
  destruct (Str.rstrip s) as [|d r] eqn:E.
  - destruct (Str.is_space c) eqn:Ec; simpl; [reflexivity|]. now rewrite Ec.
  - simpl in *. rewrite IH. reflexivity.
Qed.

Lemma strip_idempotent (s : string) : Str.strip (Str.strip s) = Str.strip s.
Proof.
  unfold Str.strip.
  rewrite (lstrip_clean (Str.rstrip (Str.lstrip s))).
  - apply rstrip_idempotent.
  - apply starts_clean_rstrip, starts_clean_lstrip.
Qed.

Lemma rstrip_title_from (s : string) :
  forall b, Str.rstrip (Str.title_from b s) = Str.title_from b (Str.rstrip s).
Proof.
  induction s as [|c s IH]; intros b; simpl; [reflexivity|].
  rewrite IH.
  destruct (Str.rstrip s) as [|d r] eqn:E; simpl.
  - destruct b; rewrite ?is_space_lower, ?is_space_upper;
      destruct (Str.is_space c); reflexivity.
  - reflexivity.
Qed.

Lemma starts_clean_title_from (s : string) b :
  starts_clean (Str.title_from b s) = starts_clean s.
Proof.
  destruct s as [|c s]; simpl; [reflexivity|].
  destruct b; now rewrite ?is_space_lower, ?is_space_upper.
Qed.

Lemma strip_title (s : string) :
  Str.strip s = s -> Str.strip (Str.title s) = Str.title s.
Proof.
  intros H. unfold Str.strip, Str.title in *.
  assert (C : starts_clean s = true).
  { rewrite <- H. apply starts_clean_rstrip, starts_clean_lstrip. }
  rewrite lstrip_clean by (now rewrite starts_clean_title_from).
  rewrite lstrip_clean in H by exact C.
  rewrite rstrip_title_from, H. reflexivity.
Qed.

(** ** Words, blanks and the summary *)

Lemma join_cons_char sep c w ws :
  Str.join sep (String c w :: ws) = String c (Str.join sep (w :: ws)).
Proof. destruct ws; reflexivity. Qed.

Lemma join_two sep w w' ws :
  Str.join sep (w :: w' :: ws) = w ++ sep ++ Str.join sep (w' :: ws).
Proof. reflexivity. Qed.

Lemma rstrip_empty_split (s : string) : Str.rstrip s = "" -> Str.split s = [].
Proof.
  induction s as [|c s IH]; simpl; [reflexivity|].
  destruct (Str.rstrip s) eqn:E; [|discriminate].
  destruct (Str.is_space c); [auto | discriminate].
Qed.

Lemma rstrip_head (s : string) d r : Str.rstrip s = String d r -> exists s', s = String d s'.
Proof.
  destruct s as [|c s]; simpl; [discriminate|].
  destruct (Str.rstrip s).
  - destruct (Str.is_space c); [discriminate|]. intros H; inversion H; eauto.
  - intros H; inversion H; eauto.
Qed.

Lemma rstrip_full_split (s : string) d r : Str.rstrip s = String d r -> Str.split s <> [].
Proof.
  revert d r; induction s as [|c s IH]; simpl; [discriminate|]. intros d r.
  destruct (Str.rstrip s) as [|d' r'] eqn:E.
  - destruct (Str.is_space c); [discriminate|]. intros _.
    destruct s as [|c' s]; [discriminate|].
    destruct (Str.is_space c'); [discriminate|].
    destruct (Str.split (String c' s)); discriminate.
  - intros _. specialize (IH _ _ eq_refl).
    destruct (Str.is_space c); [exact IH|].
    destruct s as [|c' s]; [discriminate|].
    destruct (Str.is_space c'); [discriminate|].
    destruct (Str.split (String c' s)); discriminate.
Qed.

Lemma sub_runs_two cls c d r :
  Str.sub_runs cls (String c (String d r))
  = if cls c then
      if cls d then Str.sub_runs cls (String d r)
      else String " " (Str.sub_runs cls (String d r))
    else String c (Str.sub_runs cls (String d r)).
Proof. reflexivity. Qed.

Lemma split_two c d s :
  Str.split (String c (String d s))
  = if Str.is_space c then Str.split (String d s)
    else if Str.is_space d then String c "" :: Str.split (String d s)
    else match Str.split (String d s) with
         | w :: ws => String c w :: ws
         | [] => [String c ""]
         end.
Proof. reflexivity. Qed.

Lemma sub_runs_rstrip (s : string) :
  Str.sub_runs Str.is_space (Str.rstrip s)
  = blank_prefix (Str.rstrip s) ++ Str.join " " (Str.split s).
Proof.
  induction s as [|c s IH]; [reflexivity|].
  cbn [Str.rstrip].
  destruct (Str.rstrip s) as [|d r] eqn:E.
  - pose proof (rstrip_empty_split s E) as Hs.
    destruct (Str.is_space c) eqn:Ec.
    + simpl. rewrite Ec, Hs. reflexivity.
    + cbn [Str.sub_runs blank_prefix Str.split]. rewrite Ec. simpl.
      destruct s as [|c' s']; [reflexivity|].
      destruct (Str.is_space c'); rewrite Hs; reflexivity.
  - destruct (rstrip_head s _ _ E) as [s' ->].
    pose proof (rstrip_full_split _ _ _ E) as Hne.
    rewrite sub_runs_two, split_two, IH.
    unfold blank_prefix.
    destruct (Str.is_space c) eqn:Ec.
    + destruct (Str.is_space d) eqn:Ed; reflexivity.
    + destruct (Str.split (String d s')) as [|w ws] eqn:Ew; [congruence|].
      destruct (Str.is_space d) eqn:Ed.
      * reflexivity.
      * rewrite join_cons_char. reflexivity.
Qed.

Lemma split_lstrip (s : string) : Str.split (Str.lstrip s) = Str.split s.
Proof.
  induction s as [|c s IH]; [reflexivity|].
  cbn [Str.lstrip]. destruct (Str.is_space c) eqn:Ec; [|reflexivity].
  rewrite IH. simpl. now rewrite Ec.
Qed.

Lemma blank_prefix_clean (s : string) : starts_clean s = true -> blank_prefix s = "".
Proof. destruct s as [|c s]; simpl; [reflexivity|]. now destruct (Str.is_space c). Qed.

(** Stripping and collapsing the blanks leaves the words of the text,
    joined by single blanks. *)
Lemma collapse_strip (s : string) :
  Str.sub_runs Str.is_space (Str.strip s) = Str.join " " (Str.split s).
Proof.
  unfold Str.strip. rewrite sub_runs_rstrip, split_lstrip.
  rewrite blank_prefix_clean; [reflexivity|].
  apply starts_clean_rstrip, starts_clean_lstrip.
Qed.

Lemma sub_runs_none cls (s : string) :
  every (fun c => negb (cls c)) s = true -> Str.sub_runs cls s = s.
Proof.
  induction s as [|c s IH]; simpl; [reflexivity|]. intros H.
  apply andb_true_iff in H. destruct H as [Hc Hs].
  destruct (cls c); [discriminate|]. now rewrite IH.
Qed.

Lemma newline_is_space c : Str.is_newline c = true -> Str.is_space c = true.
Proof. each_char c. Qed.

Lemma sub_runs_no_newline (s : string) :
  every (fun c => negb (Str.is_newline c)) (Str.sub_runs Str.is_space s) = true.
Proof.
  induction s as [|c s IH]; [reflexivity|].
  cbn [Str.sub_runs]. destruct (Str.is_space c) eqn:Ec.
  - destruct s as [|c' s']; [reflexivity|].
    destruct (Str.is_space c'); [exact IH|]. simpl. simpl in IH. exact IH.
  - cbn [every]. rewrite IH, andb_true_r.
    destruct (Str.is_newline c) eqn:En; [|reflexivity].
    apply newline_is_space in En. congruence.
Qed.

Lemma sub_runs_head cls (s : string) :
  forall b a t, Str.sub_runs cls (String b s) = String a t ->
                a = if cls b then " "%char else b.
Proof.
  induction s as [|c s IH]; intros b a t.
  - simpl. destruct (cls b); intros H; now inversion H.
  - rewrite sub_runs_two. destruct (cls b) eqn:Eb.
    + destruct (cls c) eqn:Ec.
      * intros H. apply IH in H. now rewrite Ec in H.
      * intros H; now inversion H.
    + intros H; now inversion H.
Qed.

Lemma sub_runs_full cls b (s : string) : Str.sub_runs cls (String b s) <> "".
Proof.
  revert b; induction s as [|c s IH]; intros b.
  - simpl. destruct (cls b); discriminate.
  - rewrite sub_runs_two. destruct (cls b); [|discriminate].
    destruct (cls c) eqn:Ec; [apply IH | discriminate].
Qed.

Lemma split_sub_runs (s : string) :
  Str.split (Str.sub_runs Str.is_space s) = Str.split s.
Proof.
  induction s as [|c s IH]; [reflexivity|].
  destruct s as [|c' s'].
  - simpl. destruct (Str.is_space c) eqn:Ec; simpl; [reflexivity | now rewrite Ec].
  - rewrite sub_runs_two, split_two.
    destruct (Str.sub_runs Str.is_space (String c' s')) as [|a t] eqn:Et;
      [now apply sub_runs_full in Et|].
    pose proof (@sub_runs_head _ _ _ _ _ Et) as Hh.
    destruct (Str.is_space c) eqn:Ec.
    + destruct (Str.is_space c') eqn:Ec'; [exact IH|].
      rewrite <- IH. reflexivity.
    + rewrite split_two, Ec, IH.
      destruct (Str.is_space c') eqn:Ec'; subst a; [reflexivity|].
      rewrite Ec'. reflexivity.
Qed.

Lemma split_rstrip (s : string) : Str.split (Str.rstrip s) = Str.split s.
Proof.
  induction s as [|c s IH]; [reflexivity|].
  cbn [Str.rstrip].
  destruct (Str.rstrip s) as [|d r] eqn:E.
  - pose proof (rstrip_empty_split s E) as Hs.
    destruct (Str.is_space c) eqn:Ec.
    + simpl. now rewrite Ec.
    + simpl. rewrite Ec.
      destruct s as [|c' s']; [reflexivity|].
      destruct (Str.is_space c'); rewrite Hs; reflexivity.
  - destruct (rstrip_head s _ _ E) as [s' ->].
    rewrite !split_two, IH. reflexivity.
Qed.

Lemma split_strip (s : string) : Str.split (Str.strip s) = Str.split s.
Proof. unfold Str.strip. now rewrite split_rstrip, split_lstrip. Qed.

(** [anchor_summary], on the stripped text, computes the summary of the
    specification. *)
Lemma anchor_summary_spec (text : string) :
  Agent.anchor_summary (Str.strip text) = Spec.summary_of text.
Proof.
  unfold Agent.anchor_summary, Spec.summary_of.
  rewrite (sub_runs_none Str.is_newline) by apply sub_runs_no_newline.
  rewrite split_sub_runs, split_strip, collapse_strip.
  destruct (Nat.ltb_spec Config.REASONING_SUMMARY_MAX_WORDS (List.length (Str.split text)));
  destruct (Nat.leb_spec (List.length (Str.split text)) Config.REASONING_SUMMARY_MAX_WORDS);
    try lia; [|reflexivity].
  destruct (Str.endswith "." _); reflexivity.
Qed.

(** * Dicts, loops and the passes *)

Lemma lookup_store_same k v d : Py.lookup k (Py.store k v d) = Some v.
Proof.
  induction d as [|[k' v'] d IH]; simpl.
  - now rewrite String.eqb_refl.
  - destruct (String.eqb k k') eqn:E; simpl; rewrite E; [reflexivity | exact IH].
Qed.

Lemma lookup_store_other k k' v d :
  String.eqb k k' = false -> Py.lookup k (Py.store k' v d) = Py.lookup k d.
Proof.
  intros H. induction d as [|[k0 v0] d IH]; simpl.
  - now rewrite H.
  - destruct (String.eqb k' k0) eqn:E; simpl.
    + apply String.eqb_eq in E; subst k0. now rewrite H.
    + now rewrite IH.
Qed.

Lemma store_same k v d : Py.lookup k d = Some v -> Py.store k v d = d.
Proof.
  induction d as [|[k' v'] d IH]; simpl; [discriminate|].
  destruct (String.eqb k k') eqn:E.
  - intros H; now inversion H.
  - intros H. now rewrite IH.
Qed.

Lemma store_store k v v' d : Py.store k v (Py.store k v' d) = Py.store k v d.
Proof.
  induction d as [|[k' v0] d IH]; simpl.
  - now rewrite String.eqb_refl.
  - destruct (String.eqb k k') eqn:E; simpl; rewrite E; [reflexivity | now rewrite IH].
Qed.

Ltac dict_simpl :=
  repeat (rewrite lookup_store_same
          || rewrite store_store
          || (rewrite lookup_store_other by reflexivity)).

Ltac dict_simpl_in H :=
  repeat (rewrite lookup_store_same in H
          || rewrite store_store in H
          || (rewrite lookup_store_other in H by reflexivity)).

(** ** [mapM] and the loops *)

Lemma mapM_inr {A B} (f : A -> fallible B) l l' :
  mapM f l = inr l' -> Forall2 (fun a b => f a = inr b) l l'.
Proof.
  revert l'; induction l as [|a l IH]; simpl; intros l' H.
  - inversion H. constructor.
  - destruct (f a) eqn:Ea; simpl in H; [discriminate|].
    destruct (mapM f l) eqn:El; simpl in H; [discriminate|].
    inversion H. constructor; auto.
Qed.

Lemma Forall2_mapM {A B} (f : A -> fallible B) l l' :
  Forall2 (fun a b => f a = inr b) l l' -> mapM f l = inr l'.
Proof.
  induction 1 as [|a b l l' Hab _ IH]; simpl; [reflexivity|].
  now rewrite Hab, IH.
Qed.

Lemma mapM_fixed {A} (f : A -> fallible A) l :
  Forall (fun a => f a = inr a) l -> mapM f l = inr l.
Proof.
  induction 1 as [|a l Ha _ IH]; simpl; [reflexivity|]. now rewrite Ha, IH.
Qed.

Lemma mapM_inl {A B} (f : A -> fallible B) l e :
  mapM f l = inl e -> exists a, In a l /\ f a = inl e.
Proof.
  induction l as [|a l IH]; simpl; intros H; [discriminate|].
  destruct (f a) eqn:Ea; simpl in H.
  - inversion H; subst. exists a; auto.
  - destruct (mapM f l) eqn:El; simpl in H; [|discriminate].
    inversion H; subst. destruct (IH eq_refl) as [x [Hx Hf]]. exists x; auto.
Qed.

Lemma mapM_total {A B} (f : A -> fallible B) l :
  Forall (fun a => exists b, f a = inr b) l -> exists l', mapM f l = inr l'.
Proof.
  induction 1 as [|a l [b Hb] _ [l' IH]]; simpl; [eauto|].
  rewrite Hb, IH. simpl. eauto.
Qed.

Lemma Forall2_firstn {A B} (R : A -> B -> Prop) n l l' :
  Forall2 R l l' -> Forall2 R (firstn n l) (firstn n l').
Proof.
  intros H; revert n; induction H; intros [|n]; simpl; constructor; auto.
Qed.

Lemma Forall2_compose {A B C} (R : A -> B -> Prop) (S : B -> C -> Prop) l1 l2 l3 :
  Forall2 R l1 l2 -> Forall2 S l2 l3 -> Forall2 (fun a c => exists b, R a b /\ S b c) l1 l3.
Proof.
  intros H; revert l3; induction H; intros l3 H3; inversion H3; subst; constructor; eauto.
Qed.

(** ** The loop bodies on a dict *)

Lemma rules_group_dict g :
  Agent.rules_group (VDict g)
  = match Py.lookup "risk_level" g with
    | None => inr (VDict g)
    | Some level =>
        risk <- Py.strip level ;;
        ret (VDict (Py.store "risk_level" (VStr (Agent.risk_of (Str.lower risk))) g))
    end.
Proof.
  unfold Agent.rules_group. simpl.
  destruct (Py.lookup "risk_level" g); reflexivity.
Qed.

Lemma bind_inr {A B} (a : A) (k : A -> fallible B) : bind (inr a) k = k a.
Proof. reflexivity. Qed.

Lemma bind_ret {A B} (a : A) (k : A -> fallible B) : bind (ret a) k = k a.
Proof. reflexivity. Qed.

Ltac run := repeat (rewrite bind_inr || rewrite bind_ret).

Lemma contains_dict k g :
  Py.contains k (VDict g) = inr (match Py.lookup k g with Some _ => true | None => false end).
Proof. reflexivity. Qed.

Lemma bind_eq {A B} (m : fallible A) (a : A) (k : A -> fallible B) :
  m = inr a -> bind m k = k a.
Proof. intros ->. reflexivity. Qed.

Lemma anchor_group_dict g : Agent.anchor_group (VDict g) = inr (VDict (Steps.anchored g)).
Proof.
  unfold Agent.anchor_group, Steps.anchored, ret.
  rewrite contains_dict, bind_inr.
  set (unnamed := match Py.lookup "group" g with
                  | Some name => negb (Py.truthy name)
                  | None => true
                  end).
  rewrite (@bind_eq _ _ _ unnamed)
    by (unfold unnamed; simpl; destruct (Py.lookup "group" g); reflexivity).
  set (g1 := if unnamed then Py.store "group" (VStr "Unspecified group") g else g).
  rewrite (@bind_eq _ _ _ (VDict g1)) by (unfold g1; destruct unnamed; reflexivity).
  rewrite contains_dict, bind_inr.
  set (g2 := match Py.lookup "risk_level" g1 with
             | Some _ => g1
             | None => Py.store "risk_level" (VStr "Medium") g1
             end).
  rewrite (@bind_eq _ _ _ (VDict g2))
    by (unfold g2; destruct (Py.lookup "risk_level" g1); reflexivity).
  rewrite contains_dict, bind_inr.
  set (g3 := match Py.lookup "regions" g2 with
             | Some _ => g2
             | None => Py.store "regions" (VList []) g2
             end).
  rewrite (@bind_eq _ _ _ (VDict g3))
    by (unfold g3; destruct (Py.lookup "regions" g2); reflexivity).
  assert (H : exists regions, Py.lookup "regions" g3 = Some regions).
  { unfold g3. destruct (Py.lookup "regions" g2) eqn:E; [eauto|].
    rewrite lookup_store_same. eauto. }
  destruct H as [regions H]. simpl Py.getitem. rewrite H, bind_inr.
  destruct regions; reflexivity.
Qed.

Lemma regions_group_dict g : Agent.regions_group (VDict g) = inr (VDict (Steps.regioned g)).
Proof.
  unfold Agent.regions_group, Steps.regioned. simpl Py.contains. cbn [bind ret].
  destruct (Py.lookup "regions" g) as [regions|] eqn:E; cbn [bind ret Py.getitem].
  - rewrite E. cbn [bind ret]. destruct regions; try reflexivity.
  - reflexivity.
Qed.

(** A loop body that writes to its item fails on an item that is no dict. *)
Lemma anchor_group_needs_dict group group' :
  Agent.anchor_group group = inr group' -> exists g, group = VDict g.
Proof.
  destruct group; try discriminate; eauto.
  - unfold Agent.anchor_group. simpl Py.contains. cbn [bind ret].
    destruct (Str.contains "group" s); discriminate.
  - unfold Agent.anchor_group. simpl Py.contains. cbn [bind ret].
    destruct (existsb (Py.is_str "group") items); discriminate.
Qed.

Lemma rules_group_keeps_kind group g' :
  Agent.rules_group group = inr (VDict g') -> exists g, group = VDict g.
Proof.
  destruct group; try discriminate; eauto.
  - unfold Agent.rules_group. simpl Py.contains. cbn [bind ret].
    destruct (Str.contains "risk_level" s); discriminate.
  - unfold Agent.rules_group. simpl Py.contains. cbn [bind ret].
    destruct (existsb (Py.is_str "risk_level") items); discriminate.
Qed.

(** ** The passes on a dict *)

Lemma rules_dict d :
  Agent._apply_deterministic_rules (VDict d)
  = match Py.lookup "affected_groups" d with
    | None => inr (VDict d)
    | Some held =>
        held' <- Py.for_each Agent.rules_group held ;;
        ret (VDict (Py.store "affected_groups" held' d))
    end.
Proof.
  unfold Agent._apply_deterministic_rules. rewrite contains_dict, bind_inr.
  simpl Py.getitem. destruct (Py.lookup "affected_groups" d); reflexivity.
Qed.

Lemma regions_dict d :
  Agent._normalize_regions (VDict d)
  = match Py.lookup "affected_groups" d with
    | None => inr (VDict d)
    | Some held =>
        held' <- Py.for_each Agent.regions_group held ;;
        ret (VDict (Py.store "affected_groups" held' d))
    end.
Proof.
  unfold Agent._normalize_regions. rewrite contains_dict, bind_inr.
  simpl Py.getitem. destruct (Py.lookup "affected_groups" d); reflexivity.
Qed.

Lemma limit_dict k cap d held :
  Py.lookup k d = Some held ->
  Agent.limit k cap (VDict d)
  = held' <- Steps.capped cap held ;; ret (VDict (Py.store k held' d)).
Proof.
  intros H. unfold Agent.limit, Steps.capped. simpl Py.getitem. rewrite H, !bind_inr.
  destruct (Py.len held) as [e|n]; [reflexivity|]. run.
  destruct (cap <? n)%nat.
  - destruct (Py.slice_to cap held); reflexivity.
  - rewrite bind_inr. unfold ret. now rewrite store_same.
Qed.

Lemma ensure_dict k v d :
  Py.lookup k (match Py.lookup k d with Some _ => d | None => Py.store k v d end)
  = Some (match Py.lookup k d with Some held => held | None => v end).
Proof.
  destruct (Py.lookup k d) eqn:E; [exact E | apply lookup_store_same].
Qed.

Lemma anchoring_dict d :
  Agent._apply_anchoring_logic (VDict d)
  = held <- Steps.capped Config.MAX_AFFECTED_GROUPS (Steps.held_or_empty "affected_groups" d) ;;
    groups <- Py.for_each Agent.anchor_group held ;;
    mitigations <- Steps.capped Config.MAX_MITIGATIONS (Steps.held_or_empty "mitigations" d) ;;
    summary <- Steps.summary_field (Py.lookup "reasoning_summary" d) ;;
    ret (VDict (Py.store "reasoning_summary" summary
                  (Py.store "mitigations" mitigations
                     (Py.store "affected_groups" groups d)))).
Proof.
  unfold Agent._apply_anchoring_logic.
  rewrite contains_dict, bind_inr.
  set (d0 := match Py.lookup "affected_groups" d with
             | Some _ => d
             | None => Py.store "affected_groups" (VList []) d
             end).
  rewrite (@bind_eq _ _ _ (VDict d0))
    by (unfold d0; destruct (Py.lookup "affected_groups" d); reflexivity).
  assert (H0 : Py.lookup "affected_groups" d0 = Some (Steps.held_or_empty "affected_groups" d))
    by apply ensure_dict.
  rewrite (@limit_dict _ Config.MAX_AFFECTED_GROUPS _ _ H0).
  destruct (Steps.capped Config.MAX_AFFECTED_GROUPS _) as [e|held]; [reflexivity|].
  run.
  simpl Py.getitem. rewrite lookup_store_same, bind_inr.
  destruct (Py.for_each Agent.anchor_group held) as [e|groups]; [reflexivity|].
  run. cbn [Agent.updated_in_place].
  rewrite store_store.
  assert (Hd0 : Py.store "affected_groups" groups d0 = Py.store "affected_groups" groups d).
  { unfold d0. destruct (Py.lookup "affected_groups" d); [reflexivity | apply store_store]. }
  rewrite Hd0. set (d2 := Py.store "affected_groups" groups d).
  rewrite contains_dict, bind_inr.
  set (d3 := match Py.lookup "mitigations" d2 with
             | Some _ => d2
             | None => Py.store "mitigations" (VList []) d2
             end).
  rewrite (@bind_eq _ _ _ (VDict d3))
    by (unfold d3; destruct (Py.lookup "mitigations" d2); reflexivity).
  assert (H3 : Py.lookup "mitigations" d3 = Some (Steps.held_or_empty "mitigations" d)).
  { unfold d3. rewrite ensure_dict. unfold d2, Steps.held_or_empty.
    now rewrite lookup_store_other by reflexivity. }
  rewrite (@limit_dict _ Config.MAX_MITIGATIONS _ _ H3).
  destruct (Steps.capped Config.MAX_MITIGATIONS _) as [e|mitigations]; [reflexivity|].
  run.
  assert (Hd3 : Py.store "mitigations" mitigations d3 = Py.store "mitigations" mitigations d2).
  { unfold d3. destruct (Py.lookup "mitigations" d2); [reflexivity | apply store_store]. }
  rewrite Hd3. rewrite contains_dict, bind_inr.
  assert (Hs : Py.lookup "reasoning_summary" (Py.store "mitigations" mitigations d2)
               = Py.lookup "reasoning_summary" d).
  { unfold d2. now rewrite !lookup_store_other by reflexivity. }
  rewrite Hs. simpl Py.getitem. rewrite Hs.
  unfold Steps.summary_field.
  destruct (Py.lookup "reasoning_summary" d) as [v|]; cbn [negb]; [|reflexivity].
  rewrite bind_inr.
  destruct (Py.strip v); reflexivity.
Qed.

Lemma require_present d k : Py.lookup k d <> None -> Agent.require_key (VDict d) k = inr (VDict d).
Proof.
  intros H. unfold Agent.require_key. rewrite contains_dict, bind_inr.
  destruct (Py.lookup k d); [reflexivity | congruence].
Qed.

Lemma required_all_present d :
  Py.lookup "affected_groups" d <> None ->
  Py.lookup "mitigations" d <> None ->
  Py.lookup "reasoning_summary" d <> None ->
  Agent.foldM Agent.require_key (VDict d) ["affected_groups"; "mitigations"; "reasoning_summary"]
  = inr (VDict d).
Proof.
  intros H1 H2 H3. simpl.
  rewrite (@require_present _ _ H1), bind_inr, (@require_present _ _ H2), bind_inr,
    (@require_present _ _ H3). reflexivity.
Qed.

Lemma post_process_dict d :
  Agent._post_process_normalize (VDict d) = Steps.pipeline_steps d.
Proof.
  unfold Agent._post_process_normalize, Steps.pipeline_steps.
  rewrite rules_dict.
  destruct (Py.lookup "affected_groups" d) as [held|] eqn:E.
  - destruct (Py.for_each Agent.rules_group held) as [e|held0]; [reflexivity|].
    run.
    rewrite anchoring_dict. unfold Steps.held_or_empty.
    rewrite lookup_store_same, !lookup_store_other by reflexivity.
    destruct (Steps.capped Config.MAX_AFFECTED_GROUPS held0) as [e|held1]; [reflexivity|].
    run.
    destruct (Py.for_each Agent.anchor_group held1) as [e|held2]; [reflexivity|].
    run.
    destruct (Steps.capped Config.MAX_MITIGATIONS _) as [e|mitigations]; [reflexivity|].
    run.
    destruct (Steps.summary_field _) as [e|summary]; [reflexivity|].
    run. rewrite store_store.
    rewrite regions_dict. rewrite !lookup_store_other by reflexivity.
    rewrite lookup_store_same.
    destruct (Py.for_each Agent.regions_group held2) as [e|held3]; [reflexivity|].
    run.
    cbn [Py.isinstance_dict negb].
    apply required_all_present; dict_simpl; discriminate.
  - run.
    rewrite anchoring_dict. unfold Steps.held_or_empty at 1. rewrite E.
    destruct (Steps.capped Config.MAX_AFFECTED_GROUPS (VList [])) as [e|held1]; [reflexivity|].
    run.
    destruct (Py.for_each Agent.anchor_group held1) as [e|held2]; [reflexivity|].
    run.
    destruct (Steps.capped Config.MAX_MITIGATIONS _) as [e|mitigations]; [reflexivity|].
    run.
    destruct (Steps.summary_field _) as [e|summary]; [reflexivity|].
    run.
    rewrite regions_dict. rewrite !lookup_store_other by reflexivity.
    rewrite lookup_store_same.
    destruct (Py.for_each Agent.regions_group held2) as [e|held3]; [reflexivity|].
    run.
    cbn [Py.isinstance_dict negb].
    apply required_all_present; dict_simpl; discriminate.
Qed.

(** ** What a group holds after each loop body *)

Lemma bind_inr_inv {A B} (m : fallible A) (k : A -> fallible B) b :
  bind m k = inr b -> exists a, m = inr a /\ k a = inr b.
Proof. destruct m as [e|a]; simpl; [discriminate | eauto]. Qed.

Ltac invert_bind H :=
  let a := fresh "x" in
  let Ha := fresh "Hx" in
  apply bind_inr_inv in H; destruct H as [a [Ha H]].

Lemma anchored_fields g :
  Py.lookup "group" (Steps.anchored g) = Some (anchored_name (Py.lookup "group" g)) /\
  Py.lookup "risk_level" (Steps.anchored g) = Some (anchored_risk (Py.lookup "risk_level" g)) /\
  Py.lookup "regions" (Steps.anchored g) = Some (anchored_regions (Py.lookup "regions" g)).
Proof.
  unfold Steps.anchored.
  set (unnamed := match Py.lookup "group" g with
                  | Some name => negb (Py.truthy name)
                  | None => true
                  end).
  set (g1 := if unnamed then Py.store "group" (VStr "Unspecified group") g else g).
  assert (N1 : Py.lookup "group" g1 = Some (anchored_name (Py.lookup "group" g))).
  { unfold g1, unnamed, anchored_name.
    destruct (Py.lookup "group" g) as [name|] eqn:E.
    - destruct (Py.truthy name); simpl; [exact E | apply lookup_store_same].
    - apply lookup_store_same. }
  assert (R1 : Py.lookup "risk_level" g1 = Py.lookup "risk_level" g).
  { unfold g1. destruct unnamed; [now rewrite lookup_store_other by reflexivity | reflexivity]. }
  assert (G1 : Py.lookup "regions" g1 = Py.lookup "regions" g).
  { unfold g1. destruct unnamed; [now rewrite lookup_store_other by reflexivity | reflexivity]. }
  set (g2 := match Py.lookup "risk_level" g1 with
             | Some _ => g1
             | None => Py.store "risk_level" (VStr "Medium") g1
             end).
  assert (N2 : Py.lookup "group" g2 = Py.lookup "group" g1).
  { unfold g2. destruct (Py.lookup "risk_level" g1);
      [reflexivity | now rewrite lookup_store_other by reflexivity]. }
  assert (R2 : Py.lookup "risk_level" g2 = Some (anchored_risk (Py.lookup "risk_level" g))).
  { unfold g2. rewrite ensure_dict, R1. reflexivity. }
  assert (G2 : Py.lookup "regions" g2 = Py.lookup "regions" g).
  { unfold g2. destruct (Py.lookup "risk_level" g1);
      [exact G1 | now rewrite lookup_store_other by reflexivity]. }
  set (g3 := match Py.lookup "regions" g2 with
             | Some _ => g2
             | None => Py.store "regions" (VList []) g2
             end).
  assert (N3 : Py.lookup "group" g3 = Py.lookup "group" g2).
  { unfold g3. destruct (Py.lookup "regions" g2);
      [reflexivity | now rewrite lookup_store_other by reflexivity]. }
  assert (R3 : Py.lookup "risk_level" g3 = Py.lookup "risk_level" g2).
  { unfold g3. destruct (Py.lookup "regions" g2);
      [reflexivity | now rewrite lookup_store_other by reflexivity]. }
  assert (G3 : Py.lookup "regions" g3
               = Some (match Py.lookup "regions" g with Some r => r | None => VList [] end)).
  { unfold g3. rewrite ensure_dict, G2. reflexivity. }
  rewrite G3. unfold anchored_regions.
  destruct (Py.lookup "regions" g) as [regions|] eqn:E.
  - destruct regions; dict_simpl; rewrite ?N3, ?N2, ?N1, ?R3, ?R2, ?G3; auto.
  - rewrite N3, N2, N1, R3, R2, G3. auto.
Qed.

Lemma regioned_fields g :
  Py.lookup "group" (Steps.regioned g) = Py.lookup "group" g /\
  Py.lookup "risk_level" (Steps.regioned g) = Py.lookup "risk_level" g /\
  Py.lookup "regions" (Steps.regioned g) = regioned_regions (Py.lookup "regions" g).
Proof.
  unfold Steps.regioned, regioned_regions.
  destruct (Py.lookup "regions" g) as [regions|] eqn:E; [|auto].
  destruct regions; auto. dict_simpl. auto.
Qed.

(** The risk level [rules_group] leaves in a dict. *)
Lemma rules_group_inv g g1 :
  Agent.rules_group (VDict g) = inr (VDict g1) ->
  (Py.lookup "risk_level" g = None /\ g1 = g) \/
  (exists level, Py.lookup "risk_level" g = Some (VStr level) /\
                 g1 = Py.store "risk_level" (VStr (Agent.risk_of (Str.lower (Str.strip level)))) g).
Proof.
  rewrite rules_group_dict.
  destruct (Py.lookup "risk_level" g) as [level|].
  - destruct level; try discriminate. simpl. intros H; inversion H. right. eauto.
  - intros H; inversion H. auto.
Qed.

(** One group through the three loop bodies. *)
Lemma normalize_group_inv group group' :
  Steps.normalize_group group = inr group' ->
  exists g g1, group = VDict g /\ Agent.rules_group (VDict g) = inr (VDict g1) /\
               group' = VDict (Steps.regioned (Steps.anchored g1)).
Proof.
  unfold Steps.normalize_group. intros H.
  invert_bind H. invert_bind H.
  destruct (@anchor_group_needs_dict _ _ Hx0) as [g1 ->].
  destruct (@rules_group_keeps_kind _ _ Hx) as [g ->].
  rewrite anchor_group_dict in Hx0. inversion Hx0; subst.
  rewrite regions_group_dict in H. inversion H; subst.
  eauto.
Qed.

Lemma risk_of_enum x : In (Agent.risk_of x) Config.RISK_LEVELS.
Proof.
  unfold Agent.risk_of, Config.RISK_LEVELS.
  destruct (Agent.mem x _); [simpl; auto|].
  destruct (Agent.mem x _); [simpl; auto|].
  destruct (Agent.mem x _); simpl; auto.
Qed.

Lemma normalize_group_risk group group' :
  Steps.normalize_group group = inr group' -> Spec.enum_risk group'.
Proof.
  intros H. destruct (@normalize_group_inv _ _ H) as [g [g1 [-> [Hr ->]]]].
  unfold Spec.enum_risk, Spec.field.
  destruct (regioned_fields (Steps.anchored g1)) as [_ [-> _]].
  destruct (anchored_fields g1) as [_ [-> _]].
  destruct (@rules_group_inv _ _ Hr) as [[Hn ->] | [level [Hl ->]]].
  - rewrite Hn. exists "Medium". simpl. auto.
  - rewrite lookup_store_same. eexists. split; [reflexivity | apply risk_of_enum].
Qed.

(** ** The loops of the pipeline *)

Lemma for_each_list f l held :
  Py.for_each f (VList l) = inr held ->
  exists l', held = VList l' /\ Forall2 (fun a b => f a = inr b) l l'.
Proof.
  unfold Py.for_each. intros H. invert_bind H. inversion H; subst.
  eexists; split; [reflexivity | now apply mapM_inr].
Qed.

Lemma for_each_other f held held' :
  Py.isinstance_list held = false ->
  Py.for_each f held = inr held' ->
  held' = held /\ exists items out, Py.iter held = inr items /\ mapM f items = inr out.
Proof.
  intros Hl H. destruct held; try discriminate; unfold Py.for_each in H;
    invert_bind H; invert_bind H; inversion H; subst; eauto.
Qed.

Lemma capped_list n l : Steps.capped n (VList l) = inr (VList (firstn n l)).
Proof.
  unfold Steps.capped. simpl. destruct (Nat.ltb_spec n (List.length l)); simpl.
  - reflexivity.
  - now rewrite firstn_all2 by lia.
Qed.

Lemma iter_strings held items :
  Py.isinstance_list held = false -> Py.iter held = inr items ->
  Forall (fun v => exists s, v = VStr s) items.
Proof.
  destruct held; try discriminate; intros _ H; inversion H; subst; clear H.
  - induction s as [|c s IH]; simpl; constructor; eauto.
  - induction entries as [|[k v] d IH]; simpl; constructor; eauto.
Qed.

(** A loop whose body writes to its items runs on a list of dicts, or on
    something empty. *)
Lemma anchor_loop_other held held' :
  Py.isinstance_list held = false ->
  Py.for_each Agent.anchor_group held = inr held' ->
  held' = held /\ Py.iter held = inr [].
Proof.
  intros Hl H. destruct (for_each_other _ _ _ Hl H) as [-> [items [out [Hi Hm]]]].
  split; [reflexivity|].
  pose proof (iter_strings _ _ Hl Hi) as Hs.
  destruct items as [|v items]; [exact Hi|].
  inversion Hs as [|? ? [s ->] _]; subst.
  simpl in Hm. invert_bind Hm. apply anchor_group_needs_dict in Hx.
  destruct Hx; discriminate.
Qed.

Lemma take_empty n s : (0 < n)%nat -> Str.take n s = "" -> s = "".
Proof. destruct n; [lia|]. destruct s; [reflexivity | discriminate]. Qed.

Lemma chars_empty s : Str.chars s = [] -> s = "".
Proof. destruct s; [reflexivity | discriminate]. Qed.

Lemma capped_other n held held' :
  (0 < n)%nat -> Py.isinstance_list held = false ->
  Steps.capped n held = inr held' ->
  Py.isinstance_list held' = false /\ (Py.iter held' = inr [] -> held' = held).
Proof.
  intros Hn Hl H. unfold Steps.capped in H. invert_bind H.
  destruct (n <? x)%nat eqn:E.
  - destruct held; try discriminate. simpl in H. inversion H; subst.
    split; [reflexivity|]. simpl. intros Hi. inversion Hi as [Hc].
    assert (Ht : Str.take n s = "").
    { destruct (Str.take n s); [reflexivity | discriminate]. }
    apply take_empty in Ht; [|exact Hn]. subst. now destruct n.
  - inversion H; subst. auto.
Qed.

(** What the three loops leave under [affected_groups]: the first groups,
    each through the three loop bodies, or an empty object that is no list. *)
Lemma groups_passes held held0 held1 held2 held3 :
  Py.for_each Agent.rules_group held = inr held0 ->
  Steps.capped Config.MAX_AFFECTED_GROUPS held0 = inr held1 ->
  Py.for_each Agent.anchor_group held1 = inr held2 ->
  Py.for_each Agent.regions_group held2 = inr held3 ->
  (exists groups groups',
      held = VList groups /\ held3 = VList groups' /\
      Forall2 (fun g g' => Steps.normalize_group g = inr g')
              (firstn Config.MAX_AFFECTED_GROUPS groups) groups') \/
  (Py.isinstance_list held = false /\ held3 = held /\ Py.iter held = inr []).
Proof.
  intros H0 H1 H2 H3.
  destruct (Py.isinstance_list held) eqn:Hl.
  - left. destruct held; try discriminate.
    apply for_each_list in H0. destruct H0 as [l0 [-> F0]].
    rewrite capped_list in H1. inversion H1; subst.
    apply for_each_list in H2. destruct H2 as [l2 [-> F2]].
    apply for_each_list in H3. destruct H3 as [l3 [-> F3]].
    exists items, l3. split; [reflexivity|]. split; [reflexivity|].
    pose proof (Forall2_firstn _ Config.MAX_AFFECTED_GROUPS _ _ F0) as F0'.
    pose proof (Forall2_compose _ _ _ _ _ (Forall2_compose _ _ _ _ _ F0' F2) F3) as F.
    clear - F. induction F as [|a c la lc [b [[a' [Ha Hb]] Hc]] _ IH]; constructor; [|exact IH].
    unfold Steps.normalize_group. rewrite Ha. simpl. rewrite Hb. simpl. exact Hc.
  - right. split; [reflexivity|].
    destruct (for_each_other _ _ _ Hl H0) as [-> _].
    destruct (capped_other Config.MAX_AFFECTED_GROUPS _ _ ltac:(unfold Config.MAX_AFFECTED_GROUPS; lia) Hl H1)
      as [Hl1 Hback].
    destruct (anchor_loop_other _ _ Hl1 H2) as [-> Hi].
    specialize (Hback Hi). subst held1.
    destruct (for_each_other _ _ _ Hl H3) as [-> _]. auto.
Qed.

Lemma pipeline_inv d r :
  Steps.pipeline_steps d = inr r ->
  exists held0 held1 held2 held3 mitigations summary,
    match Py.lookup "affected_groups" d with
    | Some held => Py.for_each Agent.rules_group held
    | None => ret (VList [])
    end = inr held0 /\
    Steps.capped Config.MAX_AFFECTED_GROUPS held0 = inr held1 /\
    Py.for_each Agent.anchor_group held1 = inr held2 /\
    Steps.capped Config.MAX_MITIGATIONS (Steps.held_or_empty "mitigations" d) = inr mitigations /\
    Steps.summary_field (Py.lookup "reasoning_summary" d) = inr summary /\
    Py.for_each Agent.regions_group held2 = inr held3 /\
    r = VDict (Py.store "affected_groups" held3
                 (Py.store "reasoning_summary" summary
                    (Py.store "mitigations" mitigations
                       (Py.store "affected_groups" held2 d)))).
Proof.
  unfold Steps.pipeline_steps. intros H.
  do 6 invert_bind H. inversion H.
  do 6 eexists. repeat (split; [eassumption|]). reflexivity.
Qed.

(** A value that is no dict never comes out of the pipeline. *)
Lemma post_process_needs_dict v r :
  Agent._post_process_normalize v = inr r -> exists d, v = VDict d.
Proof.
  destruct v; try discriminate; eauto; unfold Agent._post_process_normalize.
  - unfold Agent._apply_deterministic_rules. simpl Py.contains. run.
    destruct (Str.contains "affected_groups" s) eqn:E; [discriminate|]. run.
    unfold Agent._apply_anchoring_logic. simpl Py.contains. rewrite E. discriminate.
  - unfold Agent._apply_deterministic_rules. simpl Py.contains. run.
    destruct (existsb (Py.is_str "affected_groups") items) eqn:E; [discriminate|]. run.
    unfold Agent._apply_anchoring_logic. simpl Py.contains. rewrite E. discriminate.
Qed.

(** ** De-duplication *)

Lemma mem_In x l : Agent.mem x l = true <-> In x l.
Proof.
  unfold Agent.mem. rewrite existsb_exists. split.
  - intros [y [Hy E]]. apply String.eqb_eq in E. now subst.
  - intros H. exists x. split; [exact H | apply String.eqb_refl].
Qed.

Lemma filter_filter {A} (p q : A -> bool) l :
  filter p (filter q l) = filter (fun x => q x && p x) l.
Proof.
  induction l as [|a l IH]; simpl; [reflexivity|].
  destruct (q a); simpl; [destruct (p a); now rewrite IH | exact IH].
Qed.

Lemma filter_all {A} (p : A -> bool) l : (forall x, In x l -> p x = true) -> filter p l = l.
Proof.
  induction l as [|a l IH]; simpl; intros H; [reflexivity|].
  rewrite (H a) by auto. f_equal. apply IH. auto.
Qed.

Lemma dedupe_seen_filter l :
  forall seen,
    Agent.dedupe_seen seen l
    = filter (fun r => negb (Agent.mem r seen)) (Order.first_occurrences l).
Proof.
  induction l as [|x l IH]; intros seen; simpl; [reflexivity|].
  rewrite filter_filter.
  destruct (Agent.mem x seen) eqn:E; simpl.
  - rewrite IH. apply filter_ext_in. intros y _.
    destruct (String.eqb y x) eqn:Eyx; simpl; [|reflexivity].
    apply String.eqb_eq in Eyx. subst. now rewrite E.
  - rewrite IH. f_equal. apply filter_ext. intros y. simpl.
    rewrite negb_orb. reflexivity.
Qed.

(** [dedupe] keeps the first occurrence of every region, in order. *)
Lemma dedupe_first_occurrences l : Agent.dedupe l = Order.first_occurrences l.
Proof.
  unfold Agent.dedupe. rewrite dedupe_seen_filter.
  apply filter_all. reflexivity.
Qed.

Lemma first_occurrences_In l x : In x (Order.first_occurrences l) <-> In x l.
Proof.
  induction l as [|a l IH]; simpl; [tauto|].
  rewrite filter_In, IH. split.
  - intros [H | [H _]]; auto.
  - intros [H | H]; [auto|].
    destruct (String.eqb x a) eqn:E.
    + apply String.eqb_eq in E. auto.
    + right. split; [exact H | reflexivity].
Qed.

Lemma first_occurrences_NoDup l : NoDup (Order.first_occurrences l).
Proof.
  induction l as [|a l IH]; simpl; constructor.
  - rewrite filter_In. intros [_ H]. now rewrite String.eqb_refl in H.
  - now apply NoDup_filter.
Qed.

Lemma first_occurrences_NoDup_id l : NoDup l -> Order.first_occurrences l = l.
Proof.
  induction 1 as [|a l Ha _ IH]; simpl; [reflexivity|].
  rewrite IH. f_equal. apply filter_all. intros x Hx.
  destruct (String.eqb x a) eqn:E; [|reflexivity].
  apply String.eqb_eq in E. subst. contradiction.
Qed.

Lemma dedupe_idempotent l : Agent.dedupe (Agent.dedupe l) = Agent.dedupe l.
Proof.
  rewrite (dedupe_first_occurrences (Agent.dedupe l)).
  apply first_occurrences_NoDup_id. rewrite dedupe_first_occurrences.
  apply first_occurrences_NoDup.
Qed.

(** ** The fields of a group after the three loop bodies *)

Lemma normalize_group_fields group group' :
  Steps.normalize_group group = inr group' ->
  exists g,
    group = VDict g /\
    (forall level, Py.lookup "risk_level" g = Some (VStr level) ->
       Spec.field "risk_level" group'
       = Some (VStr (Agent.risk_of (Str.lower (Str.strip level))))) /\
    (Py.lookup "risk_level" g = None ->
       Spec.field "risk_level" group' = Some (VStr "Medium")) /\
    Spec.field "regions" group'
    = regioned_regions (Some (anchored_regions (Py.lookup "regions" g))) /\
    Spec.field "group" group' = Some (anchored_name (Py.lookup "group" g)).
Proof.
  intros H. destruct (normalize_group_inv _ _ H) as [g [g1 [-> [Hr ->]]]].
  exists g. split; [reflexivity|].
  unfold Spec.field.
  destruct (regioned_fields (Steps.anchored g1)) as [-> [-> ->]].
  destruct (anchored_fields g1) as [-> [-> ->]].
  destruct (rules_group_inv _ _ Hr) as [[Hn ->] | [level [Hl ->]]].
  - rewrite Hn. repeat split; auto. intros level; discriminate.
  - rewrite lookup_store_same, !lookup_store_other by reflexivity.
    repeat split; auto.
    + intros level' E. rewrite Hl in E. inversion E; subst. reflexivity.
    + rewrite Hl. discriminate.
Qed.

(** What the pipeline leaves in the three required fields of a dict. *)
Lemma post_process_fields d r :
  Agent._post_process_normalize (VDict d) = inr r ->
  exists held mitigations summary,
    Spec.field "affected_groups" r = Some held /\
    Spec.field "mitigations" r = Some mitigations /\
    Spec.field "reasoning_summary" r = Some summary /\
    Steps.capped Config.MAX_MITIGATIONS (Steps.held_or_empty "mitigations" d) = inr mitigations /\
    Steps.summary_field (Py.lookup "reasoning_summary" d) = inr summary /\
    match Py.lookup "affected_groups" d with
    | None => held = VList []
    | Some given =>
        (exists groups groups',
            given = VList groups /\ held = VList groups' /\
            Forall2 (fun g g' => Steps.normalize_group g = inr g')
                    (firstn Config.MAX_AFFECTED_GROUPS groups) groups') \/
        (Py.isinstance_list given = false /\ held = given /\ Py.iter given = inr [])
    end.
Proof.
  rewrite post_process_dict. intros H.
  destruct (pipeline_inv _ _ H)
    as [held0 [held1 [held2 [held3 [mitigations [summary [H0 [H1 [H2 [Hm [Hs [H3 ->]]]]]]]]]]]].
  exists held3, mitigations, summary. unfold Spec.field. dict_simpl.
  repeat (split; [reflexivity || assumption|]).
  destruct (Py.lookup "affected_groups" d) as [given|].
  - exact (groups_passes _ _ _ _ _ H0 H1 H2 H3).
  - inversion H0; subst. rewrite capped_list in H1. inversion H1; subst.
    simpl in H2. inversion H2; subst. simpl in H3. inversion H3. reflexivity.
Qed.

(** * The reasoning summary *)



(** * The groups *)

Lemma groups_related d groups r :
  Agent._post_process_normalize (VDict d) = inr r ->
  Py.lookup "affected_groups" d = Some (VList groups) ->
  exists groups',
    Spec.field "affected_groups" r = Some (VList groups') /\
    Forall2 (fun g g' => Steps.normalize_group g = inr g')
            (firstn Config.MAX_AFFECTED_GROUPS groups) groups'.
Proof.
  intros H E.
  destruct (post_process_fields _ _ H) as [held [m [summary [Hf [_ [_ [_ [_ Hg]]]]]]]].
  rewrite E in Hg. destruct Hg as [[gs [gs' [Eg [-> F]]]] | [Hl _]]; [|discriminate].
  inversion Eg; subst. eauto.
Qed.








(** * Totality on typed dicts *)

Lemma mapM_dicts (f : value -> fallible value) l :
  Forall is_dict l ->
  (forall g, exists g', f (VDict g) = inr (VDict g')) ->
  exists l', mapM f l = inr l' /\ Forall is_dict l'.
Proof.
  intros Hl Hf. induction Hl as [|a l [g ->] _ [l' [IH Hd]]]; simpl.
  - exists []. split; [reflexivity | constructor].
  - destruct (Hf g) as [g' Hg]. rewrite Hg, IH. simpl.
    eexists. split; [reflexivity|]. constructor; [now exists g' | exact Hd].
Qed.

Lemma mapM_typed_rules l :
  forallb Spec.typed_group l = true ->
  exists l', mapM Agent.rules_group l = inr l' /\ Forall is_dict l'.
Proof.
  induction l as [|a l IH]; simpl; intros H.
  - exists []. split; [reflexivity | constructor].
  - apply andb_true_iff in H. destruct H as [Ha Hl].
    destruct (IH Hl) as [l' [El Hd]].
    destruct a; try discriminate. rewrite rules_group_dict. simpl in Ha.
    destruct (Py.lookup "risk_level" entries) as [level|].
    + destruct level; try discriminate. simpl. rewrite El. simpl.
      eexists. split; [reflexivity|]. constructor; [eexists; reflexivity | exact Hd].
    + simpl. rewrite El. simpl.
      eexists. split; [reflexivity|]. constructor; [eexists; reflexivity | exact Hd].
Qed.

Lemma Forall_firstn {A} (P : A -> Prop) n l : Forall P l -> Forall P (firstn n l).
Proof. intros H; revert n; induction H; intros [|n]; simpl; constructor; auto. Qed.

(** A dict with the types of the schema goes through the pipeline. *)
Lemma typed_dict_returns r :
  Spec.schema_typed r = true -> exists r', Agent._post_process_normalize r = inr r'.
Proof.
  destruct r; try discriminate. rename entries into d. simpl. intros H.
  apply andb_true_iff in H. destruct H as [H Hs].
  apply andb_true_iff in H. destruct H as [Hg Hm].
  rewrite post_process_dict. unfold Steps.pipeline_steps.
  assert (E0 : exists l0,
             match Py.lookup "affected_groups" d with
             | Some held => Py.for_each Agent.rules_group held
             | None => ret (VList [])
             end = inr (VList l0) /\ Forall is_dict l0).
  { destruct (Py.lookup "affected_groups" d) as [held|].
    - destruct held; try discriminate.
      destruct (mapM_typed_rules _ Hg) as [l' [El Hd]].
      exists l'. simpl. rewrite El. auto.
    - exists []. split; [reflexivity | constructor]. }
  destruct E0 as [l0 [-> D0]]. run. rewrite capped_list. run.
  destruct (mapM_dicts Agent.anchor_group (firstn Config.MAX_AFFECTED_GROUPS l0))
    as [l2 [E2 D2]].
  { now apply Forall_firstn. }
  { intros g. rewrite anchor_group_dict. eauto. }
  unfold Py.for_each at 1. rewrite E2. run.
  assert (Em : exists m, Steps.capped Config.MAX_MITIGATIONS
                           (Steps.held_or_empty "mitigations" d) = inr m).
  { unfold Steps.held_or_empty. destruct (Py.lookup "mitigations" d) as [held|].
    - destruct held; try discriminate. rewrite capped_list. eauto.
    - rewrite capped_list. eauto. }
  destruct Em as [m ->]. run.
  assert (Es : exists s, Steps.summary_field (Py.lookup "reasoning_summary" d) = inr s).
  { destruct (Py.lookup "reasoning_summary" d) as [held|].
    - destruct held; try discriminate. simpl. eauto.
    - simpl. eauto. }
  destruct Es as [s ->]. run.
  destruct (mapM_dicts Agent.regions_group l2 D2) as [l3 [E3 _]].
  { intros g. rewrite regions_group_dict. eauto. }
  unfold Py.for_each. rewrite E3. run. eauto.
Qed.

(** C4. Totality of the pipeline: it returns, without raising, on every dict
    whose fields have the types of the schema where they are present (a list
    of dict groups with string risk levels, a list of mitigations, a string
    summary), and it never returns on a value that is no dict. *)
Theorem pipeline_total_on_typed_dicts :
  (forall r, Spec.schema_typed r = true ->
     exists r', Agent._post_process_normalize r = inr r') /\
  (forall v, Py.isinstance_dict v = false ->
     exists e, Agent._post_process_normalize v = inl e).
Proof.
  split; [exact typed_dict_returns|].
  intros v Hv. destruct (Agent._post_process_normalize v) as [e|r] eqn:E; [eauto|].
  destruct (post_process_needs_dict _ _ E) as [d ->]. discriminate.
Qed.

Lemma pipeline_total_on_typed_dicts_witness :
  Spec.schema_typed (VDict Samples.groups_input) = true /\
  exists r', Agent._post_process_normalize (VDict Samples.groups_input) = inr r'.
Proof.
  split; [reflexivity|].
  exact (proj1 pipeline_total_on_typed_dicts (VDict Samples.groups_input) eq_refl).
Defined.

(** A dict on which the pipeline raises [AttributeError], and a list on
    which it raises [TypeError], not [ValueError]. *)
Lemma pipeline_raises_on_a_dict :
  Agent._post_process_normalize
    (VDict [("affected_groups", VList [VDict [("risk_level", VInt 5)]])])
  = inl (Py.AttributeError (VInt 5) "strip") /\
  Agent._post_process_normalize (VList [])
  = inl (Py.TypeError "list indices must be integers or slices, not str").
Proof. split; reflexivity. Qed.

(** * Normalizing a normalized result *)

(** ** The summary is settled *)

Lemma word_cons c w :
  Str.is_space c = false -> (w = "" \/ word w) -> word (String c w).
Proof.
  intros Hc Hw. split; [discriminate|]. simpl. rewrite Hc. simpl.
  destruct Hw as [-> | [_ H]]; [reflexivity | exact H].
Qed.

Lemma split_words t : Forall word (Str.split t).
Proof.
  induction t as [|c t IH]; [constructor|].
  destruct t as [|c' t'].
  - simpl. destruct (Str.is_space c) eqn:Ec; constructor; [|constructor].
    apply word_cons; auto.
  - rewrite split_two. destruct (Str.is_space c) eqn:Ec; [exact IH|].
    destruct (Str.is_space c') eqn:Ec'.
    + constructor; [apply word_cons; auto | exact IH].
    + destruct (Str.split (String c' t')) as [|w ws].
      * constructor; [apply word_cons; auto | constructor].
      * inversion IH; subst. constructor; [apply word_cons; auto | assumption].
Qed.

Lemma split_word w : word w -> Str.split w = [w].
Proof.
  induction w as [|c w IH]; intros [Hn He]; [congruence|].
  simpl in He. apply andb_true_iff in He. destruct He as [Hc Hw].
  apply negb_true_iff in Hc.
  destruct w as [|c' w'].
  - simpl. now rewrite Hc.
  - rewrite split_two, Hc.
    assert (Hw' : word (String c' w')) by (split; [discriminate | exact Hw]).
    simpl in Hw. apply andb_true_iff in Hw. destruct Hw as [Hc' _].
    apply negb_true_iff in Hc'. rewrite Hc', (IH Hw'). reflexivity.
Qed.

Lemma split_word_blank w rest :
  word w -> Str.split (w ++ String " " rest) = w :: Str.split rest.
Proof.
  induction w as [|c w IH]; intros [Hn He]; [congruence|].
  simpl in He. apply andb_true_iff in He. destruct He as [Hc Hw].
  apply negb_true_iff in Hc.
  destruct w as [|c' w'].
  - simpl String.append. rewrite split_two, Hc. reflexivity.
  - simpl String.append. rewrite split_two, Hc.
    assert (Hw' : word (String c' w')) by (split; [discriminate | exact Hw]).
    simpl in Hw. apply andb_true_iff in Hw. destruct Hw as [Hc' _].
    apply negb_true_iff in Hc'. rewrite Hc'.
    change (String c' (w' ++ String " " rest)) with (String c' w' ++ String " " rest).
    rewrite (IH Hw'). reflexivity.
Qed.

Lemma split_join ws : Forall word ws -> Str.split (Str.join " " ws) = ws.
Proof.
  induction 1 as [|w ws Hw Hws IH]; [reflexivity|].
  destruct ws as [|w' ws'].
  - apply split_word, Hw.
  - rewrite join_two. change (" " ++ Str.join " " (w' :: ws'))
      with (String " " (Str.join " " (w' :: ws'))).
    rewrite split_word_blank by exact Hw. now rewrite IH.
Qed.

Lemma every_app P a b : every P (a ++ b) = every P a && every P b.
Proof. induction a as [|c a IH]; simpl; [reflexivity|]. now rewrite IH, andb_assoc. Qed.

Lemma join_period ws :
  Forall word ws -> ws <> [] ->
  exists ws', Str.join " " ws ++ "." = Str.join " " ws' /\ Forall word ws' /\
              List.length ws' = List.length ws.
Proof.
  induction 1 as [|w ws Hw Hws IH]; intros Hne; [congruence|].
  destruct ws as [|w' ws'].
  - exists [w ++ "."]. split; [reflexivity|]. split; [|reflexivity].
    constructor; [|constructor]. destruct Hw as [Hn He]. split.
    + destruct w; [congruence | discriminate].
    + rewrite every_app, He. reflexivity.
  - destruct (IH ltac:(discriminate)) as [ws2 [E [W L]]].
    destruct ws2 as [|a ws2]; [discriminate|].
    exists (w :: a :: ws2). split.
    + rewrite !join_two, !string_app_assoc. rewrite <- E. reflexivity.
    + split; [constructor; assumption | simpl in *; lia].
Qed.

Lemma summary_of_words t :
  exists ws, Forall word ws /\ (List.length ws <= Config.REASONING_SUMMARY_MAX_WORDS)%nat /\
             Spec.summary_of t = Str.join " " ws.
Proof.
  unfold Spec.summary_of.
  pose proof (split_words t) as W.
  destruct (Nat.leb_spec (List.length (Str.split t)) Config.REASONING_SUMMARY_MAX_WORDS) as [L|L].
  - exists (Str.split t). auto.
  - set (cut := firstn Config.REASONING_SUMMARY_MAX_WORDS (Str.split t)).
    assert (Wc : Forall word cut) by (apply Forall_firstn, W).
    assert (Lc : List.length cut = Config.REASONING_SUMMARY_MAX_WORDS).
    { unfold cut. rewrite length_firstn. lia. }
    destruct (Str.endswith "." (Str.join " " cut)).
    + exists cut. split; [exact Wc|]. split; [lia | reflexivity].
    + destruct (join_period cut Wc) as [ws' [E [W' L']]].
      { intros E. rewrite E in Lc. discriminate. }
      exists ws'. split; [exact W'|]. split; [lia | exact E].
Qed.

Lemma summary_of_idempotent t : Spec.summary_of (Spec.summary_of t) = Spec.summary_of t.
Proof.
  destruct (summary_of_words t) as [ws [W [L ->]]].
  unfold Spec.summary_of. rewrite split_join by exact W.
  destruct (Nat.leb_spec (List.length ws) Config.REASONING_SUMMARY_MAX_WORDS); [reflexivity | lia].
Qed.

Lemma summary_field_settled held summary :
  Steps.summary_field held = inr summary ->
  Steps.summary_field (Some summary) = inr summary.
Proof.
  destruct held as [v|]; simpl.
  - destruct v; try discriminate. simpl. intros H. inversion H. simpl.
    rewrite !anchor_summary_spec, summary_of_idempotent. reflexivity.
  - intros H. inversion H. reflexivity.
Qed.

(** ** The caps are settled *)

Lemma length_take n s : (String.length (Str.take n s) <= n)%nat.
Proof.
  revert s; induction n as [|n IH]; intros [|c s]; simpl; try lia.
  specialize (IH s). lia.
Qed.

Lemma capped_settled n held held' :
  Steps.capped n held = inr held' -> Steps.capped n held' = inr held'.
Proof.
  unfold Steps.capped. intros H. invert_bind H.
  destruct (n <? x)%nat eqn:E.
  - destruct held; try discriminate; simpl in H; inversion H; subst; simpl.
    + pose proof (length_take n s).
      destruct (Nat.ltb_spec n (String.length (Str.take n s))); [lia | reflexivity].
    + pose proof (length_firstn n items).
      destruct (Nat.ltb_spec n (List.length (firstn n items))); [lia | reflexivity].
  - inversion H; subst. rewrite Hx. simpl. now rewrite E.
Qed.

(** ** The groups are settled *)

Lemma risk_of_settled level :
  In level Config.RISK_LEVELS -> Agent.risk_of (Str.lower (Str.strip level)) = level.
Proof.
  intros [<- | [<- | [<- | []]]]; reflexivity.
Qed.

Lemma table_values u state :
  Agent.table_get u Agent.cities_to_states = Some state ->
  Str.strip state = state /\ Str.title state = state.
Proof.
  unfold Agent.cities_to_states. simpl.
  repeat match goal with
         | |- context [String.eqb ?a ?b] => destruct (String.eqb a b)
         end;
    intros H; inversion H; split; reflexivity.
Qed.

Lemma canonical_normal v :
  Str.strip (Agent.canonical_region v) = Agent.canonical_region v /\
  Str.title (Agent.canonical_region v) = Agent.canonical_region v.
Proof.
  unfold Agent.canonical_region.
  destruct (Agent.table_get _ _) as [state|] eqn:E.
  - exact (table_values _ _ E).
  - split; [apply strip_title, strip_idempotent | apply title_idempotent].
Qed.

Lemma canonical_settled v :
  Spec.settled_region (VStr (Agent.canonical_region v)) = true ->
  Agent.canonical_region (VStr (Agent.canonical_region v)) = Agent.canonical_region v.
Proof.
  destruct (canonical_normal v) as [Hs Ht].
  set (s := Agent.canonical_region v) in *.
  unfold Spec.settled_region. unfold Agent.canonical_region at 1. simpl Py.str.
  rewrite Hs. destruct (Agent.table_get s Agent.cities_to_states) as [state|].
  - intros E. now apply String.eqb_eq in E.
  - intros _. exact Ht.
Qed.

Lemma anchored_regions_list held : exists l, anchored_regions held = VList l.
Proof.
  destruct held as [v|]; [|simpl; eauto].
  destruct v; simpl; eauto;
    match goal with |- context [if ?b then _ else _] => destruct b; eauto end.
Qed.

Lemma anchored_name_truthy held : Py.truthy (anchored_name held) = true.
Proof.
  destruct held as [v|]; [|reflexivity]. simpl.
  destruct (Py.truthy v) eqn:E; [exact E | reflexivity].
Qed.

(** A group that came out of the three loop bodies, and whose regions the
    alias table leaves alone, goes through them unchanged. *)
Lemma normalized_group_settled group group' :
  Steps.normalize_group group = inr group' ->
  Spec.settled_group group' = true ->
  Agent.rules_group group' = inr group' /\
  Agent.anchor_group group' = inr group' /\
  Agent.regions_group group' = inr group'.
Proof.
  intros H S.
  destruct (normalize_group_risk _ _ H) as [level [Hl Hin]].
  destruct (normalize_group_fields _ _ H) as [g [-> [_ [_ [Hr Hn]]]]].
  destruct (normalize_group_inv _ _ H) as [g0 [g1 [_ [_ ->]]]].
  set (e := Steps.regioned (Steps.anchored g1)) in *.
  simpl in Hl, Hr, Hn.
  destruct (anchored_regions_list (Py.lookup "regions" g)) as [l El].
  rewrite El in Hr. simpl in Hr.
  split; [|split].
  - rewrite rules_group_dict, Hl. simpl.
    rewrite risk_of_settled by exact Hin. now rewrite store_same.
  - rewrite anchor_group_dict. f_equal. f_equal.
    unfold Steps.anchored. rewrite Hn, anchored_name_truthy. simpl.
    rewrite Hl, Hr, Hr. reflexivity.
  - rewrite regions_group_dict. f_equal. f_equal.
    unfold Steps.regioned. rewrite Hr.
    unfold Spec.settled_group in S. simpl in S. rewrite Hr in S.
    set (names := Agent.dedupe (map Agent.canonical_region l)) in *.
    assert (G : forall names,
               (forall s, In s names -> exists v, s = Agent.canonical_region v) ->
               forallb Spec.settled_region (map VStr names) = true ->
               map Agent.canonical_region (map VStr names) = names).
    { clear. induction names as [|s names IH]; intros Hc Hs; [reflexivity|].
      simpl in Hs. apply andb_true_iff in Hs. destruct Hs as [Hs1 Hs2].
      simpl. f_equal.
      - destruct (Hc s (or_introl eq_refl)) as [v ->]. now apply canonical_settled.
      - apply IH; [|exact Hs2]. intros s' Hs'. apply Hc. now right. }
    assert (E : Agent.dedupe (map Agent.canonical_region (map VStr names)) = names).
    { rewrite G; [apply dedupe_idempotent | | exact S].
      intros s Hs. unfold names in Hs. rewrite dedupe_first_occurrences in Hs.
      apply (proj1 (first_occurrences_In _ _)) in Hs. apply in_map_iff in Hs.
      destruct Hs as [v [<- _]]. eauto. }
    rewrite E. apply store_same. exact Hr.
Qed.

Lemma for_each_empty f held :
  Py.isinstance_list held = false -> Py.iter held = inr [] -> Py.for_each f held = inr held.
Proof.
  intros Hl Hi. destruct held; try discriminate; unfold Py.for_each; rewrite Hi; reflexivity.
Qed.

Lemma capped_empty n held :
  Py.isinstance_list held = false -> Py.iter held = inr [] -> Steps.capped n held = inr held.
Proof.
  intros Hl Hi. destruct held; try discriminate; simpl in Hi; inversion Hi as [E];
    unfold Steps.capped; simpl.
  - destruct s; [|discriminate]. simpl. now destruct n.
  - destruct entries; [|discriminate]. simpl. now destruct n.
Qed.

Lemma Forall2_right {A B} (R : A -> B -> Prop) (P : B -> Prop) l l' :
  (forall a b, R a b -> P b) -> Forall2 R l l' -> Forall P l'.
Proof. intros H F. induction F; constructor; eauto. Qed.

(** What the pipeline leaves under [affected_groups] goes through the loops
    and the cap unchanged, when the alias table leaves its regions alone. *)
Lemma groups_settled held0 held1 held2 held3 given :
  match given with
  | Some held => Py.for_each Agent.rules_group held
  | None => ret (VList [])
  end = inr held0 ->
  Steps.capped Config.MAX_AFFECTED_GROUPS held0 = inr held1 ->
  Py.for_each Agent.anchor_group held1 = inr held2 ->
  Py.for_each Agent.regions_group held2 = inr held3 ->
  forallb Spec.settled_group
    (match Py.iter held3 with inr items => items | inl _ => [] end) = true ->
  Py.for_each Agent.rules_group held3 = inr held3 /\
  Steps.capped Config.MAX_AFFECTED_GROUPS held3 = inr held3 /\
  Py.for_each Agent.anchor_group held3 = inr held3 /\
  Py.for_each Agent.regions_group held3 = inr held3.
Proof.
  intros H0 H1 H2 H3 S.
  assert (Shape :
            (exists src groups',
                held3 = VList groups' /\
                Forall2 (fun g g' => Steps.normalize_group g = inr g') src groups' /\
                (List.length groups' <= Config.MAX_AFFECTED_GROUPS)%nat) \/
            (Py.isinstance_list held3 = false /\ Py.iter held3 = inr [])).
  { destruct given as [held|].
    - destruct (groups_passes _ _ _ _ _ H0 H1 H2 H3)
        as [[groups [groups' [-> [-> F]]]] | [Hl [-> Hi]]]; [left | right; auto].
      exists (firstn Config.MAX_AFFECTED_GROUPS groups), groups'.
      split; [reflexivity|]. split; [exact F|].
      rewrite <- (Forall2_length F). apply firstn_le_length.
    - left. inversion H0; subst. rewrite capped_list in H1. inversion H1; subst.
      simpl in H2. inversion H2; subst. simpl in H3. inversion H3; subst.
      exists [], []. split; [reflexivity|]. split; [constructor | simpl; lia]. }
  destruct Shape as [[src [groups' [-> [F L]]]] | [Hl Hi]].
  - simpl in S.
    assert (Fix : Forall (fun g' => Agent.rules_group g' = inr g' /\
                                    Agent.anchor_group g' = inr g' /\
                                    Agent.regions_group g' = inr g') groups').
    { rewrite forallb_forall in S. clear - F S.
      induction F as [|a b l l' Hab _ IH]; constructor.
      - apply (normalized_group_settled _ _ Hab). apply S. now left.
      - apply IH. intros x Hx. apply S. now right. }
    repeat split.
    + unfold Py.for_each. rewrite mapM_fixed; [reflexivity|].
      eapply Forall_impl; [|exact Fix]. intros g' H; apply H.
    + rewrite capped_list. now rewrite firstn_all2 by exact L.
    + unfold Py.for_each. rewrite mapM_fixed; [reflexivity|].
      eapply Forall_impl; [|exact Fix]. intros g' H; apply H.
    + unfold Py.for_each. rewrite mapM_fixed; [reflexivity|].
      eapply Forall_impl; [|exact Fix]. intros g' H; apply H.
  - repeat split; try (apply for_each_empty; assumption). apply capped_empty; assumption.
Qed.

(** C1. Idempotence, as the code has it: when the pipeline returns, on an
    input whose texts are ASCII, a result in which no region is a city of the
    alias table that the table maps to another name, the pipeline run on
    that result returns it unchanged: every field, the three required ones
    among them, is the same. *)
Theorem normalize_idempotent_when_settled (r r1 : value) :
  Py.isascii r = true ->
  Agent._post_process_normalize r = inr r1 ->
  Spec.settled r1 = true ->
  exists r2,
    Agent._post_process_normalize r1 = inr r2 /\
    Spec.same_required_fields r2 r1 /\ r2 = r1.
Proof.
  intros _ H S. exists r1. split; [|repeat split].
  destruct (post_process_needs_dict _ _ H) as [d ->].
  rewrite post_process_dict in H.
  destruct (pipeline_inv _ _ H)
    as [held0 [held1 [held2 [held3 [mitigations [summary [H0 [H1 [H2 [Hm [Hs [H3 E]]]]]]]]]]]].
  remember (Py.store "affected_groups" held3
              (Py.store "reasoning_summary" summary
                 (Py.store "mitigations" mitigations
                    (Py.store "affected_groups" held2 d)))) as d1 eqn:Ed1.
  assert (Lg : Py.lookup "affected_groups" d1 = Some held3) by (subst d1; now dict_simpl).
  assert (Lm : Py.lookup "mitigations" d1 = Some mitigations) by (subst d1; now dict_simpl).
  assert (Ls : Py.lookup "reasoning_summary" d1 = Some summary) by (subst d1; now dict_simpl).
  subst r1. unfold Spec.settled, Spec.groups_of, Spec.field in S. rewrite Lg in S.
  destruct (groups_settled _ _ _ _ _ H0 H1 H2 H3 S) as [F1 [F2 [F3 F6]]].
  rewrite post_process_dict. unfold Steps.pipeline_steps, Steps.held_or_empty.
  rewrite Lg, Lm, Ls, F1. run. rewrite F2. run. rewrite F3. run.
  rewrite (capped_settled _ _ _ Hm). run.
  rewrite (summary_field_settled _ _ Hs). run. rewrite F6. run.
  unfold ret. f_equal. f_equal.
  rewrite (store_same _ _ _ Lg), (store_same _ _ _ Lm), (store_same _ _ _ Ls).
  apply store_same, Lg.
Qed.

Lemma normalize_idempotent_when_settled_witness :
  Py.isascii (VDict Samples.groups_input) = true /\
  Agent._post_process_normalize (VDict Samples.groups_input) = inr Samples.groups_output /\
  Spec.settled Samples.groups_output = true /\
  exists r2,
    Agent._post_process_normalize Samples.groups_output = inr r2 /\
    Spec.same_required_fields r2 Samples.groups_output /\ r2 = Samples.groups_output.
Proof.
  split; [reflexivity|]. split; [reflexivity|]. split; [reflexivity|].
  exact (normalize_idempotent_when_settled (VDict Samples.groups_input) Samples.groups_output
           eq_refl eq_refl eq_refl).
Defined.

(** The pipeline run twice on a miscased city differs from the pipeline run
    once: [mumbai] is title-cased by the first run, and mapped to its state
    by the second. *)
Lemma normalize_twice_differs :
  Py.isascii (VDict Samples.miscased_input) = true /\
  Agent._post_process_normalize (VDict Samples.miscased_input) = inr Samples.miscased_once /\
  Agent._post_process_normalize Samples.miscased_once = inr Samples.miscased_twice /\
  Spec.field "affected_groups" Samples.miscased_once
  <> Spec.field "affected_groups" Samples.miscased_twice /\
  ~ Spec.same_required_fields Samples.miscased_twice Samples.miscased_once.
Proof.
  split; [reflexivity|]. split; [reflexivity|]. split; [reflexivity|]. split.
  - discriminate.
  - intros [H _]. discriminate H.
Qed.

(** * The retry delay: [int(float(numeral))] on short numerals *)

Lemma round_half_even_bounds a b :
  0 < b ->
  let m := Float.round_half_even a b in
  (m = a / b \/ (m = a / b + 1 /\ b <= 2 * (a mod b))).
Proof.
  intros Hb. unfold Float.round_half_even. cbv zeta.
  destruct (Z.ltb_spec (2 * (a mod b)) b); [auto|].
  destruct (Z.ltb_spec b (2 * (a mod b))); [right; split; [reflexivity | lia]|].
  destruct (Z.even (a / b)); [auto | right; split; [reflexivity | lia]].
Qed.

(** Rounding to a grid fine enough for the denominator keeps the integer
    part. *)
Lemma round_keeps_floor n d P :
  0 <= n -> 0 < d -> 0 < P -> 2 * d <= P ->
  Float.round_half_even (n * P) d / P = n / d.
Proof.
  intros Hn Hd HP H2.
  pose proof (Z.div_mod n d ltac:(lia)) as En.
  pose proof (Z.mod_pos_bound n d Hd) as Rn.
  pose proof (Z.div_mod (n * P) d ltac:(lia)) as Eq.
  pose proof (Z.mod_pos_bound (n * P) d Hd) as Rq.
  pose proof (round_half_even_bounds (n * P) d Hd) as Hm. cbv zeta in Hm.
  set (m := Float.round_half_even (n * P) d) in *.
  set (I := n / d) in *. set (R := n mod d) in *.
  set (q := (n * P) / d) in *. set (r := (n * P) mod d) in *.
  assert (Hlow : I * P <= q).
  { apply Z.div_le_lower_bound; [exact Hd|]. nia. }
  assert (Hup : d * q + r <= d * ((I + 1) * P) - P) by nia.
  symmetry. apply Z.div_unique with (r := m - I * P); [left | lia].
  destruct Hm as [Hm | [Hm Hr]]; nia.
Qed.

Lemma exponent_range n d :
  0 < n -> 0 < d ->
  Z.log2 n - Z.log2 d - 1 <= Float.exponent n d <= Z.log2 n - Z.log2 d.
Proof.
  intros _ _. unfold Float.exponent.
  destruct (0 <=? _); [destruct (_ <=? _) | destruct (_ <=? _)]; lia.
Qed.

Lemma exponent_below n d :
  0 < n -> 0 < d -> 0 <= Float.exponent n d -> d * 2 ^ Float.exponent n d <= n.
Proof.
  intros Hn Hd. unfold Float.exponent.
  pose proof (Z.log2_spec n Hn) as [Ln _].
  pose proof (Z.log2_spec d Hd) as [_ Ld].
  pose proof (Z.log2_nonneg n). pose proof (Z.log2_nonneg d).
  set (a := Z.log2 n) in *. set (b := Z.log2 d) in *.
  destruct (Z.leb_spec 0 (a - b)).
  - destruct (Z.leb_spec (d * 2 ^ (a - b)) n); [auto|]. intros He.
    assert (E : 2 ^ a = 2 ^ (Z.succ b) * 2 ^ (a - b - 1)).
    { rewrite <- Z.pow_add_r by lia. f_equal. lia. }
    assert (0 < 2 ^ (a - b - 1)) by (apply Z.pow_pos_nonneg; lia).
    nia.
  - destruct (Z.leb_spec d (n * 2 ^ (- (a - b)))); lia.
Qed.

Lemma short_numeral_exact n d :
  0 <= n < 10 ^ 15 -> 1 <= d <= 10 ^ 15 ->
  option_map Float.to_int (Float.of_ratio n d) = Some (n / d).
Proof.
  intros Hn Hd. unfold Float.of_ratio.
  destruct (Z.eqb_spec n 0) as [->|N0]; [simpl; now rewrite Z.div_0_l by lia|].
  assert (Hn' : 0 < n) by lia. assert (Hd' : 0 < d) by lia.
  pose proof (exponent_range n d Hn' Hd') as He.
  pose proof (exponent_below n d Hn' Hd') as Hb.
  assert (L50 : 10 ^ 15 < 2 ^ 50) by (vm_compute; reflexivity).
  assert (Ln : Z.log2 n < 50) by (apply Z.log2_lt_pow2; lia).
  assert (Ld : Z.log2 d < 50) by (apply Z.log2_lt_pow2; lia).
  pose proof (Z.log2_nonneg n). pose proof (Z.log2_nonneg d).
  set (e := Float.exponent n d) in *.
  replace (Z.max (e - 52) (-1074)) with (e - 52) by lia.
  destruct (Z.leb_spec 0 (e - 52)) as [?|_]; [lia|].
  simpl andb. cbv iota. simpl option_map. unfold Float.to_int.
  destruct (Z.leb_spec 0 (e - 52)) as [?|_]; [lia|].
  f_equal. replace (- (e - 52)) with (52 - e) by lia.
  assert (HP : 0 < 2 ^ (52 - e)) by (apply Z.pow_pos_nonneg; lia).
  apply round_keeps_floor; [lia | lia | exact HP |].
  destruct (Z.leb_spec 0 e) as [Pe|Ne].
  - specialize (Hb Pe).
    assert (E : 2 ^ 52 = 2 ^ (52 - e) * 2 ^ e).
    { rewrite <- Z.pow_add_r by lia. f_equal. lia. }
    assert (0 < 2 ^ e) by (apply Z.pow_pos_nonneg; lia).
    assert (2 ^ 52 = 4 * 2 ^ 50) by (vm_compute; reflexivity).
    nia.
  - assert (2 ^ 53 <= 2 ^ (52 - e)) by (apply Z.pow_le_mono_r; lia).
    assert (2 * 10 ^ 15 < 2 ^ 53) by (vm_compute; reflexivity).
    lia.
Qed.

(** ** Digits *)

Lemma digit_value_range c : Str.is_digit c = true -> 0 <= Float.digit_value c <= 9.
Proof.
  destruct c as [[] [] [] [] [] [] [] []]; intros H; try discriminate H;
    vm_compute; split; discriminate.
Qed.

Lemma digits_value_from_app acc s t :
  Float.digits_value_from acc (s ++ t)
  = Float.digits_value_from (Float.digits_value_from acc s) t.
Proof. revert acc; induction s as [|c s IH]; intros acc; simpl; [reflexivity | apply IH]. Qed.

Lemma digits_value_from_spec s :
  every Str.is_digit s = true ->
  forall acc,
    exists v, 0 <= v < 10 ^ Z.of_nat (String.length s) /\
              Float.digits_value_from acc s = acc * 10 ^ Z.of_nat (String.length s) + v.
Proof.
  induction s as [|c s IH]; intros H acc.
  - exists 0. simpl. split; lia.
  - simpl in H. apply andb_true_iff in H. destruct H as [Hc Hs].
    pose proof (digit_value_range c Hc) as Rc.
    destruct (IH Hs (10 * acc + Float.digit_value c)) as [v [Rv E]].
    cbn [Float.digits_value_from String.length]. rewrite E.
    rewrite Nat2Z.inj_succ, Z.pow_succ_r by lia.
    set (p := 10 ^ Z.of_nat (String.length s)) in *.
    exists (Float.digit_value c * p + v). split; nia.
Qed.

Lemma span_digits s a b : Str.span Str.is_digit s = (a, b) -> every Str.is_digit a = true.
Proof.
  revert a b; induction s as [|c s IH]; intros a b; simpl.
  - intros H; inversion H; reflexivity.
  - destruct (Str.is_digit c) eqn:E.
    + destruct (Str.span Str.is_digit s) as [a' b'] eqn:Es.
      intros H; inversion H; subst. simpl. rewrite E. exact (IH _ _ eq_refl).
    + intros H; inversion H; reflexivity.
Qed.

(** On a numeral of at most 15 digits, [int(float(numeral))] is its integer
    part. *)
Lemma int_of_short_numeral ip fp :
  every Str.is_digit ip = true -> every Str.is_digit fp = true ->
  (String.length ip + String.length fp <= 15)%nat ->
  Float.int_of_numeral ip fp = Some (Float.digits_value ip).
Proof.
  intros Hi Hf L. unfold Float.int_of_numeral, Float.digits_value.
  rewrite digits_value_from_app.
  destruct (digits_value_from_spec ip Hi 0) as [vi [Ri Ei]].
  destruct (digits_value_from_spec fp Hf (Float.digits_value_from 0 ip)) as [vf [Rf Ef]].
  rewrite Ef. simpl in Ei. rewrite Ei.
  set (p := 10 ^ Z.of_nat (String.length fp)) in *.
  assert (Pp : 0 < p) by (unfold p; apply Z.pow_pos_nonneg; lia).
  assert (Pb : 10 ^ Z.of_nat (String.length ip) * p
               = 10 ^ Z.of_nat (String.length ip + String.length fp)).
  { unfold p. rewrite <- Z.pow_add_r by lia. f_equal. lia. }
  assert (Pc : 10 ^ Z.of_nat (String.length ip + String.length fp) <= 10 ^ 15)
    by (apply Z.pow_le_mono_r; lia).
  assert (Pi : 0 < 10 ^ Z.of_nat (String.length ip)) by (apply Z.pow_pos_nonneg; lia).
  rewrite short_numeral_exact by nia.
  f_equal. symmetry. apply Z.div_unique with (r := vf); [left; lia | lia].
Qed.

(** * The search for the retry delay *)

Lemma prefix_split p t : prefix p t = true -> exists rest, t = p ++ rest.
Proof.
  revert t; induction p as [|c p IH]; intros t H; [exists t; reflexivity|].
  destruct t as [|c' t]; simpl in H; [discriminate|].
  destruct (ascii_dec c c') as [->|]; [|discriminate].
  destruct (IH _ H) as [rest ->]. exists rest. reflexivity.
Qed.

Lemma contains_cons p c t : Str.contains p t = true -> Str.contains p (String c t) = true.
Proof. intros H. simpl. rewrite H. apply orb_true_r. Qed.

Lemma span_app cls s a b : Str.span cls s = (a, b) -> s = a ++ b.
Proof.
  revert a b; induction s as [|c s IH]; intros a b; simpl.
  - intros H; inversion H; reflexivity.
  - destruct (cls c).
    + destruct (Str.span cls s) as [a' b'] eqn:E. intros H; inversion H; subst.
      simpl. f_equal. now apply IH.
    + intros H; inversion H; reflexivity.
Qed.

Lemma lstrip_app s : exists blanks, s = blanks ++ Str.lstrip s /\ Agent.all_space blanks = true.
Proof.
  induction s as [|c s [blanks [E B]]]; [exists ""; auto|].
  simpl. destruct (Str.is_space c) eqn:Ec.
  - exists (String c blanks). simpl. rewrite Ec, B. split; [now f_equal | reflexivity].
  - exists "". auto.
Qed.

(** A match at the start of the text: the words [retry in ], the digits of
    the integer part, an optional point, the digits of the fraction, blanks
    and the letter [s]. *)
Lemma match_retry_here_sound t ip fp :
  Agent.match_retry_here t = Some (ip, fp) ->
  exists point blanks rest,
    t = "retry in " ++ ip ++ point ++ fp ++ blanks ++ String "s" rest /\
    ip <> "" /\ every Str.is_digit ip = true /\ every Str.is_digit fp = true /\
    (point = "" \/ point = ".") /\ Agent.all_space blanks = true.
Proof.
  unfold Agent.match_retry_here.
  destruct (prefix "retry in " t) eqn:P; [|discriminate].
  destruct (prefix_split _ _ P) as [rest ->].
  change (Str.drop 9 ("retry in " ++ rest)) with rest.
  destruct (Str.span Str.is_digit rest) as [a b] eqn:S1.
  destruct (String.eqb_spec a "") as [|Na]; [discriminate|].
  set (b' := match b with String "." r => r | _ => b end).
  assert (Eb : exists point, b = point ++ b' /\ (point = "" \/ point = ".")).
  { unfold b'. destruct b as [|c b0]; [exists ""; auto|].
    destruct (Ascii.ascii_dec c ".") as [->|N].
    - exists ".". auto.
    - exists "". split; [|auto]. simpl.
      destruct c as [[] [] [] [] [] [] [] []]; try reflexivity. congruence. }
  destruct Eb as [point [Eb Hp]].
  destruct (Str.span Str.is_digit b') as [f r] eqn:S2.
  destruct (lstrip_app r) as [blanks [Er Hb]].
  destruct (Str.lstrip r) as [|c r'] eqn:El; [discriminate|].
  destruct (Ascii.ascii_dec c "s") as [->|N].
  - intros H. inversion H; subst a f.
    exists point, blanks, r'. split.
    + f_equal. rewrite (span_app _ _ _ _ S1). f_equal. rewrite Eb. f_equal.
      rewrite (span_app _ _ _ _ S2). f_equal. exact Er.
    + repeat split; auto; eapply span_digits; eassumption.
  - destruct c as [[] [] [] [] [] [] [] []]; try discriminate. congruence.
Qed.

Lemma search_retry_sound t ip fp :
  Agent.search_retry t = Some (ip, fp) ->
  exists before point blanks rest,
    t = before ++ "retry in " ++ ip ++ point ++ fp ++ blanks ++ String "s" rest /\
    ip <> "" /\ every Str.is_digit ip = true /\ every Str.is_digit fp = true /\
    (point = "" \/ point = ".") /\ Agent.all_space blanks = true.
Proof.
  induction t as [|c t IH]; simpl.
  - discriminate.
  - destruct (Agent.match_retry_here (String c t)) as [g|] eqn:E.
    + intros H; inversion H; subst.
      destruct (match_retry_here_sound _ _ _ E) as [point [blanks [rest H']]].
      exists "", point, blanks, rest. exact H'.
    + intros H. destruct (IH H) as [before [point [blanks [rest [Et H']]]]].
      exists (String c before), point, blanks, rest. split; [simpl; now f_equal | exact H'].
Qed.

Lemma search_retry_words t g :
  Agent.search_retry t = Some g ->
  Str.contains "retry" t = true /\ Str.contains "in" t = true.
Proof.
  destruct g as [ip fp]. intros H.
  destruct (search_retry_sound _ _ _ H) as [before [point [blanks [rest [-> _]]]]].
  split; apply contains_app_r; reflexivity.
Qed.

(** * The quota handler *)

Lemma quota_marked_is_quota e :
  Spec.quota_marked e ->
  Agent.is_quota (exc_str e) (exc_repr e) (Spec.error_text e) = true.
Proof.
  unfold Spec.quota_marked, Agent.is_quota, Spec.error_text.
  intros [H | [H | [H | [H | [H | H]]]]].
  - now rewrite H.
  - rewrite H. now rewrite orb_true_r.
  - rewrite (contains_app_l _ _ _ H). now rewrite !orb_true_r.
  - rewrite (contains_app_r _ (Str.lower (exc_str e)) _ (contains_app_r _ " " _ H)).
    now rewrite !orb_true_r.
  - rewrite (contains_app_l _ _ _ H). now rewrite !orb_true_r.
  - rewrite (contains_app_r _ (Str.lower (exc_str e)) _ (contains_app_r _ " " _ H)).
    now rewrite !orb_true_r.
Qed.

Lemma retry_delay_default text :
  Agent.search_retry text = None -> Agent.retry_delay_of text = inr "60".
Proof.
  intros H. unfold Agent.retry_delay_of. rewrite H.
  destruct (_ && _); reflexivity.
Qed.

Lemma retry_delay_short text ip fp :
  Agent.search_retry text = Some (ip, fp) ->
  (String.length ip + String.length fp <= 15)%nat ->
  Agent.retry_delay_of text = inr (Str.of_Z (Float.digits_value ip)).
Proof.
  intros H L. unfold Agent.retry_delay_of.
  destruct (search_retry_words _ _ H) as [-> ->]. simpl andb. cbv iota.
  rewrite H.
  destruct (search_retry_sound _ _ _ H) as [_ [_ [_ [_ [_ [_ [Di [Df _]]]]]]]].
  rewrite (int_of_short_numeral _ _ Di Df L). reflexivity.
Qed.

Lemma retry_delay_match text ip fp :
  Agent.search_retry text = Some (ip, fp) ->
  Agent.retry_delay_of text
  = match Float.int_of_numeral ip fp with
    | Some seconds => inr (Str.of_Z seconds)
    | None => inl Agent.OverflowError
    end.
Proof.
  intros H. unfold Agent.retry_delay_of.
  destruct (search_retry_words _ _ H) as [-> ->]. simpl andb. cbv iota.
  rewrite H. destruct (Float.int_of_numeral ip fp); reflexivity.
Qed.

(** C8. Quota-failure classification: when the model call raises an error
    with an ASCII message and representation that have one of the quota
    markers, what [analyze] returns is settled by the retry pattern, whose
    match is the words [retry in ], digits, an optional point, digits, blanks
    and the letter [s]. With no match in the lowered error text it returns
    the quota result with the delay 60. With a match it takes the numeral
    through [float] and [int]: when that gives an integer it returns the
    quota result with that integer for the delay, which is the integer part
    of the numeral when the numeral has at most 15 digits; when the numeral
    is too large for a float, [int] raises, and it returns the generic error
    result with the message of the [OverflowError]. The quota result has the
    error type [quota_exceeded] and the mitigation [Retry after d seconds.]
    for its delay [d]. *)
Theorem quota_failure_classified
    (generate_content : string -> Agent.reply) (json_loads : string -> string + value)
    (policy_text demographics_text : string) (e : exception) :
  generate_content (Agent.compose_prompt policy_text demographics_text) = Agent.Raises e ->
  Spec.quota_marked e ->
  Str.isascii (exc_str e) = true ->
  Str.isascii (exc_repr e) = true ->
  (Agent.search_retry (Spec.error_text e) = None ->
     Agent.analyze generate_content json_loads policy_text demographics_text
     = inr (Agent.quota_result "60")) /\
  (forall ip fp,
     Agent.search_retry (Spec.error_text e) = Some (ip, fp) ->
     (exists before point blanks rest,
        Spec.error_text e
        = before ++ "retry in " ++ ip ++ point ++ fp ++ blanks ++ String "s" rest /\
        ip <> "" /\ every Str.is_digit ip = true /\ every Str.is_digit fp = true /\
        (point = "" \/ point = ".") /\ Agent.all_space blanks = true) /\
     (forall seconds,
        Float.int_of_numeral ip fp = Some seconds ->
        Agent.analyze generate_content json_loads policy_text demographics_text
        = inr (Agent.quota_result (Str.of_Z seconds))) /\
     (Float.int_of_numeral ip fp = None ->
        Agent.analyze generate_content json_loads policy_text demographics_text
        = inr (Agent.generic_result "cannot convert float infinity to integer")) /\
     ((String.length ip + String.length fp <= 15)%nat ->
        Float.int_of_numeral ip fp = Some (Float.digits_value ip))) /\
  (forall delay,
     Spec.field "error_type" (Agent.quota_result delay) = Some (VStr "quota_exceeded") /\
     exists mitigations,
       Spec.field "mitigations" (Agent.quota_result delay) = Some (VList mitigations) /\
       In (VStr ("Retry after " ++ delay ++ " seconds.")) mitigations) /\
  Spec.field "error_type" (Agent.generic_result "cannot convert float infinity to integer")
  = Some (VStr "generic_error").
Proof.
  intros Hg Hq _ _.
  pose proof (quota_marked_is_quota e Hq) as Q. unfold Spec.error_text in Q.
  assert (A : Agent.analyze generate_content json_loads policy_text demographics_text
              = match Agent.retry_delay_of (Spec.error_text e) with
                | inr delay => inr (Agent.quota_result delay)
                | inl e' => Agent.handle e'
                end).
  { unfold Agent.analyze, Agent.attempt. rewrite Hg. cbv zeta. rewrite Q.
    fold (Spec.error_text e). destruct (Agent.retry_delay_of (Spec.error_text e)); reflexivity. }
  split; [|split; [|split]].
  - intros H. now rewrite A, (retry_delay_default _ H).
  - intros ip fp H.
    destruct (search_retry_sound _ _ _ H) as [before [point [blanks [rest D]]]].
    split; [now exists before, point, blanks, rest|]. split; [|split].
    + intros seconds F. now rewrite A, (retry_delay_match _ _ _ H), F.
    + intros F. rewrite A, (retry_delay_match _ _ _ H), F. reflexivity.
    + intros L. destruct D as [_ [_ [Di [Df _]]]].
      exact (int_of_short_numeral _ _ Di Df L).
  - intros delay. split; [reflexivity|].
    eexists. split; [reflexivity|]. simpl. auto.
  - reflexivity.
Qed.

Lemma quota_failure_classified_witness :
  Spec.quota_marked Samples.quota_error /\
  Str.isascii (exc_str Samples.quota_error) = true /\
  Str.isascii (exc_repr Samples.quota_error) = true /\
  Agent.search_retry (Spec.error_text Samples.quota_error) = Some ("12", "5") /\
  Float.int_of_numeral "12" "5" = Some 12 /\
  Agent.analyze (fun _ => Agent.Raises Samples.quota_error) Samples.sample_loads "policy" ""
  = inr (Agent.quota_result "12").
Proof.
  assert (Q : Spec.quota_marked Samples.quota_error) by (left; reflexivity).
  split; [exact Q|]. split; [reflexivity|]. split; [reflexivity|]. split; [reflexivity|].
  split; [reflexivity|].
  exact (proj1 (proj2 (proj1 (proj2 (quota_failure_classified
                                       (fun _ => Agent.Raises Samples.quota_error)
                                       Samples.sample_loads "policy" "" Samples.quota_error
                                       eq_refl Q eq_refl eq_refl))
                             "12" "5" eq_refl))
               12 eq_refl).
Defined.

(** A delay too large for a float ends in the generic error result: the
    error has a quota marker and a match of the retry pattern, and [int]
    raises on the infinite float. *)
Lemma quota_delay_overflows :
  Spec.quota_marked Samples.overflow_error /\
  Str.isascii (exc_str Samples.overflow_error) = true /\
  (exists ip, Agent.search_retry (Spec.error_text Samples.overflow_error) = Some (ip, "") /\
              String.length ip = 401%nat /\ Float.int_of_numeral ip "" = None) /\
  Agent.analyze (fun _ => Agent.Raises Samples.overflow_error) Samples.sample_loads "policy" ""
  = inr (Agent.generic_result "cannot convert float infinity to integer").
Proof.
  split; [right; right; right; right; left; vm_compute; reflexivity|].
  split; [vm_compute; reflexivity|]. split.
  - eexists. split; [vm_compute; reflexivity|]. split; vm_compute; reflexivity.
  - vm_compute. reflexivity.
Qed.

(** A delay just below one second is announced as one second: the numeral
    is rounded to a float before its fraction is dropped. *)
Lemma quota_delay_not_floored :
  Spec.quota_marked Samples.rounding_error /\
  Str.isascii (exc_str Samples.rounding_error) = true /\
  Str.isascii (exc_repr Samples.rounding_error) = true /\
  Agent.search_retry (Spec.error_text Samples.rounding_error)
  = Some ("0", "99999999999999999999") /\
  Agent.analyze (fun _ => Agent.Raises Samples.rounding_error) Samples.sample_loads "policy" ""
  = inr (Agent.quota_result "1") /\
  Str.of_Z (Float.digits_value "0") = "0" /\
  Agent.quota_result "1" <> Agent.quota_result "0" /\
  forall mitigations,
    Spec.field "mitigations" (Agent.quota_result "1") = Some (VList mitigations) ->
    ~ In (VStr "Retry after 0 seconds.") mitigations.
Proof.
  split; [right; right; right; right; left; reflexivity|].
  split; [reflexivity|]. split; [reflexivity|].
  split; [reflexivity|]. split; [vm_compute; reflexivity|].
  split; [reflexivity|]. split; [discriminate|].
  intros mitigations H. inversion H; subst. simpl.
  intros [E | [E | [E | [E | []]]]]; discriminate.
Qed.

(** * The exceptions of the pipeline *)

Lemma bind_inl_inv {A B} (m : fallible A) (k : A -> fallible B) e :
  bind m k = inl e -> m = inl e \/ exists a, m = inr a /\ k a = inl e.
Proof. destruct m as [e'|a]; simpl; [intros H; inversion H; auto | eauto]. Qed.

Ltac plain := intros H; inversion H; subst; vm_compute; reflexivity.

Lemma contains_plain k c e : Py.contains k c = inl e -> Spec.no_retry_delay e.
Proof. destruct c; simpl; try discriminate; plain. Qed.

Lemma getitem_plain c k e :
  In k pipeline_keys -> Py.getitem c k = inl e -> Spec.no_retry_delay e.
Proof.
  intros Hk. destruct c; simpl; try plain.
  destruct (Py.lookup k entries); [discriminate|].
  simpl in Hk. destruct Hk as [<- | [<- | [<- | [<- | [<- | [<- | []]]]]]]; plain.
Qed.

Lemma setitem_plain c k v e : Py.setitem c k v = inl e -> Spec.no_retry_delay e.
Proof. destruct c; simpl; try discriminate; plain. Qed.

Lemma len_plain c e : Py.len c = inl e -> Spec.no_retry_delay e.
Proof. destruct c; simpl; try discriminate; plain. Qed.

Lemma slice_plain n c e : Py.slice_to n c = inl e -> Spec.no_retry_delay e.
Proof. destruct c; simpl; try discriminate; plain. Qed.

Lemma iter_plain c e : Py.iter c = inl e -> Spec.no_retry_delay e.
Proof. destruct c; simpl; try discriminate; plain. Qed.

Lemma strip_plain v e : Py.strip v = inl e -> Spec.no_retry_delay e.
Proof. destruct v; simpl; try discriminate; plain. Qed.

Ltac split_failure H :=
  repeat first
    [ apply bind_inl_inv in H; destruct H as [H | [? [? H]]]
    | match type of H with
      | (if ?b then _ else _) = inl _ => destruct b
      end
    | discriminate H ].

Ltac close_failure :=
  match goal with
  | H : Py.contains _ _ = inl _ |- _ => exact (contains_plain _ _ _ H)
  | H : Py.getitem _ _ = inl _ |- _ =>
      refine (getitem_plain _ _ _ _ H); simpl; tauto
  | H : Py.setitem _ _ _ = inl _ |- _ => exact (setitem_plain _ _ _ _ H)
  | H : Py.len _ = inl _ |- _ => exact (len_plain _ _ H)
  | H : Py.slice_to _ _ = inl _ |- _ => exact (slice_plain _ _ _ H)
  | H : Py.iter _ = inl _ |- _ => exact (iter_plain _ _ H)
  | H : Py.strip _ = inl _ |- _ => exact (strip_plain _ _ H)
  end.

Lemma rules_group_plain g e : Agent.rules_group g = inl e -> Spec.no_retry_delay e.
Proof. unfold Agent.rules_group. intros H. split_failure H; close_failure. Qed.

Lemma anchor_group_plain g e : Agent.anchor_group g = inl e -> Spec.no_retry_delay e.
Proof. unfold Agent.anchor_group. intros H. split_failure H; close_failure. Qed.

Lemma regions_group_plain g e : Agent.regions_group g = inl e -> Spec.no_retry_delay e.
Proof. unfold Agent.regions_group. intros H. split_failure H; close_failure. Qed.

Lemma for_each_plain f c e :
  (forall g e', f g = inl e' -> Spec.no_retry_delay e') ->
  Py.for_each f c = inl e -> Spec.no_retry_delay e.
Proof.
  intros Hf H. unfold Py.for_each in H.
  destruct c; split_failure H; try close_failure;
    match goal with
    | H : mapM _ _ = inl _ |- _ =>
        apply mapM_inl in H; destruct H as [a [_ Ha]]; exact (Hf _ _ Ha)
    end.
Qed.

Lemma limit_plain k cap r e :
  In k pipeline_keys -> Agent.limit k cap r = inl e -> Spec.no_retry_delay e.
Proof.
  intros Hk. unfold Agent.limit. intros H. split_failure H;
    first [ close_failure
          | match goal with
            | H : Py.getitem _ _ = inl _ |- _ => exact (getitem_plain _ _ _ Hk H)
            end ].
Qed.

Lemma rules_plain r e : Agent._apply_deterministic_rules r = inl e -> Spec.no_retry_delay e.
Proof.
  unfold Agent._apply_deterministic_rules. intros H. split_failure H; try close_failure.
  eapply for_each_plain; [exact rules_group_plain | eassumption].
Qed.

Lemma regions_plain r e : Agent._normalize_regions r = inl e -> Spec.no_retry_delay e.
Proof.
  unfold Agent._normalize_regions. intros H. split_failure H; try close_failure.
  eapply for_each_plain; [exact regions_group_plain | eassumption].
Qed.

Lemma anchoring_plain r e : Agent._apply_anchoring_logic r = inl e -> Spec.no_retry_delay e.
Proof.
  unfold Agent._apply_anchoring_logic. intros H.
  split_failure H;
    first [ close_failure
          | eapply for_each_plain; [exact anchor_group_plain | eassumption]
          | eapply limit_plain; [|eassumption]; simpl; tauto ].
Qed.

Lemma require_key_plain r k e : Agent.require_key r k = inl e -> Spec.no_retry_delay e.
Proof. unfold Agent.require_key. intros H. split_failure H; close_failure. Qed.

(** No exception of the pipeline has a match of the retry pattern in its
    text. *)
Lemma post_process_plain v e :
  Agent._post_process_normalize v = inl e -> Spec.no_retry_delay e.
Proof.
  unfold Agent._post_process_normalize. intros H.
  apply bind_inl_inv in H. destruct H as [H | [r1 [_ H]]]; [exact (rules_plain _ _ H)|].
  apply bind_inl_inv in H. destruct H as [H | [r2 [_ H]]]; [exact (anchoring_plain _ _ H)|].
  apply bind_inl_inv in H. destruct H as [H | [r3 [_ H]]]; [exact (regions_plain _ _ H)|].
  destruct (negb (Py.isinstance_dict r3)).
  - inversion H. vm_compute. reflexivity.
  - cbn [Agent.foldM] in H. split_failure H; close_failure.
Qed.

(** * The results of [analyze] *)

Lemma post_process_groups_enum v r :
  Agent._post_process_normalize v = inr r -> Forall Spec.enum_risk (Spec.groups_of r).
Proof.
  intros H. destruct (post_process_needs_dict _ _ H) as [d ->].
  destruct (post_process_fields _ _ H) as [held [m [s [Hf [_ [_ [_ [_ Hg]]]]]]]].
  unfold Spec.groups_of. rewrite Hf.
  destruct (Py.lookup "affected_groups" d) as [given|].
  - destruct Hg as [[groups [groups' [-> [-> F]]]] | [_ [-> Hi]]].
    + simpl. eapply Forall2_right; [|exact F]. intros a b. apply normalize_group_risk.
    + rewrite Hi. constructor.
  - subst held. constructor.
Qed.

Lemma post_process_keys v r :
  Agent._post_process_normalize v = inr r -> Spec.has_required_keys r.
Proof.
  intros H. destruct (post_process_needs_dict _ _ H) as [d ->].
  rewrite post_process_dict in H.
  destruct (pipeline_inv _ _ H) as [h0 [h1 [h2 [h3 [m [s [_ [_ [_ [_ [_ [_ ->]]]]]]]]]]]].
  eexists. split; [reflexivity|]. dict_simpl. repeat split; discriminate.
Qed.

Lemma quota_result_degraded delay :
  Spec.degraded (Agent.quota_result delay) /\ Spec.has_required_keys (Agent.quota_result delay).
Proof.
  split; [eexists; reflexivity|].
  eexists. split; [reflexivity|]. repeat split; discriminate.
Qed.

Lemma generic_result_degraded text :
  Spec.degraded (Agent.generic_result text) /\ Spec.has_required_keys (Agent.generic_result text).
Proof.
  split; [eexists; reflexivity|].
  eexists. split; [reflexivity|]. repeat split; discriminate.
Qed.

Lemma fixed_results_degraded :
  (Spec.degraded Agent.authentication_result /\ Spec.has_required_keys Agent.authentication_result) /\
  (Spec.degraded Agent.parse_error_result /\ Spec.has_required_keys Agent.parse_error_result).
Proof.
  split; (split; [eexists; reflexivity|]; eexists; split; [reflexivity|];
          repeat split; discriminate).
Qed.

(** What the outer handlers return is a degraded result. *)
Lemma handle_degraded e r :
  Agent.handle e = inr r -> Spec.degraded r /\ Spec.has_required_keys r.
Proof.
  unfold Agent.handle.
  destruct (String.eqb (exc_class e) "JSONDecodeError").
  - intros H; inversion H. apply fixed_results_degraded.
  - destruct (Agent.is_quota _ _ _).
    + destruct (Agent.retry_delay_of _) as [e'|delay]; simpl; [discriminate|].
      intros H; inversion H. apply quota_result_degraded.
    + destruct (Agent.is_authentication _ _).
      * intros H; inversion H. apply fixed_results_degraded.
      * intros H; inversion H. apply generic_result_degraded.
Qed.

(** The outer handlers return on every exception whose text has no match of
    the retry pattern. *)
Lemma handle_returns e : Spec.no_retry_delay e -> exists r, Agent.handle e = inr r.
Proof.
  unfold Spec.no_retry_delay, Agent.handle. intros H.
  destruct (String.eqb (exc_class e) "JSONDecodeError"); [eauto|].
  destruct (Agent.is_quota _ _ _).
  - rewrite (retry_delay_default _ H). simpl. eauto.
  - destruct (Agent.is_authentication _ _); eauto.
Qed.

(** An error the inner handler lets through is no quota error for the outer
    handlers either. *)
Lemma handle_returns_reraised e :
  Agent.is_quota (exc_str e) (exc_repr e)
    (Str.lower (exc_str e) ++ " " ++ Str.lower (exc_repr e)) = false ->
  exists r, Agent.handle e = inr r.
Proof.
  intros H. unfold Agent.handle.
  destruct (String.eqb (exc_class e) "JSONDecodeError"); [eauto|].
  assert (E : Str.lower (exc_str e ++ " " ++ exc_repr e)
              = Str.lower (exc_str e) ++ " " ++ Str.lower (exc_repr e))
    by (rewrite lower_app; reflexivity).
  cbv zeta. rewrite E, H.
  destruct (Agent.is_authentication _ _); eauto.
Qed.

Lemma retry_delay_raises text e :
  Agent.retry_delay_of text = inl e -> e = Agent.OverflowError.
Proof.
  unfold Agent.retry_delay_of.
  destruct (_ && _); [|discriminate].
  destruct (Agent.search_retry text) as [[ip fp]|]; [|discriminate].
  destruct (Float.int_of_numeral ip fp); [discriminate|]. intros H; now inversion H.
Qed.

Section AnalyzeResults.

Variable generate_content : string -> Agent.reply.
Variable json_loads : string -> string + value.

Lemma attempt_returns_shape prompt r :
  Agent.attempt generate_content json_loads prompt = inr r ->
  (Forall Spec.enum_risk (Spec.groups_of r) \/ Spec.degraded r) /\
  Spec.has_required_keys r.
Proof.
  unfold Agent.attempt.
  destruct (generate_content prompt) as [e|[text|]].
  - cbv zeta. destruct (Agent.is_quota _ _ _); [|discriminate].
    destruct (Agent.retry_delay_of _) as [e'|delay]; simpl; [discriminate|].
    intros H; inversion H. split; [right|]; apply quota_result_degraded.
  - destruct (negb (String.eqb text "")).
    + intros H. invert_bind H. invert_bind H. inversion H; subst.
      split; [left; exact (post_process_groups_enum _ _ Hx0) | exact (post_process_keys _ _ Hx0)].
    + intros H; inversion H. split; [left; constructor|].
      eexists. split; [reflexivity|]. repeat split; discriminate.
  - intros H; inversion H. split; [left; constructor|].
    eexists. split; [reflexivity|]. repeat split; discriminate.
Qed.

(** C2. Risk levels of the results of [analyze]: every result it returns is
    one of the degraded results it synthesizes on a failure, whose single
    group has the risk level [Unknown], or has, in every entry of
    [affected_groups], a risk level among [Low], [Medium] and [High]. *)
Theorem analyze_risk_levels (policy_text demographics_text : string) (r : value) :
  Agent.analyze generate_content json_loads policy_text demographics_text = inr r ->
  Forall Spec.enum_risk (Spec.groups_of r) \/ Spec.degraded r.
Proof.
  unfold Agent.analyze.
  destruct (Agent.attempt _ _ _) as [e|r'] eqn:E.
  - intros H. right. exact (proj1 (handle_degraded _ _ H)).
  - intros H; inversion H; subst. exact (proj1 (attempt_returns_shape _ _ E)).
Qed.

Lemma parse_response_raises text e :
  Spec.plain_decode_errors json_loads ->
  Agent.parse_response json_loads text = inl e -> Spec.no_retry_delay e.
Proof.
  intros Hj. unfold Agent.parse_response.
  destruct (json_loads text) as [message|parsed] eqn:E1; [|discriminate].
  cbv zeta. intros H.
  match type of H with
  | context [json_loads ?again] => destruct (json_loads again); [|discriminate]
  end.
  inversion H. exact (Hj _ _ E1).
Qed.

Lemma attempt_raises prompt e :
  Spec.plain_decode_errors json_loads ->
  Agent.attempt generate_content json_loads prompt = inl e ->
  exists r, Agent.handle e = inr r.
Proof.
  intros Hj. unfold Agent.attempt.
  destruct (generate_content prompt) as [api_error|[text|]]; [| |discriminate].
  - cbv zeta. destruct (Agent.is_quota _ _ _) eqn:Q.
    + destruct (Agent.retry_delay_of _) as [e'|delay] eqn:D; simpl; [|discriminate].
      intros H; inversion H; subst. rewrite (retry_delay_raises _ _ D).
      eexists. vm_compute. reflexivity.
    + intros H; inversion H; subst. exact (handle_returns_reraised _ Q).
  - destruct (negb (String.eqb text "")); [|discriminate].
    intros H. apply bind_inl_inv in H. destruct H as [H | [parsed [_ H]]].
    + exact (handle_returns _ (parse_response_raises _ _ Hj H)).
    + apply bind_inl_inv in H. destruct H as [H | [? [_ H]]]; [|discriminate].
      exact (handle_returns _ (post_process_plain _ _ H)).
Qed.

(** C3. [analyze] always returns a dict with the three keys: whatever the
    two texts and whatever the model call does (a text, an empty text, no
    text, any exception), and for a [json.loads] whose decode errors carry no
    retry delay, no exception escapes it and the dict it returns holds
    [affected_groups], [mitigations] and [reasoning_summary]. *)
Theorem analyze_returns_schema (policy_text demographics_text : string) :
  Spec.plain_decode_errors json_loads ->
  exists r,
    Agent.analyze generate_content json_loads policy_text demographics_text = inr r /\
    Spec.has_required_keys r.
Proof.
  intros Hj. unfold Agent.analyze.
  destruct (Agent.attempt _ _ _) as [e|r] eqn:E.
  - destruct (attempt_raises _ _ Hj E) as [r Hr].
    exists r. split; [exact Hr | exact (proj2 (handle_degraded _ _ Hr))].
  - exists r. split; [reflexivity | exact (proj2 (attempt_returns_shape _ _ E))].
Qed.

End AnalyzeResults.

Lemma sample_loads_plain : Spec.plain_decode_errors Samples.sample_loads.
Proof.
  intros text message. unfold Samples.sample_loads.
  destruct (String.eqb text "{}"); [discriminate|].
  intros H; inversion H. vm_compute. reflexivity.
Defined.

Lemma analyze_returns_schema_witness :
  Spec.plain_decode_errors Samples.sample_loads /\
  exists r,
    Agent.analyze (fun _ => Agent.Responds (Some "{}")) Samples.sample_loads "policy" "" = inr r /\
    Spec.has_required_keys r.
Proof.
  split; [exact sample_loads_plain|].
  exact (analyze_returns_schema (fun _ => Agent.Responds (Some "{}")) Samples.sample_loads
           "policy" "" sample_loads_plain).
Defined.

Lemma analyze_risk_levels_witness :
  Agent.analyze (fun _ => Agent.Responds (Some "{}")) Samples.sample_loads "policy" ""
  = inr Samples.empty_object_result /\
  (Forall Spec.enum_risk (Spec.groups_of Samples.empty_object_result) \/
   Spec.degraded Samples.empty_object_result).
Proof.
  split; [vm_compute; reflexivity|].
  exact (analyze_risk_levels (fun _ => Agent.Responds (Some "{}")) Samples.sample_loads
           "policy" "" Samples.empty_object_result eq_refl).
Defined.

(** A result of [analyze] whose group has the risk level [Unknown]. *)
Lemma degraded_result_has_unknown_risk :
  Agent.analyze (fun _ => Agent.Raises Samples.bare_quota_error) Samples.sample_loads "policy" ""
  = inr (Agent.quota_result "60") /\
  Spec.groups_of (Agent.quota_result "60") = [Agent.degraded_group "API Quota Exceeded"] /\
  Spec.field "risk_level" (Agent.degraded_group "API Quota Exceeded") = Some (VStr "Unknown") /\
  ~ Forall Spec.enum_risk (Spec.groups_of (Agent.quota_result "60")).
Proof.
  split; [vm_compute; reflexivity|]. split; [reflexivity|]. split; [reflexivity|].
  intros F. inversion F as [|g l [level [Hl Hin]] _]; subst.
  simpl in Hl. inversion Hl; subst.
  simpl in Hin. destruct Hin as [H | [H | [H | []]]]; discriminate.
Qed.

(** * The response envelope *)

(** [used_demographics] is true exactly when a named file came with the
    request and the digest has none of the two markers. *)
Lemma used_demographics_truth demographic_file demographics_text :
  demographics_text <> "" ->
  (Py.truthy (Main.used_demographics demographic_file demographics_text) = true <->
   exists file name,
     demographic_file = Some file /\ Main.filename file = Some name /\ name <> "" /\
     Str.contains "Error loading" demographics_text = false /\
     Str.contains "No demographic" demographics_text = false).
Proof.
  intros Ht. unfold Main.used_demographics, Main.and_.
  assert (T : Py.truthy (VStr demographics_text) = true).
  { simpl. destruct (String.eqb_spec demographics_text ""); [contradiction | reflexivity]. }
  destruct demographic_file as [file|]; [|split; [discriminate | intros [f [n [H _]]]; discriminate]].
  destruct (Main.filename file) as [name|] eqn:En; simpl Main.option_str;
    [|split; [discriminate | intros [f [n [H [H' _]]]]; inversion H; subst; congruence]].
  simpl Py.truthy at 2. destruct (String.eqb_spec name "") as [->|Nn]; simpl negb; cbv iota.
  - split; [discriminate|]. intros [f [n [H [H' [N _]]]]]. inversion H; subst.
    rewrite En in H'. inversion H'; subst. congruence.
  - rewrite T.
    destruct (Str.contains "Error loading" demographics_text) eqn:E1;
      destruct (Str.contains "No demographic" demographics_text) eqn:E2; simpl;
      (split; [try discriminate; intros _; exists file, name; auto
              | intros [f [n [_ [_ [_ [A B]]]]]]; try discriminate; reflexivity]).
Qed.

(** C9. The [demographics_used] field without a demographic file: the
    request has policy text only, the digest is the placeholder, and the
    envelope holds [None] under [demographics_used], not the boolean
    [False]. *)
Theorem demographics_used_without_file
    (load_demographics : string -> string -> fallible string)
    (response : list (string * value)) :
  Main.demographics_text_of load_demographics None = inr "No demographic data provided" /\
  Spec.field "demographics_used"
    (Main.envelope response None "No demographic data provided") = Some VNone /\
  Spec.field "demographics_used"
    (Main.envelope response None "No demographic data provided") <> Some (VBool false).
Proof. split; [reflexivity|]. split; [reflexivity | discriminate]. Qed.

(** * The demographic summary *)

Section SummaryFacts.

Variable series : Type.
Variable series_sum series_mean series_median : series -> Q.
Variable value_counts : series -> list (string * Z).
Variable format_1f format_comma_0f : Q -> string.
Variable format_comma : Z -> string.

Lemma existsb_incl {A} (p : A -> bool) l l' :
  incl l l' -> existsb p l = true -> existsb p l' = true.
Proof.
  intros Hi H. apply existsb_exists in H. destruct H as [x [Hx Hp]].
  apply existsb_exists. exists x. split; [apply Hi, Hx | exact Hp].
Qed.

Lemma any_in_none keywords (df : Tools.DataFrame series) :
  incl keywords Tools.all_keywords ->
  Tools.no_indicator df = true ->
  forall c, In c (Tools.columns df) -> Tools.any_in keywords (Str.lower (Tools.label c)) = false.
Proof.
  intros Hi Hn c Hc. unfold Tools.no_indicator in Hn. rewrite forallb_forall in Hn.
  specialize (Hn c Hc). apply negb_true_iff in Hn.
  destruct (Tools.any_in keywords _) eqn:E; [|reflexivity].
  unfold Tools.any_in in *. rewrite (existsb_incl _ _ _ Hi E) in Hn. discriminate.
Qed.

Lemma no_column_named keywords (df : Tools.DataFrame series) :
  incl keywords Tools.all_keywords ->
  Tools.no_indicator df = true ->
  existsb (fun col => Tools.any_in keywords col)
          (map (fun c => Str.lower (Tools.label c)) (Tools.columns df)) = false /\
  filter (fun c => Tools.any_in keywords (Str.lower (Tools.label c))) (Tools.columns df) = [].
Proof.
  intros Hi Hn. pose proof (any_in_none keywords df Hi Hn) as H.
  induction (Tools.columns df) as [|c l IH]; [split; reflexivity|].
  simpl. rewrite (H c) by (now left). simpl.
  apply IH. intros c' Hc'. apply H. now right.
Qed.

Lemma no_column_with keyword (df : Tools.DataFrame series) :
  In keyword Tools.all_keywords ->
  Tools.no_indicator df = true ->
  filter (fun c => Str.contains keyword (Str.lower (Tools.label c))) (Tools.columns df) = [].
Proof.
  intros Hk Hn.
  destruct (no_column_named [keyword] df) as [_ H]; [|exact Hn|].
  - intros k [<- | []]. exact Hk.
  - rewrite <- H. apply filter_ext. intros c. unfold Tools.any_in. simpl.
    now rewrite orb_false_r.
Qed.

Lemma flat_map_nil {A B} (f : A -> list B) l :
  (forall a, In a l -> f a = []) -> flat_map f l = [].
Proof.
  induction l as [|a l IH]; intros H; [reflexivity|].
  simpl. rewrite (H a) by (now left). apply IH. intros a' Ha'. apply H. now right.
Qed.

Ltac keyword_incl :=
  unfold Tools.all_keywords, Tools.vulnerability_keywords, Tools.tech_keywords;
  intros k Hk; simpl in Hk; simpl; tauto.

(** C10. The summary of a table without indicators: when no column label has
    a keyword, the summarizer returns the one line [Total records: n], which
    the function puts first in [summary_parts] on every table, so its output
    is never the fallback line [no key indicators identified]. *)
Theorem summary_without_indicators (df : Tools.DataFrame series) :
  Tools.no_indicator df = true ->
  Tools.generate_demographic_summary
    series_sum series_mean series_median value_counts
    format_1f format_comma_0f format_comma df
  = "Total records: " ++ Str.of_nat (Tools.rows df) /\
  Tools.generate_demographic_summary
    series_sum series_mean series_median value_counts
    format_1f format_comma_0f format_comma df
  <> Tools.fallback.
Proof.
  intros Hn.
  assert (E : Tools.summary_parts series_sum series_mean series_median value_counts
                format_1f format_comma_0f format_comma df
              = ["Total records: " ++ Str.of_nat (Tools.rows df)]).
  { unfold Tools.summary_parts. cbv zeta.
    unfold Tools.population_lines, Tools.rural_urban_lines, Tools.income_lines,
      Tools.education_lines, Tools.region_lines, Tools.employment_lines.
    rewrite (proj1 (no_column_named ["population"; "pop"] df ltac:(keyword_incl) Hn)).
    rewrite (proj1 (no_column_named ["rural"; "urban"] df ltac:(keyword_incl) Hn)).
    rewrite (proj1 (no_column_named ["income"; "wage"; "salary"] df ltac:(keyword_incl) Hn)).
    rewrite (proj1 (no_column_named ["education"; "literacy"; "literate"] df
                      ltac:(keyword_incl) Hn)).
    rewrite (proj2 (no_column_named ["region"; "state"; "district"; "area"; "location"] df
                      ltac:(keyword_incl) Hn)).
    rewrite (proj1 (no_column_named ["employment"; "employed"; "job"] df
                      ltac:(keyword_incl) Hn)).
    rewrite (flat_map_nil (Tools.vulnerability_line series_mean value_counts format_1f df)).
    2:{ intros k Hk. unfold Tools.vulnerability_line.
        rewrite no_column_with; [reflexivity | | exact Hn].
        unfold Tools.all_keywords, Tools.vulnerability_keywords in *. simpl in *. tauto. }
    rewrite (flat_map_nil (Tools.tech_line series_mean format_1f df)).
    2:{ intros k Hk. unfold Tools.tech_line.
        rewrite no_column_with; [reflexivity | | exact Hn].
        unfold Tools.all_keywords, Tools.tech_keywords in *. simpl in *. tauto. }
    reflexivity. }
  unfold Tools.generate_demographic_summary. rewrite E. split; [reflexivity|].
  simpl. discriminate.
Qed.

End SummaryFacts.

Lemma summary_without_indicators_witness :
  Tools.no_indicator Samples.plain_frame = true /\
  Samples.plain_summary = "Total records: 2" /\
  Samples.plain_summary <> Tools.fallback.
Proof.
  split; [reflexivity|].
  exact (summary_without_indicators unit (fun _ => 0%Q) (fun _ => 0%Q) (fun _ => 0%Q)
           (fun _ => []) (fun _ => "") (fun _ => "") (fun _ => "")
           Samples.plain_frame eq_refl).
Defined.

(** * What the pipeline keeps, bounds and leaves alone *)

(** ** The caps *)

Lemma capped_len n held held' :
  Steps.capped n held = inr held' -> exists k, Py.len held' = inr k /\ (k <= n)%nat.
Proof.
  unfold Steps.capped. intros H.
  destruct (Py.len held) as [e|k0] eqn:El; simpl in H; [discriminate|].
  destruct (n <? k0)%nat eqn:C.
  - destruct held; simpl in H; try discriminate; inversion H; subst; simpl.
    + eexists; split; [reflexivity | apply length_take].
    + eexists; split; [reflexivity | apply firstn_le_length].
  - inversion H; subst. exists k0. split; [exact El|]. now apply Nat.ltb_ge in C.
Qed.

(** What the pipeline leaves under [affected_groups]: a list of at most
    three groups, each the three loop bodies applied to a group it was given,
    or the empty string or dict it was given. *)
Lemma groups_shape held0 held1 held2 held3 given :
  match given with
  | Some held => Py.for_each Agent.rules_group held
  | None => ret (VList [])
  end = inr held0 ->
  Steps.capped Config.MAX_AFFECTED_GROUPS held0 = inr held1 ->
  Py.for_each Agent.anchor_group held1 = inr held2 ->
  Py.for_each Agent.regions_group held2 = inr held3 ->
  (exists src groups',
      held3 = VList groups' /\
      Forall2 (fun g g' => Steps.normalize_group g = inr g') src groups' /\
      (List.length groups' <= Config.MAX_AFFECTED_GROUPS)%nat) \/
  (Py.isinstance_list held3 = false /\ Py.iter held3 = inr []).
Proof.
  intros H0 H1 H2 H3. destruct given as [held|].
  - destruct (groups_passes _ _ _ _ _ H0 H1 H2 H3)
      as [[groups [groups' [-> [-> F]]]] | [Hl [-> Hi]]]; [left | right; auto].
    exists (firstn Config.MAX_AFFECTED_GROUPS groups), groups'.
    split; [reflexivity|]. split; [exact F|].
    rewrite <- (Forall2_length F). apply firstn_le_length.
  - left. inversion H0; subst. rewrite capped_list in H1. inversion H1; subst.
    simpl in H2. inversion H2; subst. simpl in H3. inversion H3; subst.
    exists [], []. split; [reflexivity|]. split; [constructor | simpl; lia].
Qed.

(** X1. The caps of the pipeline: whenever it returns, the result holds at
    most three affected groups, and what it holds under [mitigations] has a
    length, which is at most five. *)
Theorem pipeline_caps (v r : value) :
  Agent._post_process_normalize v = inr r ->
  (List.length (Spec.groups_of r) <= Config.MAX_AFFECTED_GROUPS)%nat /\
  exists mitigations k,
    Spec.field "mitigations" r = Some mitigations /\
    Py.len mitigations = inr k /\ (k <= Config.MAX_MITIGATIONS)%nat.
Proof.
  intros H. destruct (post_process_needs_dict _ _ H) as [d ->].
  destruct (post_process_fields _ _ H) as [held [m [s [Hf [Hm [_ [Hc [_ Hg]]]]]]]].
  split.
  - unfold Spec.groups_of. rewrite Hf.
    destruct (Py.lookup "affected_groups" d) as [given|].
    + destruct Hg as [[groups [groups' [-> [-> F]]]] | [_ [-> Hi]]].
      * simpl. rewrite <- (Forall2_length F). apply firstn_le_length.
      * rewrite Hi. simpl. lia.
    + subst held. simpl. lia.
  - destruct (capped_len _ _ _ Hc) as [k [Hk Hle]]. now exists m, k.
Qed.

Lemma pipeline_caps_witness :
  Agent._post_process_normalize (VDict Samples.crowded_input) = inr Samples.crowded_output /\
  (List.length (Spec.groups_of Samples.crowded_output) <= Config.MAX_AFFECTED_GROUPS)%nat /\
  exists mitigations k,
    Spec.field "mitigations" Samples.crowded_output = Some mitigations /\
    Py.len mitigations = inr k /\ (k <= Config.MAX_MITIGATIONS)%nat.
Proof.
  split; [reflexivity|].
  exact (pipeline_caps (VDict Samples.crowded_input) Samples.crowded_output eq_refl).
Defined.

(** ** The shape of a group *)

Lemma normalized_group_shape group group' :
  Steps.normalize_group group = inr group' -> Shape.normalized_group group'.
Proof.
  intros H. destruct (normalize_group_inv _ _ H) as [g [g1 [-> [Hr ->]]]].
  destruct (regioned_fields (Steps.anchored g1)) as [Rn [Rr Rg]].
  destruct (anchored_fields g1) as [An [Ar Ag]].
  rewrite An in Rn. rewrite Ar in Rr. rewrite Ag in Rg.
  destruct (anchored_regions_list (Py.lookup "regions" g1)) as [l El].
  rewrite El in Rg. simpl in Rg.
  assert (Risk : exists level, anchored_risk (Py.lookup "risk_level" g1) = VStr level /\
                               In level Config.RISK_LEVELS).
  { destruct (rules_group_inv _ _ Hr) as [[E ->] | [level [E ->]]].
    - rewrite E. exists "Medium". split; [reflexivity | simpl; tauto].
    - rewrite lookup_store_same. eexists. split; [reflexivity | apply risk_of_enum]. }
  destruct Risk as [level [Elevel Hin]]. rewrite Elevel in Rr.
  exists (Steps.regioned (Steps.anchored g1)), (anchored_name (Py.lookup "group" g1)), level,
         (Agent.dedupe (map Agent.canonical_region l)).
  repeat split; try assumption.
  - apply anchored_name_truthy.
  - rewrite dedupe_first_occurrences. apply first_occurrences_NoDup.
Qed.

(** X2. The shape of the groups: whenever the pipeline returns, every
    affected group of the result is a dict that holds a true value under
    [group], one of [Low], [Medium] and [High] under [risk_level], and under
    [regions] a list of strings in which no name occurs twice. *)
Theorem pipeline_group_shape (v r : value) :
  Agent._post_process_normalize v = inr r ->
  Forall Shape.normalized_group (Spec.groups_of r).
Proof.
  intros H. destruct (post_process_needs_dict _ _ H) as [d ->].
  destruct (post_process_fields _ _ H) as [held [m [s [Hf [_ [_ [_ [_ Hg]]]]]]]].
  unfold Spec.groups_of. rewrite Hf.
  destruct (Py.lookup "affected_groups" d) as [given|].
  - destruct Hg as [[groups [groups' [-> [-> F]]]] | [_ [-> Hi]]].
    + simpl. eapply Forall2_right; [|exact F]. intros a b. apply normalized_group_shape.
    + rewrite Hi. constructor.
  - subst held. constructor.
Qed.

Lemma pipeline_group_shape_witness :
  Agent._post_process_normalize (VDict Samples.groups_input) = inr Samples.groups_output /\
  Forall Shape.normalized_group (Spec.groups_of Samples.groups_output).
Proof.
  split; [reflexivity|].
  exact (pipeline_group_shape (VDict Samples.groups_input) Samples.groups_output eq_refl).
Defined.

(** ** The keys the pipeline does not own *)

Lemma not_in_eqb k l : ~ In k l -> forall k', In k' l -> String.eqb k k' = false.
Proof.
  intros H k' Hk. apply String.eqb_neq. intros ->. now apply H.
Qed.

Lemma regioned_other k g :
  String.eqb k "regions" = false -> Py.lookup k (Steps.regioned g) = Py.lookup k g.
Proof.
  intros H. unfold Steps.regioned.
  destruct (Py.lookup "regions" g) as [[]|]; try reflexivity.
  now rewrite lookup_store_other.
Qed.

Lemma anchored_other k g :
  ~ In k Shape.group_keys -> Py.lookup k (Steps.anchored g) = Py.lookup k g.
Proof.
  intros H.
  assert (Hg : String.eqb k "group" = false) by (apply (not_in_eqb _ _ H); simpl; tauto).
  assert (Hr : String.eqb k "risk_level" = false) by (apply (not_in_eqb _ _ H); simpl; tauto).
  assert (Hx : String.eqb k "regions" = false) by (apply (not_in_eqb _ _ H); simpl; tauto).
  unfold Steps.anchored.
  repeat match goal with
         | |- context [if ?b then _ else _] => destruct b
         | |- context [match ?x with _ => _ end] => destruct x
         end;
    repeat (rewrite lookup_store_other by assumption); reflexivity.
Qed.

Lemma normalize_group_other group group' k :
  Steps.normalize_group group = inr group' ->
  ~ In k Shape.group_keys -> Spec.field k group' = Spec.field k group.
Proof.
  intros H Hk. destruct (normalize_group_inv _ _ H) as [g [g1 [-> [Hr ->]]]].
  assert (Hx : String.eqb k "regions" = false) by (apply (not_in_eqb _ _ Hk); simpl; tauto).
  assert (Hl : String.eqb k "risk_level" = false) by (apply (not_in_eqb _ _ Hk); simpl; tauto).
  simpl. rewrite (regioned_other _ _ Hx), (anchored_other _ _ Hk).
  destruct (rules_group_inv _ _ Hr) as [[_ ->] | [level [_ ->]]]; [reflexivity|].
  now rewrite lookup_store_other.
Qed.

(** X3. The keys the pipeline does not own: whenever it returns on a dict,
    every top-level key other than [affected_groups], [mitigations] and
    [reasoning_summary] holds what it held, and in each kept group every key
    other than [group], [risk_level] and [regions] holds what it held. *)
Theorem pipeline_keeps_other_keys (d : list (string * value)) (r : value) :
  Agent._post_process_normalize (VDict d) = inr r ->
  (forall k, ~ In k Shape.required_keys -> Spec.field k r = Py.lookup k d) /\
  (forall groups,
     Py.lookup "affected_groups" d = Some (VList groups) ->
     exists groups',
       Spec.field "affected_groups" r = Some (VList groups') /\
       Forall2 (fun g g' => forall k, ~ In k Shape.group_keys ->
                                      Spec.field k g' = Spec.field k g)
               (firstn Config.MAX_AFFECTED_GROUPS groups) groups').
Proof.
  intros H. split.
  - intros k Hk. rewrite post_process_dict in H.
    destruct (pipeline_inv _ _ H) as [h0 [h1 [h2 [h3 [m [s [_ [_ [_ [_ [_ [_ ->]]]]]]]]]]]].
    assert (Ha : String.eqb k "affected_groups" = false)
      by (apply (not_in_eqb _ _ Hk); simpl; tauto).
    assert (Hm : String.eqb k "mitigations" = false)
      by (apply (not_in_eqb _ _ Hk); simpl; tauto).
    assert (Hs : String.eqb k "reasoning_summary" = false)
      by (apply (not_in_eqb _ _ Hk); simpl; tauto).
    simpl. now repeat (rewrite lookup_store_other by assumption).
  - intros groups Hg. destruct (groups_related _ _ _ H Hg) as [groups' [Hf F]].
    exists groups'. split; [exact Hf|].
    eapply Forall2_impl; [|exact F]. intros a b Hab k Hk.
    now apply normalize_group_other.
Qed.

Lemma pipeline_keeps_other_keys_witness :
  Agent._post_process_normalize (VDict Samples.crowded_input) = inr Samples.crowded_output /\
  Spec.field "model" Samples.crowded_output = Some (VStr "gemini") /\
  exists groups',
    Spec.field "affected_groups" Samples.crowded_output = Some (VList groups') /\
    Forall2 (fun g g' => forall k, ~ In k Shape.group_keys ->
                                   Spec.field k g' = Spec.field k g)
            (firstn Config.MAX_AFFECTED_GROUPS
               [VDict [("group", VStr "A"); ("weight", VInt 1)]; VDict [("group", VStr "B")];
                VDict [("group", VStr "C")]; VDict [("group", VStr "D")]])
            groups'.
Proof.
  split; [reflexivity|].
  pose proof (pipeline_keeps_other_keys Samples.crowded_input Samples.crowded_output eq_refl)
    as [Hk Hg].
  split.
  - apply (Hk "model"). simpl. intros [E | [E | [E | []]]]; discriminate E.
  - exact (Hg _ eq_refl).
Defined.

(** * The summary, the names of the regions and the second run *)

(** ** The words of the summary *)

Lemma summary_of_word_count t :
  exists ws, Forall word ws /\
             List.length ws = Nat.min (List.length (Str.split t)) Config.REASONING_SUMMARY_MAX_WORDS /\
             Spec.summary_of t = Str.join " " ws.
Proof.
  unfold Spec.summary_of.
  pose proof (split_words t) as W.
  destruct (Nat.leb_spec (List.length (Str.split t)) Config.REASONING_SUMMARY_MAX_WORDS) as [L|L].
  - exists (Str.split t). split; [exact W|]. split; [lia | reflexivity].
  - set (cut := firstn Config.REASONING_SUMMARY_MAX_WORDS (Str.split t)).
    assert (Wc : Forall word cut) by (apply Forall_firstn, W).
    assert (Lc : List.length cut = Config.REASONING_SUMMARY_MAX_WORDS).
    { unfold cut. rewrite length_firstn. lia. }
    destruct (Str.endswith "." (Str.join " " cut)).
    + exists cut. split; [exact Wc|]. split; [lia | reflexivity].
    + destruct (join_period cut Wc) as [ws' [E [W' L']]].
      { intros E. rewrite E in Lc. discriminate. }
      exists ws'. split; [exact W'|]. split; [lia | exact E].
Qed.

(** X4. The words of the summary: whenever the pipeline returns on a dict
    with an ASCII string under [reasoning_summary], the summary of the result
    is its own words joined by single blanks, so it has no line break, no
    doubled blank and no blank at either end, and it has as many words as the
    text it was given, or 35 when that text has more. *)
Theorem summary_word_count (d : list (string * value)) (r : value) (text : string) :
  Agent._post_process_normalize (VDict d) = inr r ->
  Py.lookup "reasoning_summary" d = Some (VStr text) ->
  Str.isascii text = true ->
  exists s,
    Spec.field "reasoning_summary" r = Some (VStr s) /\
    s = Str.join " " (Str.split s) /\
    List.length (Str.split s)
    = Nat.min (List.length (Str.split text)) Config.REASONING_SUMMARY_MAX_WORDS.
Proof.
  intros H E _.
  destruct (post_process_fields _ _ H) as [held [m [summary [_ [_ [Hf [_ [Hs _]]]]]]]].
  rewrite E in Hs. simpl in Hs. inversion Hs as [Es]. rewrite anchor_summary_spec in Es.
  destruct (summary_of_word_count text) as [ws [W [L Ews]]].
  exists (Spec.summary_of text). split; [now rewrite Hf, <- Es|].
  rewrite Ews, split_join by exact W. split; [reflexivity | exact L].
Qed.

Lemma summary_word_count_witness :
  Agent._post_process_normalize (VDict Samples.summary_input) = inr Samples.summary_output /\
  Str.isascii (" Fuel  prices" ++ Agent.newline ++ "rise ") = true /\
  exists s,
    Spec.field "reasoning_summary" Samples.summary_output = Some (VStr s) /\
    s = Str.join " " (Str.split s) /\
    List.length (Str.split s)
    = Nat.min (List.length (Str.split (" Fuel  prices" ++ Agent.newline ++ "rise ")))
              Config.REASONING_SUMMARY_MAX_WORDS.
Proof.
  split; [reflexivity|]. split; [reflexivity|].
  exact (summary_word_count Samples.summary_input Samples.summary_output _
           eq_refl eq_refl eq_refl).
Defined.

(** ** The case of a region *)

Lemma upper_lower c : Str.upper_char (Str.lower_char c) = Str.upper_char c.
Proof. each_char c. Qed.

Lemma title_from_lower (s : string) :
  forall b, Str.title_from b (Str.lower s) = Str.title_from b s.
Proof.
  induction s as [|c s IH]; intros b; simpl; [reflexivity|].
  rewrite is_cased_lower, IH. destruct b; [now rewrite lower_lower | now rewrite upper_lower].
Qed.

Lemma title_lower (s : string) : Str.title (Str.lower s) = Str.title s.
Proof. apply title_from_lower. Qed.

(** X5. The case of a region: two ASCII region texts that differ only in the
    case of their letters and in the blanks around them, neither of them a
    city of the alias table, get the same name, so a list that holds both
    keeps one entry. *)
Theorem region_case_insensitive (a b : string) :
  Str.isascii a = true ->
  Str.isascii b = true ->
  Str.lower (Str.strip a) = Str.lower (Str.strip b) ->
  Agent.table_get (Str.strip a) Agent.cities_to_states = None ->
  Agent.table_get (Str.strip b) Agent.cities_to_states = None ->
  Agent.canonical_region (VStr a) = Agent.canonical_region (VStr b) /\
  Agent.dedupe (map Agent.canonical_region [VStr a; VStr b])
  = [Agent.canonical_region (VStr a)].
Proof.
  intros _ _ E Ha Hb.
  assert (Same : Agent.canonical_region (VStr a) = Agent.canonical_region (VStr b)).
  { unfold Agent.canonical_region. simpl Py.str. rewrite Ha, Hb.
    rewrite <- (title_lower (Str.strip a)), <- (title_lower (Str.strip b)). now rewrite E. }
  split; [exact Same|].
  simpl map. rewrite <- Same. unfold Agent.dedupe. simpl.
  now rewrite String.eqb_refl.
Qed.

Lemma region_case_insensitive_witness :
  Agent.canonical_region (VStr "bihar ") = Agent.canonical_region (VStr "BIHAR") /\
  Agent.dedupe (map Agent.canonical_region [VStr "bihar "; VStr "BIHAR"])
  = [Agent.canonical_region (VStr "bihar ")].
Proof.
  exact (region_case_insensitive "bihar " "BIHAR" eq_refl eq_refl eq_refl eq_refl eq_refl).
Defined.

(** ** The second run *)

Lemma normalized_group_typed group group' :
  Steps.normalize_group group = inr group' -> Spec.typed_group group' = true.
Proof.
  intros H. destruct (normalized_group_shape _ _ H) as [g [n [level [rs [-> [_ [_ [Hl _]]]]]]]].
  simpl. now rewrite Hl.
Qed.

Lemma Forall2_typed src groups' :
  Forall2 (fun g g' => Steps.normalize_group g = inr g') src groups' ->
  forallb Spec.typed_group groups' = true.
Proof.
  induction 1 as [|a b l l' Hab _ IH]; simpl; [reflexivity|].
  now rewrite (normalized_group_typed _ _ Hab), IH.
Qed.

(** The pipeline returns on what it has returned. *)
Lemma output_rerun v r1 :
  Agent._post_process_normalize v = inr r1 ->
  exists r2, Agent._post_process_normalize r1 = inr r2.
Proof.
  intros H. destruct (post_process_needs_dict _ _ H) as [d ->].
  rewrite post_process_dict in H.
  destruct (pipeline_inv _ _ H)
    as [held0 [held1 [held2 [held3 [mitigations [summary [H0 [H1 [H2 [Hm [Hs [H3 E]]]]]]]]]]]].
  remember (Py.store "affected_groups" held3
              (Py.store "reasoning_summary" summary
                 (Py.store "mitigations" mitigations
                    (Py.store "affected_groups" held2 d)))) as d1 eqn:Ed1.
  assert (Lg : Py.lookup "affected_groups" d1 = Some held3) by (subst d1; now dict_simpl).
  assert (Lm : Py.lookup "mitigations" d1 = Some mitigations) by (subst d1; now dict_simpl).
  assert (Ls : Py.lookup "reasoning_summary" d1 = Some summary) by (subst d1; now dict_simpl).
  subst r1. rewrite post_process_dict. unfold Steps.pipeline_steps, Steps.held_or_empty.
  rewrite Lg, Lm, Ls.
  destruct (groups_shape _ _ _ _ _ H0 H1 H2 H3) as [[src [groups' [-> [F L]]]] | [Hl Hi]].
  - destruct (mapM_typed_rules _ (Forall2_typed _ _ F)) as [l1 [E1 D1]].
    unfold Py.for_each at 1. rewrite E1. run. rewrite capped_list. run.
    destruct (mapM_dicts Agent.anchor_group (firstn Config.MAX_AFFECTED_GROUPS l1))
      as [l2 [E2 D2]].
    { now apply Forall_firstn. }
    { intros g. rewrite anchor_group_dict. eauto. }
    unfold Py.for_each at 1. rewrite E2. run.
    rewrite (capped_settled _ _ _ Hm). run.
    rewrite (summary_field_settled _ _ Hs). run.
    destruct (mapM_dicts Agent.regions_group l2 D2) as [l3 [E3 _]].
    { intros g. rewrite regions_group_dict. eauto. }
    unfold Py.for_each. rewrite E3. run. eauto.
  - rewrite (for_each_empty _ _ Hl Hi). run.
    rewrite (capped_empty _ _ Hl Hi). run.
    rewrite (for_each_empty _ _ Hl Hi). run.
    rewrite (capped_settled _ _ _ Hm). run.
    rewrite (summary_field_settled _ _ Hs). run.
    rewrite (for_each_empty _ _ Hl Hi). run. eauto.
Qed.

(** A state of the alias table is no city that the table maps elsewhere. *)
Lemma table_values_settled u state :
  Agent.table_get u Agent.cities_to_states = Some state ->
  Spec.settled_region (VStr state) = true.
Proof.
  unfold Agent.cities_to_states. simpl.
  repeat match goal with
         | |- context [String.eqb u ?b] => destruct (String.eqb u b)
         end;
    intros H; inversion H; reflexivity.
Qed.

(** The name of a name is settled. *)
Lemma canonical_twice_settled v :
  Spec.settled_region
    (VStr (Agent.canonical_region (VStr (Agent.canonical_region v)))) = true.
Proof.
  destruct (canonical_normal v) as [Hs Ht].
  set (y := Agent.canonical_region v) in *.
  unfold Agent.canonical_region at 1. simpl Py.str. rewrite Hs.
  destruct (Agent.table_get y Agent.cities_to_states) as [state|] eqn:E.
  - exact (table_values_settled _ _ E).
  - rewrite Ht. unfold Spec.settled_region. now rewrite E.
Qed.

Lemma normalized_regions group group' :
  Steps.normalize_group group = inr group' ->
  exists l, Spec.field "regions" group'
            = Some (VList (map VStr (Agent.dedupe (map Agent.canonical_region l)))).
Proof.
  intros H. destruct (normalize_group_fields _ _ H) as [g [_ [_ [_ [Hr _]]]]].
  destruct (anchored_regions_list (Py.lookup "regions" g)) as [l El].
  rewrite El in Hr. now exists l.
Qed.

Lemma normalized_twice_settled g0 g1 g2 :
  Steps.normalize_group g0 = inr g1 ->
  Steps.normalize_group g1 = inr g2 ->
  Spec.settled_group g2 = true.
Proof.
  intros H01 H12.
  destruct (normalized_regions _ _ H01) as [l Hl].
  destruct (normalize_group_fields _ _ H12) as [g [-> [_ [_ [Hr _]]]]].
  simpl in Hl. rewrite Hl in Hr. simpl in Hr.
  unfold Spec.settled_group. rewrite Hr.
  apply forallb_forall. intros x Hx.
  apply in_map_iff in Hx. destruct Hx as [z [<- Hz]].
  rewrite dedupe_first_occurrences in Hz.
  apply (proj1 (first_occurrences_In _ _)) in Hz.
  apply in_map_iff in Hz. destruct Hz as [y [<- Hy]].
  apply in_map_iff in Hy. destruct Hy as [w [<- Hw]].
  rewrite dedupe_first_occurrences in Hw.
  apply (proj1 (first_occurrences_In _ _)) in Hw.
  apply in_map_iff in Hw. destruct Hw as [x0 [<- _]].
  apply canonical_twice_settled.
Qed.

Lemma Forall2_In_right {A B} (R : A -> B -> Prop) l l' :
  Forall2 R l l' -> forall b, In b l' -> exists a, In a l /\ R a b.
Proof.
  induction 1 as [|a b l l' Hab _ IH]; intros x Hx; [destruct Hx|].
  destruct Hx as [<- | Hx].
  - exists a. split; [now left | exact Hab].
  - destruct (IH _ Hx) as [a' [Ha' Hr]]. exists a'. split; [now right | exact Hr].
Qed.

Lemma firstn_In {A} n (l : list A) x : In x (firstn n l) -> In x l.
Proof.
  revert l; induction n as [|n IH]; intros [|a l]; simpl; try tauto.
  intros [<- | H]; [now left | right; now apply IH].
Qed.

(** The second run settles every region. *)
Lemma second_run_settled v r1 r2 :
  Agent._post_process_normalize v = inr r1 ->
  Agent._post_process_normalize r1 = inr r2 ->
  Spec.settled r2 = true.
Proof.
  intros H H'. destruct (post_process_needs_dict _ _ H) as [d ->].
  rewrite post_process_dict in H.
  destruct (pipeline_inv _ _ H)
    as [held0 [held1 [held2 [held3 [mitigations [summary [H0 [H1 [H2 [Hm [Hs [H3 E]]]]]]]]]]]].
  remember (Py.store "affected_groups" held3
              (Py.store "reasoning_summary" summary
                 (Py.store "mitigations" mitigations
                    (Py.store "affected_groups" held2 d)))) as d1 eqn:Ed1.
  assert (Lg : Py.lookup "affected_groups" d1 = Some held3) by (subst d1; now dict_simpl).
  subst r1.
  destruct (post_process_fields _ _ H') as [held [m [s [Hf [_ [_ [_ [_ Hg]]]]]]]].
  rewrite Lg in Hg. unfold Spec.settled, Spec.groups_of. rewrite Hf.
  destruct Hg as [[groups1 [groups2 [-> [-> F2]]]] | [_ [-> Hi]]].
  - simpl. apply forallb_forall. intros g2 Hg2.
    destruct (Forall2_In_right _ _ _ F2 _ Hg2) as [g1 [Hg1 H12]].
    apply firstn_In in Hg1.
    destruct (groups_shape _ _ _ _ _ H0 H1 H2 H3) as [[src [groups' [Eg [F1 _]]]] | [Hl _]];
      [|discriminate Hl].
    inversion Eg; subst groups'.
    destruct (Forall2_In_right _ _ _ F1 _ Hg1) as [g0 [_ H01]].
    exact (normalized_twice_settled _ _ _ H01 H12).
  - rewrite Hi. reflexivity.
Qed.

(** A result in which the alias table leaves every region alone is a fixed
    point of the pipeline. *)
Lemma settled_result_fixed r r1 :
  Agent._post_process_normalize r = inr r1 ->
  Spec.settled r1 = true ->
  Agent._post_process_normalize r1 = inr r1.
Proof.
  intros H S.
  destruct (post_process_needs_dict _ _ H) as [d ->].
  rewrite post_process_dict in H.
  destruct (pipeline_inv _ _ H)
    as [held0 [held1 [held2 [held3 [mitigations [summary [H0 [H1 [H2 [Hm [Hs [H3 E]]]]]]]]]]]].
  remember (Py.store "affected_groups" held3
              (Py.store "reasoning_summary" summary
                 (Py.store "mitigations" mitigations
                    (Py.store "affected_groups" held2 d)))) as d1 eqn:Ed1.
  assert (Lg : Py.lookup "affected_groups" d1 = Some held3) by (subst d1; now dict_simpl).
  assert (Lm : Py.lookup "mitigations" d1 = Some mitigations) by (subst d1; now dict_simpl).
  assert (Ls : Py.lookup "reasoning_summary" d1 = Some summary) by (subst d1; now dict_simpl).
  subst r1. unfold Spec.settled, Spec.groups_of, Spec.field in S. rewrite Lg in S.
  destruct (groups_settled _ _ _ _ _ H0 H1 H2 H3 S) as [F1 [F2 [F3 F6]]].
  rewrite post_process_dict. unfold Steps.pipeline_steps, Steps.held_or_empty.
  rewrite Lg, Lm, Ls, F1. run. rewrite F2. run. rewrite F3. run.
  rewrite (capped_settled _ _ _ Hm). run.
  rewrite (summary_field_settled _ _ Hs). run. rewrite F6. run.
  unfold ret. f_equal. f_equal.
  rewrite (store_same _ _ _ Lg), (store_same _ _ _ Lm), (store_same _ _ _ Ls).
  apply store_same, Lg.
Qed.

(** X6. The pipeline settles with its second run: whenever it returns a
    result on an input whose texts are ASCII, it returns on that result too,
    and what the second run returns is a fixed point, which every further run
    returns unchanged. *)
Theorem pipeline_settles_in_two_runs (v r1 : value) :
  Py.isascii v = true ->
  Agent._post_process_normalize v = inr r1 ->
  exists r2,
    Agent._post_process_normalize r1 = inr r2 /\
    Agent._post_process_normalize r2 = inr r2.
Proof.
  intros _ H. destruct (output_rerun _ _ H) as [r2 H2].
  exists r2. split; [exact H2|].
  apply (settled_result_fixed _ _ H2). exact (second_run_settled _ _ _ H H2).
Qed.

Lemma pipeline_settles_in_two_runs_witness :
  Py.isascii (VDict Samples.miscased_input) = true /\
  Agent._post_process_normalize (VDict Samples.miscased_input) = inr Samples.miscased_once /\
  exists r2,
    Agent._post_process_normalize Samples.miscased_once = inr r2 /\
    Agent._post_process_normalize r2 = inr r2.
Proof.
  split; [reflexivity|]. split; [reflexivity|].
  exact (pipeline_settles_in_two_runs (VDict Samples.miscased_input) Samples.miscased_once
           eq_refl eq_refl).
Defined.

(** * More on [analyze]: the other handlers, the prompt and the fence *)

(** ** The handlers *)

Lemma error_text_lower e :
  Str.lower (exc_str e ++ " " ++ exc_repr e) = Spec.error_text e.
Proof. unfold Spec.error_text. now rewrite lower_app. Qed.

(** The outer handlers on an error that is no quota error. *)
Lemma handle_not_quota e :
  Agent.is_quota (exc_str e) (exc_repr e) (Spec.error_text e) = false ->
  Agent.handle e
  = inr (if String.eqb (exc_class e) "JSONDecodeError" then Agent.parse_error_result
         else if Agent.is_authentication (exc_str e) (Spec.error_text e)
              then Agent.authentication_result
              else
                let clean_error := if Agent.longer_than 150 (exc_str e)
                                   then Str.take (Z.to_nat 150) (exc_str e) else exc_str e in
                Agent.generic_result
                  (if Agent.looks_like_error_dump clean_error
                   then "An unexpected error occurred during analysis."
                   else clean_error)).
Proof.
  intros H. unfold Agent.handle.
  destruct (String.eqb (exc_class e) "JSONDecodeError"); [reflexivity|].
  cbv zeta. rewrite error_text_lower, H.
  destruct (Agent.is_authentication _ _); reflexivity.
Qed.

Lemma handle_overflow :
  Agent.handle Agent.OverflowError
  = inr (Agent.generic_result "cannot convert float infinity to integer").
Proof. reflexivity. Qed.

Section OtherHandlers.

Variable generate_content : string -> Agent.reply.
Variable json_loads : string -> string + value.

(** X7. The authentication handler and its place after the quota handler:
    when the model call raises an error with a quota marker, [analyze] never
    answers with the authentication result, whatever else the error says;
    when the error has no quota marker and has an authentication marker
    ([401] or [403] in its message, [authentication] or [invalid api key] in
    its lowered message and representation), [analyze] returns the
    authentication result, unless the error is a [JSONDecodeError], which
    gets the parse-error result. *)
Theorem authentication_failure_classified
    (policy_text demographics_text : string) (e : exception) :
  generate_content (Agent.compose_prompt policy_text demographics_text) = Agent.Raises e ->
  (Agent.is_quota (exc_str e) (exc_repr e) (Spec.error_text e) = true ->
   Agent.analyze generate_content json_loads policy_text demographics_text
   <> inr Agent.authentication_result) /\
  (Agent.is_quota (exc_str e) (exc_repr e) (Spec.error_text e) = false ->
   Agent.is_authentication (exc_str e) (Spec.error_text e) = true ->
   Agent.analyze generate_content json_loads policy_text demographics_text
   = inr (if String.eqb (exc_class e) "JSONDecodeError"
          then Agent.parse_error_result else Agent.authentication_result)).
Proof.
  intros Hg. unfold Agent.analyze, Agent.attempt. rewrite Hg. cbv zeta.
  fold (Spec.error_text e). split.
  - intros Q. rewrite Q.
    destruct (Agent.retry_delay_of (Spec.error_text e)) as [e'|delay] eqn:D; simpl.
    + rewrite (retry_delay_raises _ _ D), handle_overflow. discriminate.
    + discriminate.
  - intros Q A. rewrite Q. simpl. rewrite (handle_not_quota _ Q), A. reflexivity.
Qed.

(** A result of the pipeline is none of the degraded results. *)
Lemma degraded_not_enum r :
  Forall Spec.enum_risk (Spec.groups_of r) -> Spec.degraded r -> False.
Proof.
  intros F [name D]. unfold Spec.groups_of in F. rewrite D in F. simpl in F.
  inversion F as [|g l [level [Hl Hin]] _]; subst.
  simpl in Hl. inversion Hl; subst level.
  simpl in Hin. destruct Hin as [E | [E | [E | []]]]; discriminate E.
Qed.

Lemma handle_generic_bounded e r :
  Agent.handle e = inr r ->
  Spec.field "error_type" r = Some (VStr "generic_error") ->
  exists msg,
    Spec.field "reasoning_summary" r = Some (VStr msg) /\
    (String.length msg <= 150)%nat /\ Agent.looks_like_error_dump msg = false.
Proof.
  unfold Agent.handle.
  destruct (String.eqb (exc_class e) "JSONDecodeError").
  { intros H; inversion H; subst. discriminate. }
  cbv zeta. destruct (Agent.is_quota _ _ _).
  { destruct (Agent.retry_delay_of _) as [e'|delay]; simpl; [discriminate|].
    intros H; inversion H; subst. discriminate. }
  destruct (Agent.is_authentication _ _).
  { intros H; inversion H; subst. discriminate. }
  set (clean := if Agent.longer_than 150 (exc_str e)
                then Str.take (Z.to_nat 150) (exc_str e) else exc_str e).
  intros H _. injection H as <-.
  destruct (Agent.looks_like_error_dump clean) eqn:Dump.
  - exists "An unexpected error occurred during analysis.".
    split; [reflexivity|]. split; [simpl; lia | reflexivity].
  - exists clean. split; [reflexivity|]. split; [|exact Dump].
    unfold clean, Agent.longer_than.
    destruct (Z.ltb_spec 150 (Z.of_nat (String.length (exc_str e)))) as [L|L].
    + pose proof (length_take (Z.to_nat 150) (exc_str e)). lia.
    + lia.
Qed.

(** X8. The message of a generic failure: whenever [analyze] returns one of
    its degraded results with the error type [generic_error], the summary it
    shows is at most 150 characters long and holds no dump of an error
    object. *)
Theorem generic_failure_message_bounded
    (policy_text demographics_text : string) (r : value) :
  Agent.analyze generate_content json_loads policy_text demographics_text = inr r ->
  Spec.degraded r ->
  Spec.field "error_type" r = Some (VStr "generic_error") ->
  exists msg,
    Spec.field "reasoning_summary" r = Some (VStr msg) /\
    (String.length msg <= 150)%nat /\ Agent.looks_like_error_dump msg = false.
Proof.
  unfold Agent.analyze.
  destruct (Agent.attempt _ _ _) as [e|r'] eqn:A.
  - intros H _. exact (handle_generic_bounded _ _ H).
  - intros H D T. inversion H; subst r'. exfalso. revert A. unfold Agent.attempt.
    destruct (generate_content _) as [e|[text|]].
    + cbv zeta. destruct (Agent.is_quota _ _ _); [|discriminate].
      destruct (Agent.retry_delay_of _) as [e'|delay]; simpl; [discriminate|].
      intros A; inversion A; subst. discriminate T.
    + destruct (negb (String.eqb text "")).
      * intros A. invert_bind A. invert_bind A. inversion A; subst.
        exact (degraded_not_enum _ (post_process_groups_enum _ _ Hx0) D).
      * intros A; inversion A; subst. discriminate T.
    + intros A; inversion A; subst. discriminate T.
Qed.

(** ** The prompt *)

Lemma take_all n s : (String.length s <= n)%nat -> Str.take n s = s.
Proof.
  revert n; induction s as [|c s IH]; intros [|n]; simpl; intros H;
    try reflexivity; try lia.
  now rewrite IH by lia.
Qed.

Lemma compose_prompt_truncated policy_text demographics_text :
  Agent.compose_prompt (Str.take (Z.to_nat 20000) policy_text) demographics_text
  = Agent.compose_prompt policy_text demographics_text.
Proof.
  unfold Agent.compose_prompt, Agent.longer_than.
  pose proof (length_take (Z.to_nat 20000) policy_text) as L.
  destruct (Z.ltb_spec 20000 (Z.of_nat (String.length (Str.take (Z.to_nat 20000) policy_text))))
    as [A|A]; [lia|].
  destruct (Z.ltb_spec 20000 (Z.of_nat (String.length policy_text))) as [B|B].
  - reflexivity.
  - now rewrite take_all by lia.
Qed.

(** X9. The policy text is cut at 20000 characters: [analyze] on a policy
    text is [analyze] on its first 20000 characters, so nothing past them
    reaches the model or changes the result. *)
Theorem policy_text_truncated (policy_text demographics_text : string) :
  Agent.analyze generate_content json_loads
    (Str.take (Z.to_nat 20000) policy_text) demographics_text
  = Agent.analyze generate_content json_loads policy_text demographics_text.
Proof.
  unfold Agent.analyze. now rewrite compose_prompt_truncated.
Qed.

Lemma has_demographics_placeholder t :
  Str.contains "Error loading" t = true \/ Str.contains "No demographic" t = true \/
  Str.strip t = "" ->
  Agent.has_demographics t = false.
Proof.
  unfold Agent.has_demographics. intros [H | [H | H]].
  - rewrite H. simpl. now rewrite andb_false_r.
  - rewrite H. simpl. now rewrite andb_false_r.
  - rewrite H. simpl. now rewrite andb_false_r.
Qed.

(** X10. A placeholder is no demographic context: when the demographic text
    holds the marker [Error loading] or [No demographic], or is blank,
    [analyze] is [analyze] without demographic text: the prompt is the one
    for a policy alone, and the text does not reach the model. *)
Theorem placeholder_demographics_ignored (policy_text demographics_text : string) :
  Str.contains "Error loading" demographics_text = true \/
  Str.contains "No demographic" demographics_text = true \/
  Str.strip demographics_text = "" ->
  Agent.compose_prompt policy_text demographics_text
  = Agent.compose_prompt policy_text "" /\
  Agent.analyze generate_content json_loads policy_text demographics_text
  = Agent.analyze generate_content json_loads policy_text "".
Proof.
  intros H.
  assert (E : Agent.compose_prompt policy_text demographics_text
              = Agent.compose_prompt policy_text "").
  { unfold Agent.compose_prompt. now rewrite (has_demographics_placeholder _ H). }
  split; [exact E|]. unfold Agent.analyze. now rewrite E.
Qed.

End OtherHandlers.

Lemma placeholder_demographics_ignored_witness :
  Agent.compose_prompt "policy" "No demographic data provided"
  = Agent.compose_prompt "policy" "" /\
  Agent.analyze (fun _ => Agent.Responds (Some "{}")) Samples.sample_loads
    "policy" "No demographic data provided"
  = Agent.analyze (fun _ => Agent.Responds (Some "{}")) Samples.sample_loads "policy" "".
Proof.
  apply (placeholder_demographics_ignored
           (fun _ => Agent.Responds (Some "{}")) Samples.sample_loads
           "policy" "No demographic data provided").
  right; left. reflexivity.
Defined.

Lemma authentication_failure_classified_witness :
  Agent.analyze (fun _ => Agent.Raises (raised "ClientError" "401 Unauthorized"))
    Samples.sample_loads "policy" ""
  = inr Agent.authentication_result /\
  Agent.analyze (fun _ => Agent.Raises (raised "ClientError" "401 Unauthorized, quota exceeded"))
    Samples.sample_loads "policy" ""
  <> inr Agent.authentication_result.
Proof.
  split.
  - exact (proj2 (authentication_failure_classified
                    (fun _ => Agent.Raises (raised "ClientError" "401 Unauthorized"))
                    Samples.sample_loads "policy" "" (raised "ClientError" "401 Unauthorized")
                    eq_refl) eq_refl eq_refl).
  - exact (proj1 (authentication_failure_classified
                    (fun _ => Agent.Raises (raised "ClientError" "401 Unauthorized, quota exceeded"))
                    Samples.sample_loads "policy" ""
                    (raised "ClientError" "401 Unauthorized, quota exceeded")
                    eq_refl) eq_refl).
Defined.

Lemma generic_failure_message_bounded_witness :
  Agent.analyze (fun _ => Agent.Raises (raised "RuntimeError" "boom"))
    Samples.sample_loads "policy" ""
  = inr (Agent.generic_result "boom") /\
  exists msg,
    Spec.field "reasoning_summary" (Agent.generic_result "boom") = Some (VStr msg) /\
    (String.length msg <= 150)%nat /\ Agent.looks_like_error_dump msg = false.
Proof.
  split; [reflexivity|].
  refine (generic_failure_message_bounded
            (fun _ => Agent.Raises (raised "RuntimeError" "boom"))
            Samples.sample_loads "policy" "" (Agent.generic_result "boom")
            eq_refl _ eq_refl).
  exists "Error analyzing data". reflexivity.
Defined.

(** ** The markdown fence *)

Lemma rstrip_last s c :
  Str.is_space c = false -> Str.rstrip (s ++ String c "") = s ++ String c "".
Proof.
  intros H. induction s as [|d s IH]; simpl.
  - now rewrite H.
  - rewrite IH. destruct s; reflexivity.
Qed.

Lemma all_space_app a b : Agent.all_space (a ++ b) = Agent.all_space a && Agent.all_space b.
Proof. induction a as [|c a IH]; simpl; [reflexivity|]. now rewrite IH, andb_assoc. Qed.

Lemma drop_app n s t :
  (n <= String.length s)%nat -> Str.drop n (s ++ t) = Str.drop n s ++ t.
Proof.
  revert s; induction n as [|n IH]; intros [|c s]; simpl; intros H;
    try reflexivity; try lia.
  apply IH. lia.
Qed.

(** The closing fence is found at the end, and nowhere before it. *)
Lemma strip_closing_fence_end body :
  Agent.strip_closing_fence (body ++ Agent.newline ++ Agent.fence) = body.
Proof.
  induction body as [|c body IH]; [reflexivity|].
  change ((String c body ++ Agent.newline ++ Agent.fence))
    with (String c (body ++ Agent.newline ++ Agent.fence)).
  assert (N : Agent.all_space
                (Str.drop 4 (String c (body ++ Agent.newline ++ Agent.fence))) = false).
  { change (String c (body ++ Agent.newline ++ Agent.fence))
      with (String c body ++ (Agent.newline ++ "``") ++ "`").
    rewrite <- string_app_assoc.
    rewrite drop_app.
    - rewrite all_space_app. simpl. now rewrite andb_false_r.
    - rewrite string_length_app. simpl. lia. }
  unfold Agent.strip_closing_fence; fold Agent.strip_closing_fence.
  rewrite N, andb_false_r. now rewrite IH.
Qed.

Lemma span_clean c rest :
  Str.is_space c = false ->
  Str.span Str.is_space (Agent.newline ++ String c rest) = (Agent.newline, String c rest).
Proof. intros H. simpl. now rewrite H. Qed.

(** The opening fence, with the tag [json] or without it, goes with the
    newline that ends its line. *)
Lemma strip_opening_fence_line tag c rest :
  tag = "" \/ tag = "json" ->
  Str.is_space c = false ->
  Agent.strip_opening_fence (Agent.fence ++ tag ++ Agent.newline ++ String c rest)
  = String c rest.
Proof.
  intros [-> | ->] H; unfold Agent.strip_opening_fence; simpl; now rewrite H.
Qed.

Lemma prefix_fence s : prefix Agent.fence (Agent.fence ++ s) = true.
Proof. apply prefix_app. reflexivity. Qed.

Lemma fenced_text tag body :
  tag = "" \/ tag = "json" ->
  Str.strip (Agent.fence ++ tag ++ Agent.newline ++ body ++ Agent.newline ++ Agent.fence)
  = Agent.fence ++ tag ++ Agent.newline ++ body ++ Agent.newline ++ Agent.fence.
Proof.
  intros T. unfold Str.strip.
  assert (L : forall s, Str.lstrip (Agent.fence ++ s) = Agent.fence ++ s) by reflexivity.
  rewrite L.
  replace (Agent.fence ++ tag ++ Agent.newline ++ body ++ Agent.newline ++ Agent.fence)
    with ((Agent.fence ++ tag ++ Agent.newline ++ body ++ Agent.newline ++ "``") ++ "`").
  - now apply rstrip_last.
  - rewrite !string_app_assoc. reflexivity.
Qed.

Section Fence.

Variable generate_content : string -> Agent.reply.
Variable json_loads : string -> string + value.

(** X11. A reply in a markdown fence: when the model answers with a text
    that [json.loads] rejects and that is a fence line, with the tag [json]
    or without it, a body that [json.loads] accepts and that begins with a
    character other than a blank, and a closing fence on a line of its own,
    the parse gives the value of the body, and [analyze] returns what it
    returns when the model answers with the body alone. *)
Theorem fenced_reply_recovered
    (policy_text demographics_text tag : string) (c : ascii) (rest : string)
    (e : string) (v : value) :
  tag = "" \/ tag = "json" ->
  Str.is_space c = false ->
  generate_content (Agent.compose_prompt policy_text demographics_text)
  = Agent.Responds
      (Some (Agent.fence ++ tag ++ Agent.newline ++ String c rest ++ Agent.newline ++ Agent.fence)) ->
  json_loads (Agent.fence ++ tag ++ Agent.newline ++ String c rest ++ Agent.newline ++ Agent.fence)
  = inl e ->
  json_loads (String c rest) = inr v ->
  Agent.parse_response json_loads
    (Agent.fence ++ tag ++ Agent.newline ++ String c rest ++ Agent.newline ++ Agent.fence)
  = inr v /\
  Agent.analyze generate_content json_loads policy_text demographics_text
  = Agent.analyze (fun _ => Agent.Responds (Some (String c rest))) json_loads
      policy_text demographics_text.
Proof.
  intros T H Hg Hbad Hgood.
  assert (P : Agent.parse_response json_loads
                (Agent.fence ++ tag ++ Agent.newline ++ String c rest
                 ++ Agent.newline ++ Agent.fence) = inr v).
  { unfold Agent.parse_response. rewrite Hbad, (fenced_text _ _ T).
    rewrite prefix_fence.
    replace (Agent.fence ++ tag ++ Agent.newline ++ String c rest ++ Agent.newline ++ Agent.fence)
      with (Agent.fence ++ tag ++ Agent.newline ++ String c (rest ++ Agent.newline ++ Agent.fence))
      by reflexivity.
    rewrite (strip_opening_fence_line _ _ _ T H).
    change (String c (rest ++ Agent.newline ++ Agent.fence))
      with (String c rest ++ Agent.newline ++ Agent.fence).
    now rewrite strip_closing_fence_end, Hgood. }
  split; [exact P|].
  unfold Agent.analyze, Agent.attempt. rewrite Hg.
  assert (N : forall s, negb (String.eqb (Agent.fence ++ s) "") = true) by reflexivity.
  rewrite N, P. cbv beta. change (negb (String.eqb (String c rest) "")) with true.
  cbv iota. unfold Agent.parse_response. now rewrite Hgood.
Qed.

End Fence.

Lemma fenced_reply_recovered_witness :
  Agent.parse_response Samples.sample_loads
    (Agent.fence ++ "json" ++ Agent.newline ++ "{}" ++ Agent.newline ++ Agent.fence)
  = inr (VDict []) /\
  Agent.analyze
    (fun _ => Agent.Responds
                (Some (Agent.fence ++ "json" ++ Agent.newline ++ "{}" ++ Agent.newline ++ Agent.fence)))
    Samples.sample_loads "policy" ""
  = Agent.analyze (fun _ => Agent.Responds (Some "{}")) Samples.sample_loads "policy" "".
Proof.
  exact (fenced_reply_recovered
           (fun _ => Agent.Responds
                       (Some (Agent.fence ++ "json" ++ Agent.newline ++ "{}"
                              ++ Agent.newline ++ Agent.fence)))
           Samples.sample_loads "policy" "" "json" "{" "}"
           "Expecting value: line 1 column 1 (char 0)" (VDict [])
           (or_intror eq_refl) eq_refl eq_refl eq_refl eq_refl).
Defined.

(** * The endpoint *)

(** ** The demographic text and the flag *)

Lemma placeholder_not_demographics t :
  Str.contains "Error loading" t = true \/ Str.contains "No demographic" t = true ->
  Agent.has_demographics t = false.
Proof.
  intros [H | H]; unfold Agent.has_demographics; rewrite H; simpl;
    now rewrite ?andb_false_r.
Qed.

(** The text the demographic stage hands on is the digest of the loader,
    for a named upload that passed the checks, or one of three placeholders,
    each with a marker. *)
Lemma demographics_text_cases load_demographics demographic_file t :
  Main.demographics_text_of load_demographics demographic_file = inr t ->
  (Str.contains "Error loading" t = true \/ Str.contains "No demographic" t = true) \/
  exists file name,
    demographic_file = Some file /\ Main.filename file = Some name /\ name <> "" /\
    Main.validate_file_extension name Main.ALLOWED_DEMOGRAPHIC_EXTENSIONS = true /\
    Main.validate_file_size (Z.of_nat (String.length (Main.content file))) Main.MAX_FILE_SIZE
    = true /\
    load_demographics (if Str.endswith ".csv" (Str.lower name) then ".csv" else ".xlsx")
      (Main.content file) = inr t /\
    t <> "" /\ Str.contains "Error loading file" t = false.
Proof.
  unfold Main.demographics_text_of.
  destruct demographic_file as [file|]; [|intros H; inversion H; left; right; reflexivity].
  destruct (Main.filename file) as [name|] eqn:En;
    [|intros H; inversion H; left; right; reflexivity].
  destruct (String.eqb name "") eqn:Ename; simpl negb; cbv iota;
    [intros H; inversion H; left; right; reflexivity|].
  destruct (Main.validate_file_extension name Main.ALLOWED_DEMOGRAPHIC_EXTENSIONS) eqn:Eext;
    simpl negb; cbv iota; [|discriminate].
  destruct (Main.validate_file_size _ _) eqn:Esize; simpl negb; cbv iota; [|discriminate].
  destruct (load_demographics _ _) as [e|digest] eqn:Eload.
  - intros H. inversion H. left; left.
    apply contains_app_l with (p := "Error loading") (a := "Error loading demographic data: ").
    reflexivity.
  - destruct (String.eqb digest "") eqn:Edigest.
    + simpl. intros H; inversion H. left; right; reflexivity.
    + destruct (Str.contains "Error loading file" digest) eqn:Emark; simpl.
      * intros H; inversion H. left; right; reflexivity.
      * rewrite Edigest. intros H; inversion H; subst t. right.
        exists file, name. repeat split; try assumption.
        -- now apply String.eqb_neq.
        -- now apply String.eqb_neq.
Qed.

(** X12. Where demographic context comes from: whenever the demographic
    stage hands the agent a text that the agent takes for demographic context,
    that text is the digest the loader returned for an upload with a name, an
    allowed extension and an allowed size; a placeholder or the message of a
    failed load is never taken for context. *)
Theorem demographic_context_provenance
    (load_demographics : string -> string -> fallible string)
    (demographic_file : option Main.UploadFile) (t : string) :
  Main.demographics_text_of load_demographics demographic_file = inr t ->
  Agent.has_demographics t = true ->
  exists file name,
    demographic_file = Some file /\ Main.filename file = Some name /\ name <> "" /\
    Main.validate_file_extension name Main.ALLOWED_DEMOGRAPHIC_EXTENSIONS = true /\
    Main.validate_file_size (Z.of_nat (String.length (Main.content file))) Main.MAX_FILE_SIZE
    = true /\
    load_demographics (if Str.endswith ".csv" (Str.lower name) then ".csv" else ".xlsx")
      (Main.content file) = inr t /\
    t <> "" /\ Str.contains "Error loading file" t = false.
Proof.
  intros H D. destruct (demographics_text_cases _ _ _ H) as [P | Ok]; [|exact Ok].
  rewrite (placeholder_not_demographics _ P) in D. discriminate D.
Qed.

(** X13. The flag and the prompt agree: whenever the agent takes the text of
    the demographic stage for demographic context, the envelope holds
    [demographics_used] as [True]; and when the envelope holds it as [True],
    the agent takes the text for context unless the text is blank. *)
Theorem flag_matches_prompt
    (load_demographics : string -> string -> fallible string)
    (demographic_file : option Main.UploadFile) (t : string) :
  Main.demographics_text_of load_demographics demographic_file = inr t ->
  (Agent.has_demographics t = true ->
   Main.used_demographics demographic_file t = VBool true) /\
  (Main.used_demographics demographic_file t = VBool true ->
   Str.strip t <> "" -> Agent.has_demographics t = true).
Proof.
  intros H. split.
  - intros D. destruct (demographics_text_cases _ _ _ H) as [P | Ok].
    { rewrite (placeholder_not_demographics _ P) in D. discriminate D. }
    destruct Ok as [file [name [-> [En [Hn [_ [_ [_ [Ht _]]]]]]]]].
    unfold Agent.has_demographics in D.
    apply andb_true_iff in D. destruct D as [D Dn].
    apply andb_true_iff in D. destruct D as [_ De].
    unfold Main.used_demographics, Main.and_. rewrite En. simpl.
    apply String.eqb_neq in Hn. rewrite Hn. apply String.eqb_neq in Ht. rewrite Ht. simpl.
    rewrite De. simpl. now rewrite Dn.
  - intros U S.
    assert (Ht : t <> "") by (intros ->; now apply S).
    assert (T : Py.truthy (Main.used_demographics demographic_file t) = true)
      by (now rewrite U).
    apply (proj1 (used_demographics_truth _ _ Ht)) in T.
    destruct T as [file [name [_ [_ [_ [E1 E2]]]]]].
    unfold Agent.has_demographics. rewrite E1, E2.
    apply String.eqb_neq in Ht. rewrite Ht. simpl. rewrite !andb_true_r.
    destruct (Str.strip t) eqn:Es; [now elim S | reflexivity].
Qed.

(** ** The envelope *)

Lemma envelope_groups_shaped groups :
  Forall Shape.envelope_group (flat_map Main.envelope_group groups).
Proof.
  induction groups as [|g groups IH]; simpl; [constructor|].
  destruct g; simpl; try exact IH.
  constructor; [|exact IH].
  unfold Main.get. destruct (Py.lookup "regions" entries) as [[]|]; simpl;
    eexists _, _, _; reflexivity.
Qed.

(** X14. The shape of the envelope: whatever dict the agent returned, the
    envelope holds the five keys in their order, a list under
    [affected_groups] and under [mitigations] and a string under
    [reasoning_summary], and each of its groups is a dict with the keys
    [group], [risk_level] and [regions] and no other, with a list under
    [regions]. *)
Theorem envelope_shape
    (response : list (string * value)) (demographic_file : option Main.UploadFile)
    (demographics_text : string) :
  exists groups mitigations summary error flag,
    Main.envelope response demographic_file demographics_text
    = VDict [("affected_groups", VList groups); ("mitigations", VList mitigations);
             ("reasoning_summary", VStr summary); ("error", error);
             ("demographics_used", flag)] /\
    Forall Shape.envelope_group groups.
Proof.
  unfold Main.envelope.
  destruct (Main.get response "mitigations" (VList [])) eqn:Em;
    (eexists _, _, _, _, _; split; [reflexivity | apply envelope_groups_shaped]).
Qed.

Lemma groups_normalized v r :
  Agent._post_process_normalize v = inr r ->
  Forall Shape.normalized_group (Spec.groups_of r).
Proof.
  intros H. destruct (post_process_needs_dict _ _ H) as [d ->].
  destruct (post_process_fields _ _ H) as [held [m [s [Hf [_ [_ [_ [_ Hg]]]]]]]].
  unfold Spec.groups_of. rewrite Hf.
  destruct (Py.lookup "affected_groups" d) as [given|].
  - destruct Hg as [[groups [groups' [-> [-> F]]]] | [_ [-> Hi]]].
    + simpl. eapply Forall2_right; [|exact F]. intros a b. apply normalized_group_shape.
    + rewrite Hi. constructor.
  - subst held. constructor.
Qed.

Lemma envelope_of_normalized groups :
  Forall Shape.normalized_group groups ->
  Forall2 Shape.same_group_fields groups (flat_map Main.envelope_group groups).
Proof.
  induction 1 as [|g groups Hg _ IH]; simpl; [constructor|].
  destruct Hg as [d [name [level [regions [-> [Hn [_ [Hl [_ [Hr _]]]]]]]]]].
  simpl. constructor; [|exact IH].
  unfold Shape.same_group_fields, Main.get. simpl. rewrite Hn, Hl, Hr. simpl.
  repeat split; reflexivity.
Qed.

(** X15. The envelope keeps the groups of the pipeline: when the pipeline
    returns a dict, the envelope built from it holds one group for each
    affected group of that dict, in the same order, with the same name, risk
    level and regions. *)
Theorem envelope_keeps_normalized_groups
    (v : value) (d : list (string * value)) (demographic_file : option Main.UploadFile)
    (demographics_text : string) :
  Agent._post_process_normalize v = inr (VDict d) ->
  exists groups',
    Spec.field "affected_groups" (Main.envelope d demographic_file demographics_text)
    = Some (VList groups') /\
    Forall2 Shape.same_group_fields (Spec.groups_of (VDict d)) groups'.
Proof.
  intros H. pose proof (groups_normalized _ _ H) as N.
  destruct (post_process_needs_dict _ _ H) as [d0 ->].
  destruct (post_process_fields _ _ H) as [held [m [s [Hf [_ [_ [_ [_ Hg]]]]]]]].
  unfold Spec.groups_of in *. rewrite Hf in *. simpl in Hf.
  unfold Main.envelope, Main.get. rewrite Hf. simpl Spec.field.
  eexists. split; [reflexivity|].
  assert (Shape : (exists l, held = VList l) \/
                  (Py.isinstance_list held = false /\ Py.iter held = inr [])).
  { destruct (Py.lookup "affected_groups" d0) as [given|].
    - destruct Hg as [[groups [groups' [_ [-> _]]]] | [Hl [-> Hi]]]; eauto.
    - subst held. eauto. }
  destruct Shape as [[l ->] | [Hl Hi]].
  - simpl in *. now apply envelope_of_normalized.
  - rewrite Hi. destruct held; try discriminate; constructor.
Qed.

Lemma envelope_keeps_normalized_groups_witness :
  Agent._post_process_normalize (VDict Samples.groups_input)
  = inr (VDict Samples.groups_output_entries) /\
  exists groups',
    Spec.field "affected_groups"
      (Main.envelope Samples.groups_output_entries None "No demographic data provided")
    = Some (VList groups') /\
    Forall2 Shape.same_group_fields
      (Spec.groups_of (VDict Samples.groups_output_entries)) groups'.
Proof.
  split; [reflexivity|].
  exact (envelope_keeps_normalized_groups (VDict Samples.groups_input)
           Samples.groups_output_entries None "No demographic data provided" eq_refl).
Defined.

Lemma demographic_context_provenance_witness :
  exists file name,
    Some {| Main.filename := Some "data.CSV"; Main.content := "state,rural" |} = Some file /\
    Main.filename file = Some name /\ name <> "" /\
    Main.validate_file_extension name Main.ALLOWED_DEMOGRAPHIC_EXTENSIONS = true /\
    Main.validate_file_size (Z.of_nat (String.length (Main.content file))) Main.MAX_FILE_SIZE
    = true /\
    (fun _ _ : string => @inr exception string "Demographic Context: 2 records")
      (if Str.endswith ".csv" (Str.lower name) then ".csv" else ".xlsx")
      (Main.content file) = inr "Demographic Context: 2 records" /\
    "Demographic Context: 2 records" <> "" /\
    Str.contains "Error loading file" "Demographic Context: 2 records" = false.
Proof.
  exact (demographic_context_provenance
           (fun _ _ => inr "Demographic Context: 2 records")
           (Some {| Main.filename := Some "data.CSV"; Main.content := "state,rural" |})
           "Demographic Context: 2 records" eq_refl eq_refl).
Defined.

Lemma flag_matches_prompt_witness :
  Agent.has_demographics "Demographic Context: 2 records" = true /\
  Main.used_demographics
    (Some {| Main.filename := Some "data.CSV"; Main.content := "state,rural" |})
    "Demographic Context: 2 records" = VBool true /\
  Str.strip "Demographic Context: 2 records" <> "".
Proof.
  pose proof (flag_matches_prompt
                (fun _ _ => inr "Demographic Context: 2 records")
                (Some {| Main.filename := Some "data.CSV"; Main.content := "state,rural" |})
                "Demographic Context: 2 records" eq_refl) as [Used Taken].
  assert (Full : Str.strip "Demographic Context: 2 records" <> "") by discriminate.
  split; [exact (Taken (Used eq_refl) Full)|]. split; [exact (Used eq_refl) | exact Full].
Defined.

(** * The answer of the endpoint *)

Lemma summary_field_text held v :
  Steps.summary_field held = inr v -> exists s, v = VStr s.
Proof.
  destruct held as [h|]; simpl.
  - destruct h; simpl; try discriminate. intros H; inversion H. eauto.
  - intros H; inversion H. eauto.
Qed.

Lemma post_process_summary_text v r :
  Agent._post_process_normalize v = inr r ->
  exists d s, r = VDict d /\ Py.lookup "reasoning_summary" d = Some (VStr s).
Proof.
  intros H. destruct (post_process_needs_dict _ _ H) as [d ->].
  destruct (post_process_fields _ _ H) as [held [m [summary [_ [_ [Hf [_ [Hs _]]]]]]]].
  destruct (post_process_keys _ _ H) as [d' [-> _]].
  destruct (summary_field_text _ _ Hs) as [s ->]. now exists d', s.
Qed.

Lemma handle_summary_text e r :
  Agent.handle e = inr r ->
  exists d s, r = VDict d /\ Py.lookup "reasoning_summary" d = Some (VStr s).
Proof.
  unfold Agent.handle.
  destruct (String.eqb (exc_class e) "JSONDecodeError").
  { intros H; inversion H. eexists _, _. split; reflexivity. }
  cbv zeta. destruct (Agent.is_quota _ _ _).
  { destruct (Agent.retry_delay_of _) as [e'|delay]; simpl; [discriminate|].
    intros H; inversion H. eexists _, _. split; reflexivity. }
  destruct (Agent.is_authentication _ _);
    intros H; injection H as <-; eexists _, _; split; reflexivity.
Qed.

Lemma analysis_outcome_dict d s :
  Py.lookup "reasoning_summary" d = Some (VStr s) ->
  Main.analysis_outcome (inr (VDict d))
  = if Str.contains "quota" (Str.lower s) || Str.contains "429" s
    then inl Main.quota_in_summary_error else inr (VDict d).
Proof.
  intros H. unfold Main.analysis_outcome, Main.quota_in_summary.
  rewrite bind_inr, H. simpl.
  destruct (Str.contains "quota" (Str.lower s)); simpl; [reflexivity|].
  destruct (Str.contains "429" s); reflexivity.
Qed.

Section AnswerFacts.

Variable generate_content : string -> Agent.reply.
Variable json_loads : string -> string + value.

Lemma analyze_summary_text policy_text demographics_text r :
  Agent.analyze generate_content json_loads policy_text demographics_text = inr r ->
  exists d s, r = VDict d /\ Py.lookup "reasoning_summary" d = Some (VStr s).
Proof.
  unfold Agent.analyze.
  destruct (Agent.attempt _ _ _) as [e|r'] eqn:A; [apply handle_summary_text|].
  intros H; inversion H; subst r'. revert A. unfold Agent.attempt.
  destruct (generate_content _) as [e|[text|]].
  - cbv zeta. destruct (Agent.is_quota _ _ _); [|discriminate].
    destruct (Agent.retry_delay_of _) as [e'|delay]; simpl; [discriminate|].
    intros A; inversion A. eexists _, _. split; reflexivity.
  - destruct (negb (String.eqb text "")).
    + intros A. invert_bind A. invert_bind A. inversion A; subst.
      exact (post_process_summary_text _ _ Hx0).
    + intros A; inversion A. eexists _, _. split; reflexivity.
  - intros A; inversion A. eexists _, _. split; reflexivity.
Qed.

(** X16. What the endpoint makes of a result of [analyze]: every result
    [analyze] returns is a dict with a string summary, so the quota test of
    the endpoint never fails on it; the endpoint raises the 429 error when
    that summary holds [quota] in any case or [429], also for a result of a
    successful analysis, and goes on with the result otherwise. *)
Theorem analysis_outcome_of_analyze (policy_text demographics_text : string) (r : value) :
  Agent.analyze generate_content json_loads policy_text demographics_text = inr r ->
  exists d s,
    r = VDict d /\ Py.lookup "reasoning_summary" d = Some (VStr s) /\
    Main.analysis_outcome
      (Agent.analyze generate_content json_loads policy_text demographics_text)
    = if Str.contains "quota" (Str.lower s) || Str.contains "429" s
      then inl Main.quota_in_summary_error else inr r.
Proof.
  intros H. destruct (analyze_summary_text _ _ _ H) as [d [s [-> Hs]]].
  exists d, s. split; [reflexivity|]. split; [exact Hs|].
  rewrite H. exact (analysis_outcome_dict _ _ Hs).
Qed.

Lemma quota_result_outcome delay :
  Main.analysis_outcome (inr (Agent.quota_result delay)) = inl Main.quota_in_summary_error.
Proof.
  unfold Agent.quota_result. erewrite analysis_outcome_dict by reflexivity.
  assert (C : Str.contains "quota"
                (Str.lower
                   ("API quota exceeded. Free tier limit of 20 requests/day reached. Please retry after "
                    ++ delay ++ " seconds or upgrade your API plan.")) = true).
  { rewrite lower_app. apply contains_app_l. reflexivity. }
  rewrite C. reflexivity.
Qed.

(** X17. A quota failure at the endpoint: when the model call raises an
    error with a quota marker, the endpoint raises the 429 error whenever
    the quota handler computes a retry delay; when the delay in the error is
    too large for a float, the handler fails in its turn, and the endpoint
    goes on with the generic error result instead. *)
Theorem quota_failure_answered_429
    (policy_text demographics_text : string) (e : exception) :
  generate_content (Agent.compose_prompt policy_text demographics_text) = Agent.Raises e ->
  Spec.quota_marked e ->
  (forall delay,
     Agent.retry_delay_of (Spec.error_text e) = inr delay ->
     Main.analysis_outcome
       (Agent.analyze generate_content json_loads policy_text demographics_text)
     = inl Main.quota_in_summary_error) /\
  (forall e',
     Agent.retry_delay_of (Spec.error_text e) = inl e' ->
     Main.analysis_outcome
       (Agent.analyze generate_content json_loads policy_text demographics_text)
     = inr (Agent.generic_result "cannot convert float infinity to integer")).
Proof.
  intros Hg Hq. pose proof (quota_marked_is_quota e Hq) as Q.
  unfold Agent.analyze, Agent.attempt. rewrite Hg. cbv zeta.
  fold (Spec.error_text e). rewrite Q. split.
  - intros delay D. rewrite D. simpl bind. cbv iota. apply quota_result_outcome.
  - intros e' D. rewrite D. simpl bind. cbv iota.
    rewrite (retry_delay_raises _ _ D), handle_overflow. reflexivity.
Qed.

End AnswerFacts.

Lemma analysis_outcome_of_analyze_witness :
  Agent.analyze (fun _ => Agent.Responds (Some "{}")) Samples.sample_loads "policy" ""
  = inr Samples.empty_object_result /\
  exists d s,
    Samples.empty_object_result = VDict d /\
    Py.lookup "reasoning_summary" d = Some (VStr s) /\
    Main.analysis_outcome
      (Agent.analyze (fun _ => Agent.Responds (Some "{}")) Samples.sample_loads "policy" "")
    = if Str.contains "quota" (Str.lower s) || Str.contains "429" s
      then inl Main.quota_in_summary_error else inr Samples.empty_object_result.
Proof.
  split; [reflexivity|].
  exact (analysis_outcome_of_analyze (fun _ => Agent.Responds (Some "{}"))
           Samples.sample_loads "policy" "" Samples.empty_object_result eq_refl).
Defined.

Lemma quota_failure_answered_429_witness :
  Spec.quota_marked Samples.quota_error /\
  Agent.retry_delay_of (Spec.error_text Samples.quota_error) = inr "12" /\
  Main.analysis_outcome
    (Agent.analyze (fun _ => Agent.Raises Samples.quota_error) Samples.sample_loads "policy" "")
  = inl Main.quota_in_summary_error.
Proof.
  assert (Q : Spec.quota_marked Samples.quota_error) by (left; reflexivity).
  split; [exact Q|]. split; [reflexivity|].
  exact (proj1 (quota_failure_answered_429
                  (fun _ => Agent.Raises Samples.quota_error) Samples.sample_loads
                  "policy" "" Samples.quota_error eq_refl Q) "12" eq_refl).
Defined.

(** ** The whole request *)

Lemma analysis_outcome_inr awaited response :
  Main.analysis_outcome awaited = inr response -> awaited = inr response.
Proof.
  unfold Main.analysis_outcome. destruct awaited as [e|r]; simpl.
  - destruct (String.eqb _ _); [discriminate|]. destruct (_ || _); discriminate.
  - destruct (Main.quota_in_summary r) as [e|[]]; simpl.
    + destruct (String.eqb _ _); [discriminate|]. destruct (_ || _); discriminate.
    + discriminate.
    + intros H; now inversion H.
Qed.

Section EndpointFacts.

Variable extract_policy_text : string -> fallible string.
Variable http_exception_str : Main.HTTPException -> string.
Variable load_demographics : string -> string -> fallible string.
Variable agent_analyze : string -> string -> fallible value.

(** X18. What stands behind an envelope: whenever the endpoint returns an
    envelope, the policy upload had a name that ends in [.pdf] in some case
    and at most 10 MiB of content, the text extracted from it has at least
    ten characters between its first and its last non-blank one, the agent
    was called on that text and the text of the demographic stage, it
    returned a dict, and the envelope is built from that dict. *)
Theorem endpoint_success_provenance
    (policy_file : Main.UploadFile) (demographic_file : option Main.UploadFile)
    (answer : value) :
  Main.analyze_policy extract_policy_text http_exception_str load_demographics agent_analyze
    policy_file demographic_file = inr answer ->
  exists name policy_text demographics_text d,
    Main.filename policy_file = Some name /\
    Str.endswith ".pdf" (Str.lower name) = true /\
    Z.of_nat (String.length (Main.content policy_file)) <= Main.MAX_FILE_SIZE /\
    extract_policy_text (Main.content policy_file) = inr policy_text /\
    (10 <= String.length (Str.strip policy_text))%nat /\
    Main.demographics_text_of load_demographics demographic_file = inr demographics_text /\
    agent_analyze policy_text demographics_text = inr (VDict d) /\
    answer = Main.envelope d demographic_file demographics_text.
Proof.
  unfold Main.analyze_policy.
  destruct (Main.policy_text_of _ _ _) as [err|policy_text] eqn:P; [discriminate|].
  destruct (Main.demographics_text_of _ _) as [err|demographics_text] eqn:D; [discriminate|].
  destruct (Main.analysis_outcome _) as [err|response] eqn:A; [discriminate|].
  destruct response; try discriminate. intros H; inversion H; subst answer.
  apply analysis_outcome_inr in A.
  revert P. unfold Main.policy_text_of.
  destruct (Main.filename policy_file) as [name|]; [|discriminate].
  destruct (String.eqb name "") eqn:En; [discriminate|].
  destruct (Main.validate_file_extension name Main.ALLOWED_POLICY_EXTENSIONS) eqn:Ex;
    simpl negb; cbv iota; [|discriminate].
  destruct (Main.validate_file_size _ _) eqn:Es; simpl negb; cbv iota; [|discriminate].
  destruct (extract_policy_text _) as [e|text] eqn:Et; [discriminate|].
  destruct (String.eqb text "" || _) eqn:Short; [discriminate|].
  intros P; inversion P; subst text.
  exists name, policy_text, demographics_text, entries.
  apply orb_false_iff in Short. destruct Short as [_ Short].
  apply Nat.ltb_ge in Short.
  unfold Main.validate_file_extension in Ex. rewrite En in Ex. simpl in Ex.
  rewrite orb_false_r in Ex.
  unfold Main.validate_file_size in Es. apply Z.leb_le in Es.
  repeat split; assumption.
Qed.

End EndpointFacts.

Lemma endpoint_success_provenance_witness :
  exists name policy_text demographics_text d,
    Main.filename Samples.policy_upload = Some name /\
    Str.endswith ".pdf" (Str.lower name) = true /\
    Z.of_nat (String.length (Main.content Samples.policy_upload)) <= Main.MAX_FILE_SIZE /\
    (fun _ : string => @inr exception string "Fuel prices rise by a fifth.")
      (Main.content Samples.policy_upload) = inr policy_text /\
    (10 <= String.length (Str.strip policy_text))%nat /\
    Main.demographics_text_of (fun _ _ => inr "") None = inr demographics_text /\
    Agent.analyze (fun _ => Agent.Responds (Some "{}")) Samples.sample_loads
      policy_text demographics_text = inr (VDict d) /\
    Main.envelope
      [("affected_groups", VList []); ("mitigations", VList []);
       ("reasoning_summary", VStr "Analysis completed.")]
      None "No demographic data provided"
    = Main.envelope d None demographics_text.
Proof.
  exact (endpoint_success_provenance
           (fun _ => inr "Fuel prices rise by a fifth.") (fun _ => "")
           (fun _ _ => inr "")
           (Agent.analyze (fun _ => Agent.Responds (Some "{}")) Samples.sample_loads)
           Samples.policy_upload None
           (Main.envelope
              [("affected_groups", VList []); ("mitigations", VList []);
               ("reasoning_summary", VStr "Analysis completed.")]
              None "No demographic data provided")
           eq_refl).
Defined.

(** ** The text of the policy *)

Lemma concat_cons x l : String.concat "" (x :: l) = x ++ String.concat "" l.
Proof. destruct l; simpl; [now rewrite string_app_nil_r | reflexivity]. Qed.

Lemma extract_pages_texts texts :
  forall text,
    Tools.extract_pages text (map inr texts)
    = inr (text ++ String.concat "" (map (fun t => t ++ Agent.newline) texts)).
Proof.
  induction texts as [|t texts IH]; intros text.
  - simpl. now rewrite string_app_nil_r.
  - simpl map. rewrite concat_cons. cbn [Tools.extract_pages bind]. rewrite IH.
    now rewrite !string_app_assoc.
Qed.

Lemma extract_pages_fails texts e later :
  forall text, Tools.extract_pages text (map inr texts ++ inl e :: later) = inl e.
Proof.
  induction texts as [|t texts IH]; intros text; simpl; [reflexivity|].
  apply IH.
Qed.

(** X19. The text of a policy document: when the reader opens the document
    and every page gives its text, [extract_policy_text] returns the texts
    of the pages in their order, each followed by a newline; when a page
    fails, it raises an [Exception] whose message is the message of the first
    failing page after the words [Failed to extract text from PDF: ], and so
    it does with the message of the reader when the reader fails. *)
Theorem extract_policy_text_pages
    (PdfReader : string -> fallible (list (fallible string))) (pdf_path : string) :
  (forall texts,
     PdfReader pdf_path = inr (map inr texts) ->
     Tools.extract_policy_text PdfReader pdf_path
     = inr (String.concat "" (map (fun t => t ++ Agent.newline) texts))) /\
  (forall texts e later,
     PdfReader pdf_path = inr (map inr texts ++ inl e :: later)%list ->
     Tools.extract_policy_text PdfReader pdf_path
     = inl (Tools.Exception ("Failed to extract text from PDF: " ++ exc_str e))) /\
  (forall e,
     PdfReader pdf_path = inl e ->
     Tools.extract_policy_text PdfReader pdf_path
     = inl (Tools.Exception ("Failed to extract text from PDF: " ++ exc_str e))).
Proof.
  unfold Tools.extract_policy_text. repeat split.
  - intros texts H. rewrite H, bind_inr, extract_pages_texts. reflexivity.
  - intros texts e later H. rewrite H, bind_inr, extract_pages_fails. reflexivity.
  - intros e H. rewrite H. reflexivity.
Qed.

Lemma extract_policy_text_pages_witness :
  Tools.extract_policy_text (fun _ => inr [inr "Fuel"; inr "prices"]) "policy.pdf"
  = inr ("Fuel" ++ Agent.newline ++ "prices" ++ Agent.newline) /\
  Tools.extract_policy_text
    (fun _ => inr [inr "Fuel"; inl (raised "KeyError" "'/Contents'")]) "policy.pdf"
  = inl (Tools.Exception "Failed to extract text from PDF: '/Contents'").
Proof.
  pose proof (extract_policy_text_pages (fun _ => inr [inr "Fuel"; inr "prices"]) "policy.pdf")
    as [A _].
  pose proof (extract_policy_text_pages
                (fun _ => inr [inr "Fuel"; inl (raised "KeyError" "'/Contents'")]) "policy.pdf")
    as [_ [B _]].
  split.
  - exact (A ["Fuel"; "prices"] eq_refl).
  - exact (B ["Fuel"] (raised "KeyError" "'/Contents'") [] eq_refl).
Defined.

(** X20. A failed extraction at the endpoint: when the policy upload passes
    the checks and [extract_policy_text] fails on it, because the reader or a
    page raised an error, the endpoint raises the 400 error, and its detail
    names the failure with the words [Failed to extract text from PDF: ]
    twice, once from [extract_policy_text] and once from the endpoint. *)
Theorem extraction_failure_detail
    (PdfReader : string -> fallible (list (fallible string)))
    (http_exception_str : Main.HTTPException -> string)
    (policy_file : Main.UploadFile) (name : string) (e : exception) :
  Main.filename policy_file = Some name ->
  Main.validate_file_extension name Main.ALLOWED_POLICY_EXTENSIONS = true ->
  Main.validate_file_size (Z.of_nat (String.length (Main.content policy_file)))
    Main.MAX_FILE_SIZE = true ->
  Tools.extract_policy_text PdfReader (Main.content policy_file) = inl e ->
  exists cause,
    (PdfReader (Main.content policy_file) = inl cause \/
     exists pages, PdfReader (Main.content policy_file) = inr pages /\ In (inl cause) pages) /\
    Main.policy_text_of (Tools.extract_policy_text PdfReader) http_exception_str policy_file
    = inl {| Main.status_code := 400;
             Main.detail := "Failed to extract text from PDF: Failed to extract text from PDF: "
                            ++ exc_str cause |}.
Proof.
  intros Hn Hx Hs He.
  assert (Named : String.eqb name "" = false).
  { unfold Main.validate_file_extension in Hx. destruct (String.eqb name ""); [discriminate|].
    reflexivity. }
  assert (Cause : exists cause,
             (PdfReader (Main.content policy_file) = inl cause \/
              exists pages, PdfReader (Main.content policy_file) = inr pages /\
                            In (inl cause) pages) /\
             e = Tools.Exception ("Failed to extract text from PDF: " ++ exc_str cause)).
  { revert He. unfold Tools.extract_policy_text.
    destruct (PdfReader (Main.content policy_file)) as [cause|pages] eqn:R.
    - simpl. intros H; inversion H. exists cause. split; [now left | reflexivity].
    - rewrite bind_inr.
      assert (G : forall text cause,
                 Tools.extract_pages text pages = inl cause -> In (inl cause) pages).
      { clear. induction pages as [|[c|t] pages IH]; simpl; intros text cause H.
        - discriminate.
        - inversion H. now left.
        - right. exact (IH _ _ H). }
      destruct (Tools.extract_pages "" pages) as [cause|text] eqn:E; [|discriminate].
      intros H; inversion H. exists cause. split; [|reflexivity].
      right. exists pages. split; [reflexivity | exact (G _ _ E)]. }
  destruct Cause as [cause [Hc ->]]. exists cause. split; [exact Hc|].
  unfold Main.policy_text_of. rewrite Hn, Named, Hx, Hs. simpl negb. cbv iota.
  rewrite He. reflexivity.
Qed.

Lemma extraction_failure_detail_witness :
  exists cause,
    ((fun _ : string => @inl exception (list (fallible string))
                          (raised "PdfReadError" "EOF marker not found"))
       (Main.content Samples.policy_upload) = inl cause \/
     exists pages,
       (fun _ : string => @inl exception (list (fallible string))
                            (raised "PdfReadError" "EOF marker not found"))
         (Main.content Samples.policy_upload) = inr pages /\ In (inl cause) pages) /\
    Main.policy_text_of
      (Tools.extract_policy_text (fun _ => inl (raised "PdfReadError" "EOF marker not found")))
      (fun _ => "") Samples.policy_upload
    = inl {| Main.status_code := 400;
             Main.detail := "Failed to extract text from PDF: Failed to extract text from PDF: "
                            ++ exc_str cause |}.
Proof.
  exact (extraction_failure_detail
           (fun _ => inl (raised "PdfReadError" "EOF marker not found")) (fun _ => "")
           Samples.policy_upload "Policy.PDF"
           (Tools.Exception "Failed to extract text from PDF: EOF marker not found")
           eq_refl eq_refl eq_refl eq_refl).
Defined.

(** * More on the demographic summary *)

Lemma prefix_refl s : prefix s s = true.
Proof.
  induction s as [|c s IH]; simpl; [reflexivity|].
  destruct (ascii_dec c c); [exact IH | congruence].
Qed.

Lemma contains_split p s :
  Str.contains p s = true -> exists a b, s = a ++ p ++ b.
Proof.
  induction s as [|c s IH]; cbn [Str.contains]; intros H.
  - rewrite orb_false_r in H. destruct (prefix_split _ _ H) as [rest E].
    exists "", rest. exact E.
  - apply orb_true_iff in H. destruct H as [H | H].
    + destruct (prefix_split _ _ H) as [rest E]. exists "", rest. exact E.
    + destruct (IH H) as [a [b E]]. exists (String c a), b. simpl. now rewrite E.
Qed.

Lemma contains_mid p a b : Str.contains p (a ++ p ++ b) = true.
Proof.
  apply contains_app_r, contains_app_l.
  destruct p; simpl; [reflexivity|].
  destruct (ascii_dec a0 a0); [|congruence]. now rewrite prefix_refl.
Qed.

(** A label that names unemployment names employment. *)
Lemma contains_unemployment s :
  Str.contains "unemployment" s = true -> Str.contains "employment" s = true.
Proof.
  intros H. destruct (contains_split _ _ H) as [a [b ->]].
  change ("unemployment" ++ b) with ("un" ++ "employment" ++ b).
  rewrite <- string_app_assoc. apply contains_mid.
Qed.

Lemma filter_head_of_find {A} (p q : A -> bool) l c :
  find p l = Some c -> q c = true -> (forall x, q x = true -> p x = true) ->
  exists rest, filter q l = c :: rest.
Proof.
  intros Hf Hq Hpq. induction l as [|a l IH]; simpl in *; [discriminate|].
  destruct (p a) eqn:Pa.
  - inversion Hf; subst a. rewrite Hq. eauto.
  - destruct (q a) eqn:Qa; [rewrite (Hpq _ Qa) in Pa; discriminate|].
    exact (IH Hf).
Qed.

Section MoreSummaryFacts.

Variable series : Type.
Variable series_sum series_mean series_median : series -> Q.
Variable value_counts : series -> list (string * Z).
Variable format_1f format_comma_0f : Q -> string.
Variable format_comma : Z -> string.

(** X21. Unemployment is reported as employment too: when the first column
    whose label names employment is numeric and its label names
    unemployment, the summary reports the mean of that one column twice,
    once as the average unemployment rate and once as the average employment
    rate. *)
Theorem unemployment_counted_as_employment
    (df : Tools.DataFrame series) (c : Tools.column series) :
  Tools.first_column ["employment"; "employed"; "job"] df = Some c ->
  Str.contains "unemployment" (Str.lower (Tools.label c)) = true ->
  Tools.is_numeric c = true ->
  In ("Average unemployment rate: " ++ format_1f (series_mean (Tools.data c)) ++ "%")
     (Tools.summary_parts series_sum series_mean series_median value_counts
        format_1f format_comma_0f format_comma df) /\
  In ("Average employment rate: " ++ format_1f (series_mean (Tools.data c)) ++ "%")
     (Tools.summary_parts series_sum series_mean series_median value_counts
        format_1f format_comma_0f format_comma df).
Proof.
  intros Hf Hu Hn. unfold Tools.summary_parts. split.
  - do 6 (apply in_or_app; right). apply in_or_app; left.
    unfold Tools.vulnerability_keywords. cbn [flat_map]. apply in_or_app; left.
    unfold Tools.vulnerability_line.
    destruct (filter_head_of_find _
                (fun c' => Str.contains "unemployment" (Str.lower (Tools.label c')))
                _ _ Hf Hu) as [rest ->].
    { intros x Hx. unfold Tools.any_in. cbn [existsb].
      now rewrite (contains_unemployment _ Hx). }
    rewrite Hn. now left.
  - do 8 (apply in_or_app; right).
    unfold Tools.employment_lines.
    assert (E : existsb (fun col => Tools.any_in ["employment"; "employed"; "job"] col)
                  (map (fun c' => Str.lower (Tools.label c')) (Tools.columns df)) = true).
    { apply existsb_exists. exists (Str.lower (Tools.label c)).
      apply find_some in Hf. destruct Hf as [Hin Hany].
      split; [|exact Hany]. apply in_map_iff. now exists c. }
    rewrite E, Hf, Hn. now left.
Qed.

(** X22. The first line of the summary: on a table with distinct string
    column labels and finite statistics, the tables [Tools.DataFrame]
    describes, the summary the function returns begins with the line
    [Total records: n] for its number of rows, so it is never the fallback
    line of the last statement of the function. *)
Theorem summary_never_fallback (df : Tools.DataFrame series) :
  prefix ("Total records: " ++ Str.of_nat (Tools.rows df))
    (Tools.generate_demographic_summary series_sum series_mean series_median value_counts
       format_1f format_comma_0f format_comma df) = true /\
  Tools.generate_demographic_summary series_sum series_mean series_median value_counts
    format_1f format_comma_0f format_comma df <> Tools.fallback.
Proof.
  unfold Tools.generate_demographic_summary, Tools.summary_parts.
  cbv zeta.
  set (first := "Total records: " ++ Str.of_nat (Tools.rows df)).
  match goal with
  | |- context [([first] ++ ?tail)%list] => set (rest := tail)
  end.
  change ([first] ++ rest)%list with (first :: rest).
  cbv iota. unfold Str.join.
  assert (T : exists more, first = String "T" more) by (eexists; reflexivity).
  destruct T as [more T].
  destruct rest as [|next rest].
  - simpl String.concat. split; [apply prefix_refl|].
    rewrite T. discriminate.
  - cbn [String.concat]. split.
    + apply prefix_app, prefix_refl.
    + rewrite T. discriminate.
Qed.

End MoreSummaryFacts.

Lemma unemployment_counted_as_employment_witness :
  In "Average unemployment rate: 7.5%"
     (Tools.summary_parts (fun _ => 0%Q) (fun _ => 0%Q) (fun _ => 0%Q) (fun _ => [])
        (fun _ => "7.5") (fun _ => "") (fun _ => "") Samples.unemployment_frame) /\
  In "Average employment rate: 7.5%"
     (Tools.summary_parts (fun _ => 0%Q) (fun _ => 0%Q) (fun _ => 0%Q) (fun _ => [])
        (fun _ => "7.5") (fun _ => "") (fun _ => "") Samples.unemployment_frame).
Proof.
  exact (unemployment_counted_as_employment unit
           (fun _ => 0%Q) (fun _ => 0%Q) (fun _ => 0%Q) (fun _ => [])
           (fun _ => "7.5") (fun _ => "") (fun _ => "") Samples.unemployment_frame
           {| Tools.label := "Unemployment_Rate"; Tools.dtype := "float64"; Tools.data := tt |}
           eq_refl eq_refl eq_refl).
Defined.

(** * The suffix of the temporary copy, and the caps of [analyze] *)

Lemma endswith_app suffix a : Str.endswith suffix (a ++ suffix) = true.
Proof.
  induction a as [|c a IH]; cbn [append].
  - destruct suffix; cbn [Str.endswith]; now rewrite String.eqb_refl.
  - cbn [Str.endswith]. now rewrite IH, orb_true_r.
Qed.

Lemma endswith_split suffix s :
  Str.endswith suffix s = true -> exists a, s = a ++ suffix.
Proof.
  induction s as [|c s IH]; cbn [Str.endswith]; intros H.
  - rewrite orb_false_r in H. apply String.eqb_eq in H. exists "". now rewrite <- H.
  - apply orb_true_iff in H. destruct H as [H | H].
    + apply String.eqb_eq in H. exists "". now rewrite <- H.
    + destruct (IH H) as [a ->]. now exists (String c a).
Qed.

Lemma last_char_inj a b c d :
  a ++ String c "" = b ++ String d "" -> c = d.
Proof.
  revert b; induction a as [|x a IH]; intros [|y b]; simpl; intros H.
  - now inversion H.
  - inversion H as [[E1 E2]]. destruct b; discriminate E2.
  - inversion H as [[E1 E2]]. destruct a; discriminate E2.
  - inversion H. eauto.
Qed.

(** A path that ends in [.xlsx] does not end in [.csv]. *)
Lemma xlsx_is_no_csv stem : Str.endswith ".csv" (stem ++ ".xlsx") = false.
Proof.
  destruct (Str.endswith ".csv" (stem ++ ".xlsx")) eqn:E; [|reflexivity].
  destruct (endswith_split _ _ E) as [a H].
  change (stem ++ ".xlsx") with (stem ++ ".xls" ++ "x") in H.
  change (a ++ ".csv") with (a ++ ".cs" ++ "v") in H.
  rewrite <- !string_app_assoc in H.
  apply last_char_inj in H. discriminate H.
Qed.

Section Suffix.

Variable series : Type.
Variable series_sum series_mean series_median : series -> Q.
Variable value_counts : series -> list (string * Z).
Variable format_1f format_comma_0f : Q -> string.
Variable format_comma : Z -> string.
Variable read_csv read_excel : string -> fallible (Tools.DataFrame series).

(** X23. The temporary copy of a demographic upload is always read: the
    endpoint names the copy with the suffix [.csv] when the upload's name
    ends in [.csv] in some case and with [.xlsx] otherwise, also for an
    [.xls] upload, and on a path with either suffix [load_demographics] reads
    the file, with [read_csv] for the first and [read_excel] for the second,
    and never answers that the format is unsupported. *)
Theorem temporary_copy_is_read (stem name : string) :
  Tools.load_demographics series_sum series_mean series_median value_counts
    format_1f format_comma_0f format_comma read_csv read_excel
    (stem ++ (if Str.endswith ".csv" (Str.lower name) then ".csv" else ".xlsx"))
  = Tools.digest_of series_sum series_mean series_median value_counts
      format_1f format_comma_0f format_comma
      (if Str.endswith ".csv" (Str.lower name)
       then read_csv (stem ++ ".csv") else read_excel (stem ++ ".xlsx")).
Proof.
  unfold Tools.load_demographics.
  destruct (Str.endswith ".csv" (Str.lower name)).
  - now rewrite endswith_app.
  - now rewrite xlsx_is_no_csv, endswith_app.
Qed.

End Suffix.

Section Caps.

Variable generate_content : string -> Agent.reply.
Variable json_loads : string -> string + value.

Ltac small :=
  unfold Config.MAX_AFFECTED_GROUPS, Config.MAX_MITIGATIONS; simpl; lia.

Lemma handle_caps e r :
  Agent.handle e = inr r ->
  (List.length (Spec.groups_of r) <= Config.MAX_AFFECTED_GROUPS)%nat /\
  exists mitigations k,
    Spec.field "mitigations" r = Some mitigations /\
    Py.len mitigations = inr k /\ (k <= Config.MAX_MITIGATIONS)%nat.
Proof.
  unfold Agent.handle.
  destruct (String.eqb (exc_class e) "JSONDecodeError").
  { intros H; injection H as <-. split; [small|].
    eexists _, _. split; [reflexivity|]. split; [reflexivity | small]. }
  cbv zeta. destruct (Agent.is_quota _ _ _).
  { destruct (Agent.retry_delay_of _) as [e'|delay]; simpl bind; [discriminate|].
    intros H; injection H as <-. split; [small|].
    eexists _, _. split; [reflexivity|]. split; [reflexivity | small]. }
  destruct (Agent.is_authentication _ _);
    intros H; injection H as <-; (split; [small|]);
    eexists _, _; (split; [reflexivity|]); (split; [reflexivity | small]).
Qed.

(** X24. The caps hold for every result of [analyze]: whether the result
    comes from the pipeline or is one of the results synthesized for an
    empty reply or a failure, it holds at most three affected groups and at
    most five mitigations. *)
Theorem analyze_caps (policy_text demographics_text : string) (r : value) :
  Agent.analyze generate_content json_loads policy_text demographics_text = inr r ->
  (List.length (Spec.groups_of r) <= Config.MAX_AFFECTED_GROUPS)%nat /\
  exists mitigations k,
    Spec.field "mitigations" r = Some mitigations /\
    Py.len mitigations = inr k /\ (k <= Config.MAX_MITIGATIONS)%nat.
Proof.
  unfold Agent.analyze.
  destruct (Agent.attempt _ _ _) as [e|r'] eqn:A; [apply handle_caps|].
  intros H; injection H as <-. revert A. unfold Agent.attempt.
  destruct (generate_content _) as [e|[text|]].
  - cbv zeta. destruct (Agent.is_quota _ _ _); [|discriminate].
    destruct (Agent.retry_delay_of _) as [e'|delay]; simpl bind; [discriminate|].
    intros A; injection A as <-. split; [small|].
    eexists _, _. split; [reflexivity|]. split; [reflexivity | small].
  - destruct (negb (String.eqb text "")).
    + intros A. invert_bind A. invert_bind A. injection A as <-.
      destruct (post_process_needs_dict _ _ Hx0) as [d ->].
      destruct (post_process_fields _ _ Hx0) as [held [m [s [Hf [Hm [_ [Hc [_ Hg]]]]]]]].
      split.
      * unfold Spec.groups_of. rewrite Hf.
        destruct (Py.lookup "affected_groups" d) as [given|].
        -- destruct Hg as [[groups [groups' [-> [-> F]]]] | [_ [-> Hi]]].
           ++ simpl. rewrite <- (Forall2_length F). apply firstn_le_length.
           ++ rewrite Hi. simpl. lia.
        -- subst held. simpl. lia.
      * destruct (capped_len _ _ _ Hc) as [k [Hk Hle]]. now exists m, k.
    + intros A; injection A as <-. split; [small|].
      eexists _, _. split; [reflexivity|]. split; [reflexivity | small].
  - intros A; injection A as <-. split; [small|].
    eexists _, _. split; [reflexivity|]. split; [reflexivity | small].
Qed.

End Caps.

Lemma analyze_caps_witness :
  Agent.analyze (fun _ => Agent.Raises Samples.bare_quota_error) Samples.sample_loads "policy" ""
  = inr (Agent.quota_result "60") /\
  (List.length (Spec.groups_of (Agent.quota_result "60")) <= Config.MAX_AFFECTED_GROUPS)%nat /\
  exists mitigations k,
    Spec.field "mitigations" (Agent.quota_result "60") = Some mitigations /\
    Py.len mitigations = inr k /\ (k <= Config.MAX_MITIGATIONS)%nat.
Proof.
  split; [reflexivity|].
  exact (analyze_caps (fun _ => Agent.Raises Samples.bare_quota_error) Samples.sample_loads
           "policy" "" (Agent.quota_result "60") eq_refl).
Defined.
